(* ===== verification/_CoqProject ===== *)
-Q . S2P
Prelude.v
Json.v
Model.v
Cache.v
Fetcher.v
Pagination.v
App.v
Interleaving.v
InterleavedBounds.v
View.v
