(* ===== verification/Prelude.v ===== *)
(** * RampExercise: a verified model of the transaction data-access layer

    ** The program

    [src/src/hooks/useCustomFetch.ts], [src/src/hooks/usePaginatedTransactions.ts]
    and [src/src/App.tsx] form the client-side data layer of a React app:
    - the request cache: a [Map<string,string>] in a ref of the React
      context, keyed by [getCacheKey(endpoint, params)], holding
      [JSON.stringify] of responses;
    - the request executor [useWrappedRequest] (not among the sources):
      a loading flag raised around each request, errors turned into [null];
    - the cached fetcher [useCustomFetch]: [fetchWithCache],
      [fetchWithoutCache], [clearCache], [clearCacheByEndpoint];
    - the pagination accumulator [usePaginatedTransactions]: [fetchAll]
      appends the next page to a [useState] cell, [invalidateData] resets it;
    - the coordinator [App]: two mutually exclusive sources (all
      transactions, paginated; one employee's transactions), the employee
      list, the mount effect, the employee select and "View More".
    Each hook owns its executor flag and its cell; the cache is shared.

    ** The development (files in dependency order)

    - [Prelude.v]: the state monad [St] of the hooks with its notation
      ([hook_scope]), [st_iter] (run an action n times), string lemmas
      ([+:+] is [String.append]), the [ramp] hint databases, the tactics
      [st_unfold] and [st_split], and [rtc_preserve], the rule
      induction every reachability invariant of the development uses.
    - [Json.v]: JSON values, [stringify] (ECMAScript's [JSON.stringify]:
      QuoteJSONString escapes, compact separators) and [parse] (the JSON
      grammar, fuelled), the round trip [parse_stringify], [stringify_inj],
      decidable equality, and the [Codec] class: a typed view of JSON
      with the law [of_json (to_json x) = Some x] (the [as TData] cast).
    - [Model.v]: [Employee], [Transaction], [PaginatedResponse], the
      registered endpoints, the parameter objects, their codecs.
    - [Cache.v]: the store interface [KVStore]/[KVStoreLaws] (what the
      code uses of a [Map]), implemented by [gmap] and by [JsMap] (an
      insertion-ordered association list, the JavaScript [Map]);
      [getCacheKey], [clearCache], [clearCacheByEndpoint]; the cache ref
      is [option M] ([cache?.current] may be absent); [cache_equiv],
      caches with the same entries, with [Proper] instances for every
      operation.
    - [Fetcher.v]: [FetchState] (cache ref, log of network calls, the
      executor's flag), [wrappedRequest], [fetchWithCache],
      [fetchWithoutCache]; an abstract memo table [abs_fetchWithCache]
      and the relation [fetch_rel]; the invariant [consistent_cache];
      [useCustomFetch], the record of operations and flag the hook
      returns ([CustomFetchResult]).
      Proved against [KVStoreLaws], for every [Codec].
    - [Pagination.v]: [PagState], [reached_end], [next_page_param],
      [merge_page] (the updater), [fetchAll], [invalidateData]; the page
      chain [follows]/[cursor]/[accumulated] and the step relation
      [pag_step]; [usePaginatedTransactions], the record the hook
      returns ([PaginatedTransactionsResult]).
    - [App.v]: [Backend] (the server at each endpoint), [World] (cache,
      log, the three executor flags, the three cells, [isLoading],
      [currentEmployee]), the hooks lifted onto it ([run_fetch],
      [run_pag]), [loadAllTransactions], [loadTransactionsByEmployee],
      [mountEffect], [onChange], [viewMore], [transactions],
      [paginatedTransactionsUtils] (the paginated hook's record in a
      render, whose [loading] disables "View More"), and the
      step relation [ui_step] of what the user and React may do.
    - [Interleaving.v]: the same handlers cut at their network [await]s
      ([fetch_begin]/[fetch_finish] split [fetchWithCache]); a system
      state is a [World] and the list of requests in flight ([Task]s,
      each carrying what the rest of its handler closes over, e.g. the
      render's paginated cell); [istep] lets the user act and any pending
      request answer, in any order.
    - [InterleavedBounds.v]: the invariant [bounds_inv] (faithful cache,
      cursor, log and the requests in flight in range) and its
      preservation by every step of [istep].
    - [View.v]: the [return] of [App]: [render] builds the page's props
      from a [World] (the select's [isLoading], items, [parseItem] and
      [onChange] closure; the transactions; the "View More" button, shown
      when [transactions !== null], [disabled] by the paginated flag,
      with its [onClick] closure), given the closures; [app_page_i] is
      the page of the interleaved handlers.

    ** What is proved

    - JSON: [JSON.parse(JSON.stringify v) = v] for every value;
      serialisation is injective and never empty (so a cached entry is
      always truthy).
    - Cache: [getCacheKey] is injective (endpoint and parameter object);
      [clearCacheByEndpoint] removes exactly the entries of the listed
      endpoints; the key of page 0 is the spec's literal key.  Since the
      key is injective in the parameter object as a list of members, two
      objects with the same members in another order get different keys.
    - Fetcher: a cached answer is returned with no network call and
      stays stable ([fetchWithCache_idempotent]); a rejected request
      caches nothing, so the same request goes to the network again
      ([fetchWithCache_failure_retries]); without a
      cache [fetchWithCache] is [fetchWithoutCache]; [fetchWithCache]
      refines the abstract memo table ([fetchWithCache_refines]); no
      entry is ever overwritten; a cache consistent with a deterministic backend stays so and makes
      [fetchWithCache] answer what the backend answers; after
      [clearCache], or [clearCacheByEndpoint] over its endpoint, a
      request goes to the network, and clearing other endpoints changes
      nothing it answers or sends ([clear_then_fetch]).
    - Pagination: the spec's three-page scenario; every reachable cell
      is the in-order concatenation of the backend's page chain from
      page 0 ([pag_reachable_accumulated]); the exact effect of one
      [fetchAll]; after [invalidateData] page 0 comes from the cache.
    - Coordinator: in every reachable state the sources are exclusive
      and the list shown follows the filter ([ui_reachable_exclusive]);
      the spec's end-to-end scenario, with the exact network log; when
      the employee list loads, the mount effect runs once; "View More"
      under an employee whose list is cached sends no request
      ([viewMore_employee_cached]).
    - Interleavings: the atomic handlers are the cut ones with each
      request answered at once ([loadAll_sequential],
      [loadByEmployee_sequential]); in every interleaving the cache stays faithful to the backend and,
      once nothing is in flight, every loading flag is down.  An entry written to the cache never changes
      afterwards ([cache_entries_stable]) and always decodes, through
      [JSON.parse] and the cast, to the backend's answer for its request
      ([cache_entries_typed]).  The races:
      two "View More" clicks in one render append one page twice; a page
      answering after the switch to an employee is shown under that
      employee's filter; the paginated loading flag drops while a second
      request for the same page is in flight; a page request in flight across a
      switch to an employee and back lands before page 0, so the list of
      "All Employees" shows its pages out of order ([pages_out_of_order]).
    - Bounds: with a backend whose cursors lie in [0, B) every page
      parameter the accumulator sends is [null] or in [0, B)
      ([pag_requests_bounded]; with B = 2^53 no request leaves the
      integers JavaScript represents exactly); the same holds under
      every interleaving, for the requests sent and those in flight
      ([interleaved_requests_bounded]).
    - Page: under any interleaving, answering
      the requests in flight brings back a page with no loading display
      and an enabled "View More" ([page_settles]).
    - Findings, proved as theorems: a first page that is also the last
      keeps a [null] cursor, so the next [fetchAll] requests page [null]
      ([fetchAll_first_page_last]); a failed page fetch erases every
      loaded page ([fetchAll_appends]); when the employee fetch fails the
      mount effect fires again forever ([mountEffect_retries]); "View
      More" under "All Employees" refetches the employee list
      ([viewMore_all_refetches_employees]).

    ** Bounds and fuel

    [parse] runs [parse_value] with fuel [1 + length s]; a value needs
    [json_size v] units and [json_size_le_length] shows
    [json_size v <= length (stringify v)], so the fuel always suffices for
    serialised values.  Nothing else is fuelled: every other function is
    structural; [drain] takes its number of answers as an argument and
    [drain_done] shows that [weight] of the set in flight is enough.  Numbers are mathematical integers; [pag_requests_bounded]
    shows that page parameters stay below any bound [B] the backend's
    cursors respect, which is what keeps them exact as JavaScript
    numbers (B = 2^53 in its witness).

    ** Not modelled

    Every statement of the three source files is translated; what the
    map leaves out is imports, comments and the header line of [App].
    What remains partly modelled is code that is not among the sources
    and is modelled from the spec only: [useEmployees],
    [useTransactionsByEmployee], [useWrappedRequest], [utils/types.ts],
    [utils/constants.ts], the context, and the components below.  Going
    further would mean guessing their code.
    - The markup of [InputSelect], [Transactions] and [Instructions]
      (not among the sources) and styling: [View.v] keeps the props
      [App] passes them and the events the user can raise; any listed
      item of the select may be picked, whatever its loading display.
    - The server [fakeFetch] ([utils/fetch.ts]): a parameter [Backend],
      deterministic; a rejection is [None].
    - JSON numbers with fractions or exponents, duplicate object keys,
      code units above 255.
    - React's scheduling itself: a [setState] is seen by the next action
      (the render happens before the next event), and the mount effect
      may fire in any state where its condition holds.  A cache hit does
      not yield to other tasks (the spec's atomicity of cache reads).
    - [clearCache] and [clearCacheByEndpoint] have no caller in the
      sources; they are modelled and proved, not exercised by [App]. *)

From stdpp Require Import base list strings relations.
From Stdlib Require Import Ascii ZArith.
From Stdlib Require String.

(** ** The state monad of the hooks

    The hooks of the program thread two kinds of state through their
    [await]s: the request cache shared through the React context, and the
    hook-local [useState] cells.  We write each operation as a function
    [S -> A * S]. *)

Definition St (S A : Type) : Type := S -> A * S.

Definition st_ret {S A} (a : A) : St S A := fun s => (a, s).
Definition st_bind {S A B} (c : St S A) (k : A -> St S B) : St S B :=
  fun s => let '(a, s') := c s in k a s'.
Definition st_get {S} : St S S := fun s => (s, s).
Definition st_put {S} (s : S) : St S unit := fun _ => (tt, s).
Definition st_modify {S} (f : S -> S) : St S unit := fun s => (tt, f s).

Declare Scope hook_scope.
Delimit Scope hook_scope with hook.
Notation "x <- c ;; k" := (st_bind c (fun x => k))
  (at level 100, c at next level, right associativity) : hook_scope.
Notation "c ;;; k" := (st_bind c (fun _ => k))
  (at level 100, right associativity) : hook_scope.

Lemma st_bind_ret_l {S A B} (a : A) (k : A -> St S B) s :
  st_bind (st_ret a) k s = k a s.
Proof. reflexivity. Qed.

Lemma st_bind_assoc {S A B C} (c : St S A) (f : A -> St S B) (g : B -> St S C) s :
  st_bind (st_bind c f) g s = st_bind c (fun a => st_bind (f a) g) s.
Proof. unfold st_bind. by destruct (c s). Qed.

(** [n] runs of an operation in sequence ("click [n] times"). *)
Fixpoint st_iter {State} (n : nat) (c : St State unit) : St State unit :=
  match n with
  | O => st_ret tt
  | Datatypes.S n' => st_bind c (fun _ => st_iter n' c)
  end.

Lemma st_iter_S {State} n (c : St State unit) s :
  st_iter (Datatypes.S n) c s = st_iter n c (c s).2.
Proof. simpl. unfold st_bind. by destruct (c s). Qed.

(** ** Strings

    stdpp declares [String.append] (written [+:+]) [simpl never]; the two
    computation rules below are what the proofs rewrite with instead. *)

Lemma sapp_nil_l (b : string) : "" +:+ b = b.
Proof. reflexivity. Qed.

Lemma sapp_cons (x : ascii) (a b : string) : String x a +:+ b = String x (a +:+ b).
Proof. reflexivity. Qed.

Lemma sapp_assoc (a b c : string) : (a +:+ b) +:+ c = a +:+ (b +:+ c).
Proof. induction a as [|x a IH]; [done | by rewrite !sapp_cons, IH]. Qed.

Lemma sapp_nil_r (a : string) : a +:+ "" = a.
Proof. induction a as [|x a IH]; [done | by rewrite sapp_cons, IH]. Qed.

Lemma slength_app (a b : string) :
  String.length (a +:+ b) = String.length a + String.length b.
Proof. induction a as [|x a IH]; [done | rewrite sapp_cons; simpl; by rewrite IH]. Qed.

Lemma sapp_inv_l (a b c : string) : a +:+ b = a +:+ c -> b = c.
Proof. apply (inj (String.append a)). Qed.

(** [String.prefix p s] is JavaScript's [s.startsWith(p)]. *)
Lemma prefix_spec (p s : string) :
  String.prefix p s = true <-> exists t, s = p +:+ t.
Proof.
  revert s; induction p as [|x p IH]; intros [|y s]; simpl.
  - split; [by exists "" | done].
  - split; [intros _; by exists (String y s) | done].
  - split; [done | intros [t Ht]; discriminate].
  - destruct (ascii_dec x y) as [->|Hne].
    + rewrite IH. split; intros [t Ht]; exists t; [by subst | by injection Ht].
    + split; [done | intros [t Ht]; injection Ht; intros; congruence].
Qed.

Lemma prefix_app (p t : string) : String.prefix p (p +:+ t) = true.
Proof. apply prefix_spec. by exists t. Qed.

(** ** Lists *)

Lemma list_sum_map_le {A} (f g : A -> nat) (l : list A) :
  Forall (fun x => f x <= g x) l -> list_sum (map f l) <= list_sum (map g l).
Proof. induction 1; simpl; lia. Qed.

(** ** Reachability

    An invariant of one step holds along every run. *)
Lemma rtc_preserve {A} (R : relation A) (P : A -> Prop) x y :
  (forall a b, R a b -> P a -> P b) -> P x -> rtc R x y -> P y.
Proof. intros Hstep Hx Hr. induction Hr as [|a b c Hab _ IH]; [done|]. by apply IH, (Hstep a b). Qed.

(** ** Automation *)

Create HintDb ramp discriminated.
Create Rewrite HintDb ramp_rw.
#[export] Hint Rewrite sapp_nil_l sapp_cons sapp_assoc sapp_nil_r slength_app : ramp_rw.
#[export] Hint Resolve prefix_app : ramp.

(** Unfold the monad combinators and let [simpl] run the hook bodies. *)
Ltac st_unfold := unfold st_bind, st_ret, st_get, st_put, st_modify in *; simpl in *.

(** Name the result and the state of each sub-operation a goal runs. *)
Ltac st_split :=
  repeat match goal with
  | |- context [match ?x with (_, _) => _ end] =>
      let a := fresh "r" in let s := fresh "s" in destruct x as [a s] eqn:?
  | H : context [match ?x with (_, _) => _ end] |- _ =>
      let a := fresh "r" in let s := fresh "s" in destruct x as [a s] eqn:?
  end.
