(* ===== verification/Json.v ===== *)
(** * JSON values, [JSON.stringify] and [JSON.parse]

    The cache of [useCustomFetch.ts] stores [JSON.stringify(result)] and
    reads it back with [JSON.parse]; [getCacheKey] embeds
    [JSON.stringify(params)] in the key.  These are JavaScript built-ins,
    not code of the repository: this file models them from the
    ECMAScript definition (QuoteJSONString, SerializeJSONObject,
    SerializeJSONArray, the JSON grammar) restricted to the values the
    program exchanges.  Numbers are integers ([Z]): page numbers and the
    fixtures' amounts; fractions and exponents are outside the model.
    Characters are 8-bit ([ascii]) code units.

    Main results: [parse_stringify] (a round trip for every value) and
    [stringify_inj]. *)

From stdpp Require Import base list strings.
From Stdlib Require Import Ascii ZArith ZifyNat DecimalPos DecimalFacts.
From S2P Require Import Prelude.

#[local] Unset Elimination Schemes.
Inductive json : Type :=
| JNull
| JBool (b : bool)
| JNum (z : Z)
| JStr (s : string)
| JArr (l : list json)
| JObj (l : list (string * json)).
#[local] Set Elimination Schemes.

(** The generated induction principle forgets the values nested in the
    lists; this one keeps them. *)
Section json_ind.
Variable P : json -> Prop.
Hypothesis HNull : P JNull.
Hypothesis HBool : forall b, P (JBool b).
Hypothesis HNum : forall z, P (JNum z).
Hypothesis HStr : forall s, P (JStr s).
Hypothesis HArr : forall l, Forall P l -> P (JArr l).
Hypothesis HObj : forall l, Forall (fun kv => P kv.2) l -> P (JObj l).

Fixpoint json_ind' (v : json) : P v :=
  match v with
  | JNull => HNull
  | JBool b => HBool b
  | JNum z => HNum z
  | JStr s => HStr s
  | JArr l => HArr l ((fix go (l : list json) : Forall P l :=
                match l with
                | [] => List.Forall_nil _
                | x :: l' => List.Forall_cons _ x l' (json_ind' x) (go l')
                end) l)
  | JObj l => HObj l ((fix go (l : list (string * json)) : Forall (fun kv => P kv.2) l :=
                match l with
                | [] => List.Forall_nil _
                | x :: l' => List.Forall_cons _ x l' (json_ind' x.2) (go l')
                end) l)
  end.
End json_ind.

(** ** Serialisation ([JSON.stringify]) *)

Definition qt : ascii := "034"%char.
Definition bs : ascii := "092"%char.

(** Lower-case hexadecimal digit of [n < 16], as in UnicodeEscape. *)
Definition hex_digit (n : nat) : ascii :=
  if n <? 10 then ascii_of_nat (48 + n) else ascii_of_nat (87 + n).

(** QuoteJSONString, one code unit. *)
Definition escape_char (c : ascii) : string :=
  let n := nat_of_ascii c in
  if n =? 34 then String bs (String qt "")
  else if n =? 92 then String bs (String bs "")
  else if n =? 8 then String bs "b"
  else if n =? 9 then String bs "t"
  else if n =? 10 then String bs "n"
  else if n =? 12 then String bs "f"
  else if n =? 13 then String bs "r"
  else if n <? 32 then
    String bs (String "u" (String "0" (String "0"
      (String (hex_digit (n / 16)) (String (hex_digit (n mod 16)) "")))))
  else String c "".

Fixpoint escape (s : string) : string :=
  match s with
  | "" => ""
  | String c r => escape_char c +:+ escape r
  end.

Definition quote (s : string) : string := String qt (escape s +:+ String qt "").

Fixpoint uint_to_string (d : Decimal.uint) : string :=
  match d with
  | Decimal.Nil => ""
  | Decimal.D0 d => String "0" (uint_to_string d)
  | Decimal.D1 d => String "1" (uint_to_string d)
  | Decimal.D2 d => String "2" (uint_to_string d)
  | Decimal.D3 d => String "3" (uint_to_string d)
  | Decimal.D4 d => String "4" (uint_to_string d)
  | Decimal.D5 d => String "5" (uint_to_string d)
  | Decimal.D6 d => String "6" (uint_to_string d)
  | Decimal.D7 d => String "7" (uint_to_string d)
  | Decimal.D8 d => String "8" (uint_to_string d)
  | Decimal.D9 d => String "9" (uint_to_string d)
  end.

(** Number::toString on an integer. *)
Definition number_to_string (z : Z) : string :=
  match z with
  | Z0 => "0"
  | Zpos p => uint_to_string (Pos.to_uint p)
  | Zneg p => String "-" (uint_to_string (Pos.to_uint p))
  end.

(** The elements of an array or the members of an object, separated by
    commas (the [separator] of SerializeJSONArray with no indentation). *)
Fixpoint join_comma (l : list string) : string :=
  match l with
  | [] => ""
  | [x] => x
  | x :: l' => x +:+ String "," (join_comma l')
  end.

Fixpoint stringify (v : json) : string :=
  match v with
  | JNull => "null"
  | JBool true => "true"
  | JBool false => "false"
  | JNum z => number_to_string z
  | JStr s => quote s
  | JArr l => String "[" (join_comma (map stringify l) +:+ "]")
  | JObj l => String "{" (join_comma (map (fun kv => quote kv.1 +:+ String ":" (stringify kv.2)) l) +:+ "}")
  end.

Example stringify_page0 : stringify (JObj [("page", JNum 0)]) = String "{" (quote "page" +:+ ":0}").
Proof. reflexivity. Qed.

(** ** Parsing ([JSON.parse])

    A recursive-descent reader of the JSON grammar.  Each function returns
    the value read and the rest of the input, or [None] where [JSON.parse]
    throws a [SyntaxError]. *)

(** JSON whitespace: tab, line feed, carriage return, space. *)
Definition is_ws (c : ascii) : bool :=
  match nat_of_ascii c with 9 | 10 | 13 | 32 => true | _ => false end.

Fixpoint skip_ws (s : string) : string :=
  match s with
  | String c r => if is_ws c then skip_ws r else s
  | "" => ""
  end.

(** [strip p s] is [Some r] when [s = p +:+ r]. *)
Fixpoint strip (p s : string) : option string :=
  match p, s with
  | "", _ => Some s
  | String x p', String y s' => if ascii_dec x y then strip p' s' else None
  | _, _ => None
  end.

(** The [Decimal.uint] constructor of a decimal digit. *)
Definition digit_ctor (c : ascii) : option (Decimal.uint -> Decimal.uint) :=
  match nat_of_ascii c with
  | 48 => Some Decimal.D0 | 49 => Some Decimal.D1 | 50 => Some Decimal.D2
  | 51 => Some Decimal.D3 | 52 => Some Decimal.D4 | 53 => Some Decimal.D5
  | 54 => Some Decimal.D6 | 55 => Some Decimal.D7 | 56 => Some Decimal.D8
  | 57 => Some Decimal.D9
  | _ => None
  end.

Definition is_digit (c : ascii) : bool := bool_decide (48 <= nat_of_ascii c <= 57).

(** The longest run of digits at the head of [s]. *)
Fixpoint read_digits (s : string) : Decimal.uint * string :=
  match s with
  | String c r =>
      match digit_ctor c with
      | Some k => let '(d, r') := read_digits r in (k d, r')
      | None => (Decimal.Nil, s)
      end
  | "" => (Decimal.Nil, "")
  end.

(** int = "0" | [1-9] digit*  (a leading zero ends the integer part). *)
Definition parse_nat (s : string) : option (N * string) :=
  match s with
  | String c r =>
      if ascii_dec c "0" then Some (0%N, r)
      else if is_digit c then
        let '(d, r') := read_digits s in Some (N.of_uint d, r')
      else None
  | "" => None
  end.

Definition parse_number (s : string) : option (Z * string) :=
  match s with
  | String c r =>
      if ascii_dec c "-" then '(n, r') ← parse_nat r; Some (Z.opp (Z.of_N n), r')
      else '(n, r') ← parse_nat s; Some (Z.of_N n, r')
  | "" => None
  end.

Definition hex_val (c : ascii) : option nat :=
  let n := nat_of_ascii c in
  if bool_decide (48 <= n <= 57) then Some (n - 48)
  else if bool_decide (97 <= n <= 102) then Some (n - 87)
  else if bool_decide (65 <= n <= 70) then Some (n - 55)
  else None.

(** \uXXXX; a code unit above 255 is outside the 8-bit character model. *)
Definition unicode_escape (h1 h2 h3 h4 : ascii) : option ascii :=
  a ← hex_val h1; b ← hex_val h2; c ← hex_val h3; d ← hex_val h4;
  let n := a * 4096 + b * 256 + c * 16 + d in
  if n <? 256 then Some (ascii_of_nat n) else None.

Definition simple_escape (e : ascii) : option ascii :=
  match nat_of_ascii e with
  | 34 => Some qt | 92 => Some bs | 47 => Some "/"%char
  | 98 => Some "008"%char | 102 => Some "012"%char | 110 => Some "010"%char
  | 114 => Some "013"%char | 116 => Some "009"%char
  | _ => None
  end.

(** The characters of a string literal after its opening quote, up to and
    including the closing quote. *)
Fixpoint parse_chars (s : string) : option (string * string) :=
  match s with
  | "" => None
  | String c r =>
      if ascii_dec c qt then Some ("", r)
      else if ascii_dec c bs then
        match r with
        | String "u" (String h1 (String h2 (String h3 (String h4 r')))) =>
            x ← unicode_escape h1 h2 h3 h4;
            '(t, r'') ← parse_chars r'; Some (String x t, r'')
        | String e r' =>
            x ← simple_escape e;
            '(t, r'') ← parse_chars r'; Some (String x t, r'')
        | "" => None
        end
      else if nat_of_ascii c <? 32 then None
      else '(t, r') ← parse_chars r; Some (String c t, r')
  end.

(** The next character that is not whitespace, and what follows it. *)
Definition next (s : string) : option (ascii * string) :=
  match skip_ws s with
  | String c r => Some (c, r)
  | "" => None
  end.

Fixpoint parse_value (fuel : nat) (s : string) : option (json * string) :=
  match fuel with
  | O => None
  | S f =>
      let s := skip_ws s in
      match strip "null" s, strip "true" s, strip "false" s with
      | Some r, _, _ => Some (JNull, r)
      | _, Some r, _ => Some (JBool true, r)
      | _, _, Some r => Some (JBool false, r)
      | None, None, None =>
          '(c, r) ← next s;
          if ascii_dec c qt then '(t, r') ← parse_chars r; Some (JStr t, r')
          else if ascii_dec c "[" then
            '(c', r') ← next r;
            if ascii_dec c' "]" then Some (JArr [], r')
            else '(l, r'') ← parse_elements f r; Some (JArr l, r'')
          else if ascii_dec c "{" then
            '(c', r') ← next r;
            if ascii_dec c' "}" then Some (JObj [], r')
            else '(l, r'') ← parse_members f r; Some (JObj l, r'')
          else '(z, r') ← parse_number s; Some (JNum z, r')
      end
  end
with parse_elements (fuel : nat) (s : string) : option (list json * string) :=
  match fuel with
  | O => None
  | S f =>
      '(v, r) ← parse_value f s;
      '(c, r') ← next r;
      if ascii_dec c "," then '(l, r'') ← parse_elements f r'; Some (v :: l, r'')
      else if ascii_dec c "]" then Some ([v], r')
      else None
  end
with parse_members (fuel : nat) (s : string) : option (list (string * json) * string) :=
  match fuel with
  | O => None
  | S f =>
      '(c, r) ← next s;
      if ascii_dec c qt then
        '(k, r1) ← parse_chars r;
        '(c1, r2) ← next r1;
        if ascii_dec c1 ":" then
          '(v, r3) ← parse_value f r2;
          '(c3, r4) ← next r3;
          if ascii_dec c3 "," then '(l, r5) ← parse_members f r4; Some ((k, v) :: l, r5)
          else if ascii_dec c3 "}" then Some ([(k, v)], r4)
          else None
        else None
      else None
  end.

(** [JSON.parse]: one value, surrounded by whitespace only.  The fuel is
    the length of the text, which bounds the nesting depth. *)
Definition parse (s : string) : option json :=
  '(v, r) ← parse_value (S (String.length s)) s;
  if decide (skip_ws r = "") then Some v else None.

Example parse_page0 : parse (stringify (JObj [("page", JNum 0)])) = Some (JObj [("page", JNum 0)]).
Proof. reflexivity. Qed.
Example parse_ws : parse (" [1 , -20,{ " +:+ quote "a\b" +:+ " : null}]") =
  Some (JArr [JNum 1; JNum (-20); JObj [("a\b", JNull)]]).
Proof. vm_compute. reflexivity. Qed.

(** ** Round trip *)

Lemma ascii_nat_inj (c d : ascii) : nat_of_ascii c = nat_of_ascii d -> c = d.
Proof. intros H. by rewrite <- (ascii_nat_embedding c), H, ascii_nat_embedding. Qed.

Lemma ascii_of_nat_of (c : ascii) n : nat_of_ascii c = n -> c = ascii_of_nat n.
Proof. intros <-. by rewrite ascii_nat_embedding. Qed.

Lemma hex_val_digit k : k < 16 -> hex_val (hex_digit k) = Some k.
Proof. intros Hk. do 16 (destruct k as [|k]; [reflexivity|]). lia. Qed.

(** One escaped code unit is read back as that code unit. *)
Lemma parse_chars_escape_char c t :
  parse_chars (escape_char c +:+ t) = '(u, r) ← parse_chars t; Some (String c u, r).
Proof.
  unfold escape_char. remember (nat_of_ascii c) as n eqn:Hn.
  pose proof (nat_ascii_bounded c) as Hb.
  repeat match goal with
  | |- context [Nat.eqb ?m ?k] =>
      let Hk := fresh "Hk" in destruct (Nat.eqb_spec m k) as [Hk|Hk];
      [rewrite Hk in Hn; rewrite (ascii_of_nat_of c _ (eq_sym Hn)); reflexivity|]
  end.
  destruct (Nat.ltb_spec n 32) as [Hlt|Hge].
  - rewrite !sapp_cons. cbn -[hex_digit Nat.div Nat.modulo].
    unfold unicode_escape. cbn -[hex_digit Nat.div Nat.modulo].
    change (hex_val "0") with (Some 0).
    rewrite (hex_val_digit (n / 16)), (hex_val_digit (n mod 16)) by lia.
    cbn [mbind option_bind].
    replace (0 * 4096 + 0 * 256 + n / 16 * 16 + n mod 16) with n by lia.
    destruct (Nat.leb_spec n 255); [| lia].
    by rewrite sapp_nil_l, <- (ascii_of_nat_of c n).
  - rewrite sapp_cons, sapp_nil_l. cbn [parse_chars].
    destruct (ascii_dec c qt) as [->|]; [cbv in Hn; lia|].
    destruct (ascii_dec c bs) as [->|]; [cbv in Hn; lia|].
    destruct (Nat.ltb_spec (nat_of_ascii c) 32); [lia | done].
Qed.

Lemma parse_chars_quote s rest : parse_chars (escape s +:+ String qt rest) = Some (s, rest).
Proof.
  induction s as [|c s IH]; [reflexivity|].
  cbn [escape]. by rewrite sapp_assoc, parse_chars_escape_char, IH.
Qed.

Lemma quote_app s rest : quote s +:+ rest = String qt (escape s +:+ String qt rest).
Proof. unfold quote. by rewrite sapp_cons, sapp_assoc. Qed.

(** What may follow a number: anything but a further digit. *)
Definition digit_free_head (s : string) : Prop :=
  match s with String c _ => digit_ctor c = None | "" => True end.

Lemma read_digits_uint d rest :
  digit_free_head rest -> read_digits (uint_to_string d +:+ rest) = (d, rest).
Proof.
  intros Hr. induction d as [|d IH|d IH|d IH|d IH|d IH|d IH|d IH|d IH|d IH|d IH];
    cbn [uint_to_string]; rewrite ?sapp_cons, ?sapp_nil_l;
    [destruct rest as [|c r]; simpl in *; [done | by rewrite Hr] |..];
    simpl; by rewrite IH.
Qed.

(** [Pos.to_uint] never starts with a zero: JSON's "no leading zero". *)
Lemma pos_to_uint_head p :
  match Pos.to_uint p with Decimal.Nil | Decimal.D0 _ => False | _ => True end.
Proof.
  pose proof (DecimalPos.Unsigned.to_of (Pos.to_uint p)) as H.
  rewrite DecimalPos.Unsigned.of_to in H. cbn [N.to_uint] in H.
  pose proof (DecimalPos.Unsigned.to_uint_nonzero p) as Hz.
  unfold Decimal.unorm in H.
  destruct (Decimal.nzhead (Pos.to_uint p)) eqn:E; rewrite H; try done.
  by apply nzhead_nonzero in E.
Qed.

Lemma parse_number_to_string z rest :
  digit_free_head rest -> parse_number (number_to_string z +:+ rest) = Some (z, rest).
Proof.
  intros Hr. destruct z as [|p|p]; [reflexivity|..]; cbn [number_to_string];
    pose proof (DecimalPos.Unsigned.of_to p) as Ho;
    pose proof (pos_to_uint_head p) as Hh;
    destruct (Pos.to_uint p); try contradiction;
    cbn [number_to_string uint_to_string] in *; rewrite ?sapp_cons in *;
    simpl; match goal with u : Decimal.uint |- _ => rewrite (read_digits_uint u rest Hr) end;
    simpl in *; by injection Ho as ->.
Qed.

(** The fuel [parse_value] needs: one unit per value and per list cell. *)
Fixpoint json_size (v : json) : nat :=
  match v with
  | JArr l => S (list_sum (map (fun x => S (json_size x)) l))
  | JObj l => S (list_sum (map (fun kv => S (json_size kv.2)) l))
  | _ => 1
  end.

Lemma digit_cases c :
  is_digit c = true ->
  c = "0"%char \/ c = "1"%char \/ c = "2"%char \/ c = "3"%char \/ c = "4"%char \/
  c = "5"%char \/ c = "6"%char \/ c = "7"%char \/ c = "8"%char \/ c = "9"%char.
Proof.
  unfold is_digit. rewrite bool_decide_eq_true. intros H.
  rewrite (ascii_of_nat_of c (nat_of_ascii c) eq_refl).
  assert (nat_of_ascii c = 48 \/ nat_of_ascii c = 49 \/ nat_of_ascii c = 50 \/
          nat_of_ascii c = 51 \/ nat_of_ascii c = 52 \/ nat_of_ascii c = 53 \/
          nat_of_ascii c = 54 \/ nat_of_ascii c = 55 \/ nat_of_ascii c = 56 \/
          nat_of_ascii c = 57) as Hc by lia.
  repeat destruct Hc as [-> | Hc]; [auto 10 ..|]. rewrite Hc. auto 10.
Qed.

Lemma number_head z :
  exists c t, number_to_string z = String c t /\ (is_digit c = true \/ c = "-"%char).
Proof.
  destruct z as [|p|p]; [by do 2 eexists; split; [reflexivity | left] | | by do 2 eexists; split; [reflexivity | right]].
  pose proof (pos_to_uint_head p) as Hh. cbn [number_to_string].
  destruct (Pos.to_uint p); try contradiction; (do 2 eexists; split; [reflexivity | by left]).
Qed.

(** A number is read by [parse_number]: its first character is neither
    whitespace, nor the first letter of a literal, nor a bracket. *)
Lemma parse_value_number_head f c t :
  is_digit c = true \/ c = "-"%char ->
  parse_value (S f) (String c t) = '(z, r) ← parse_number (String c t); Some (JNum z, r).
Proof.
  intros [Hc | ->]; [| reflexivity].
  apply digit_cases in Hc. repeat destruct Hc as [-> | Hc]; [reflexivity ..|]. by subst.
Qed.

Lemma stringify_head v :
  exists c t, stringify v = String c t /\ is_ws c = false /\ c <> "]"%char.
Proof.
  destruct v as [| [] | z | s | l | l]; try (do 2 eexists; split; [reflexivity | done]).
  destruct (number_head z) as (c & t & Hz & [Hc | ->]); [| by do 2 eexists].
  exists c, t. split; [done|]. apply digit_cases in Hc.
  repeat destruct Hc as [-> | Hc]; [done ..|]. by subst.
Qed.

Lemma next_stringify v t :
  exists c r, next (stringify v +:+ t) = Some (c, r) /\ c <> "]"%char.
Proof.
  destruct (stringify_head v) as (c & u & -> & Hws & Hc).
  exists c, (u +:+ t). rewrite sapp_cons. unfold next. cbn [skip_ws]. by rewrite Hws.
Qed.

Lemma next_nonws c t : is_ws c = false -> next (String c t) = Some (c, t).
Proof. intros H. unfold next. cbn [skip_ws]. by rewrite H. Qed.

Lemma join_comma_cons x l :
  join_comma (x :: l) = match l with [] => x | _ => x +:+ String "," (join_comma l) end.
Proof. by destruct l. Qed.

(** [v] is read back from its text, whatever follows that cannot extend it. *)
Definition reads_back (v : json) : Prop :=
  forall f rest, json_size v <= f -> digit_free_head rest ->
  parse_value f (stringify v +:+ rest) = Some (v, rest).

Lemma parse_elements_join l f rest :
  Forall reads_back l -> l <> [] ->
  list_sum (map (fun x => S (json_size x)) l) <= f ->
  parse_elements f (join_comma (map stringify l) +:+ String "]" rest) = Some (l, rest).
Proof.
  intros Hl. revert f. induction Hl as [|x l Hx Hl IH]; intros f Hne Hf; [done|].
  destruct f as [|f]; [simpl in Hf; lia|]. simpl in Hf.
  rewrite map_cons, join_comma_cons.
  destruct l as [|y l]; cbn [map list_sum] in *.
  - cbn [parse_elements]. rewrite Hx by (simpl in *; lia || done). reflexivity.
  - rewrite sapp_assoc, sapp_cons. cbn [parse_elements].
    rewrite Hx by (simpl in *; lia || done).
    set (T := join_comma (map stringify (y :: l)) +:+ String "]" rest). simpl.
    subst T. rewrite IH by (done || simpl in *; lia). reflexivity.
Qed.

Definition member (kv : string * json) : string := quote kv.1 +:+ String ":" (stringify kv.2).

Lemma parse_members_join l f rest :
  Forall (fun kv => reads_back kv.2) l -> l <> [] ->
  list_sum (map (fun kv => S (json_size kv.2)) l) <= f ->
  parse_members f (join_comma (map member l) +:+ String "}" rest) = Some (l, rest).
Proof.
  intros Hl. revert f. induction Hl as [|[k v] l Hx Hl IH]; intros f Hne Hf; [done|].
  destruct f as [|f]; [simpl in Hf; lia|]. simpl in Hf.
  rewrite map_cons, join_comma_cons.
  destruct l as [|y l]; cbn [map list_sum] in *; unfold member at 1; cbn [fst snd];
    rewrite ?sapp_assoc, quote_app, ?sapp_cons.
  - simpl. rewrite parse_chars_quote. simpl. by rewrite Hx by (simpl in *; lia || done).
  - set (T := join_comma (map member (y :: l)) +:+ String "}" rest).
    simpl. rewrite parse_chars_quote. simpl. rewrite Hx by (simpl in *; lia || done). simpl.
    subst T. rewrite IH by (done || simpl in *; lia). reflexivity.
Qed.

Lemma join_comma_app_head x l t : exists u, join_comma (x :: l) +:+ t = x +:+ u.
Proof. rewrite join_comma_cons. destruct l; [by exists t | eexists; apply sapp_assoc]. Qed.

Theorem stringify_reads_back v : reads_back v.
Proof.
  induction v as [| b | z | s | l Hl | l Hl] using json_ind';
    intros f rest Hf Hr; (destruct f as [|f]; [simpl in Hf; lia|]).
  - reflexivity.
  - by destruct b.
  - destruct (number_head z) as (c & t & Hz & Hc). cbn [stringify].
    rewrite Hz, sapp_cons, parse_value_number_head by done.
    by rewrite <- sapp_cons, <- Hz, parse_number_to_string.
  - cbn [stringify]. rewrite quote_app. simpl. by rewrite parse_chars_quote.
  - destruct l as [|x l]; [reflexivity|].
    cbn [stringify]. rewrite sapp_cons, sapp_assoc, sapp_cons, sapp_nil_l.
    assert (exists u, join_comma (map stringify (x :: l)) +:+ String "]" rest = stringify x +:+ u)
      as [u Hu] by apply join_comma_app_head.
    destruct (next_stringify x u) as (c & r & Hn & Hc). rewrite <- Hu in Hn.
    set (T := join_comma (map stringify (x :: l)) +:+ String "]" rest) in *.
    simpl. rewrite Hn. simpl. destruct (ascii_dec c "]"); [done|]. subst T.
    rewrite parse_elements_join by (done || (simpl in *; lia)). reflexivity.
  - destruct l as [|[k v] l]; [reflexivity|].
    cbn [stringify]. rewrite sapp_cons, sapp_assoc, sapp_cons, sapp_nil_l.
    change (map (fun kv => quote kv.1 +:+ String ":" (stringify kv.2)) ((k, v) :: l))
      with (map member ((k, v) :: l)).
    assert (exists u, join_comma (map member ((k, v) :: l)) +:+ String "}" rest = member (k, v) +:+ u)
      as [u Hu] by apply join_comma_app_head.
    assert (exists r, next (join_comma (map member ((k, v) :: l)) +:+ String "}" rest) = Some (qt, r))
      as [r Hn].
    { rewrite Hu. unfold member. rewrite sapp_assoc, quote_app. eexists. by apply next_nonws. }
    set (T := join_comma (map member ((k, v) :: l)) +:+ String "}" rest) in *.
    simpl. rewrite Hn. simpl. subst T.
    rewrite parse_members_join by (done || (simpl in *; lia)). reflexivity.
Qed.

Lemma join_comma_length l :
  list_sum (map (fun s => S (String.length s)) l) <= S (String.length (join_comma l)).
Proof.
  induction l as [|x l IH]; [simpl; lia|].
  rewrite join_comma_cons. destruct l as [|y l]; simpl in *; [lia|].
  rewrite slength_app. simpl. lia.
Qed.

(** The fuel [parse] gives is enough: a value has no more nodes than its
    text has characters. *)
Lemma json_size_le_length v : json_size v <= String.length (stringify v).
Proof.
  induction v as [| [] | z | s | l Hl | l Hl] using json_ind'; try (simpl; lia).
  - destruct (number_head z) as (c & t & Hz & _). cbn [stringify json_size]. rewrite Hz. simpl. lia.
  - cbn [stringify json_size String.length]. rewrite slength_app. simpl.
    pose proof (join_comma_length (map stringify l)) as Hj. rewrite map_map in Hj.
    enough (list_sum (map (fun x => S (json_size x)) l) <=
            list_sum (map (fun x => S (String.length (stringify x))) l)) by lia.
    apply list_sum_map_le. eapply Forall_impl; [exact Hl | simpl; lia].
  - cbn [stringify json_size String.length]. rewrite slength_app. simpl.
    pose proof (join_comma_length (map member l)) as Hj. rewrite map_map in Hj.
    enough (list_sum (map (fun kv => S (json_size kv.2)) l) <=
            list_sum (map (fun kv => S (String.length (member kv))) l)) by (unfold member in *; lia).
    apply list_sum_map_le. eapply Forall_impl; [exact Hl | intros [k v] H; simpl in *].
    unfold member. rewrite slength_app. simpl. lia.
Qed.

(** ** Main results *)

(** [JSON.parse(JSON.stringify(v))] gives back [v]. *)
Theorem parse_stringify v : parse (stringify v) = Some v.
Proof.
  unfold parse.
  pose proof (stringify_reads_back v (S (String.length (stringify v))) "") as H.
  rewrite sapp_nil_r in H. rewrite H by (pose proof (json_size_le_length v); done || lia).
  reflexivity.
Qed.

Corollary stringify_inj v w : stringify v = stringify w -> v = w.
Proof. intros H. apply (inj Some). by rewrite <- parse_stringify, H, parse_stringify. Qed.

(** Equality of JSON values is decided on their texts. *)
#[export] Instance json_eq_dec : EqDecision json := fun v w =>
  match decide (stringify v = stringify w) with
  | left H => left (stringify_inj v w H)
  | right H => right (fun E => H (f_equal stringify E))
  end.

(** A serialised value is never the empty string, so it is truthy. *)
Lemma stringify_nonempty v : stringify v <> "".
Proof. destruct (stringify_head v) as (c & t & -> & _). discriminate. Qed.

(** ** Typed views of JSON values

    [fetchWithCache<TData>] returns [JSON.parse(...) as TData] on a hit
    and the backend's [TData] on a miss.  A [Codec T] is the pair of the
    serialisation of a [T] and the cast back, with the law that casting a
    serialised [T] gives it back.  A cast that fails stands for a value of
    the wrong shape, which TypeScript's unchecked cast would let through. *)
Class Codec (T : Type) := {
  to_json : T -> json;
  of_json : json -> option T;
  of_to_json : forall x, of_json (to_json x) = Some x
}.
Arguments to_json {_ _} _.
Arguments of_json {_ _} _.

(** JavaScript property access [o.k] on an object read from JSON. *)
Fixpoint field (k : string) (o : list (string * json)) : option json :=
  match o with
  | [] => None
  | (k', v) :: o' => if decide (k = k') then Some v else field k o'
  end.

Definition as_object (v : json) : option (list (string * json)) :=
  match v with JObj o => Some o | _ => None end.

#[export] Instance codec_Z : Codec Z :=
  {| to_json := JNum; of_json v := match v with JNum z => Some z | _ => None end;
     of_to_json _ := eq_refl |}.

#[export] Instance codec_string : Codec string :=
  {| to_json := JStr; of_json v := match v with JStr s => Some s | _ => None end;
     of_to_json _ := eq_refl |}.

#[export] Instance codec_bool : Codec bool :=
  {| to_json := JBool; of_json v := match v with JBool b => Some b | _ => None end;
     of_to_json _ := eq_refl |}.

(** [number | null] *)
#[export] Instance codec_nullable_Z : Codec (option Z) :=
  {| to_json o := match o with Some z => JNum z | None => JNull end;
     of_json v := match v with JNull => Some None | JNum z => Some (Some z) | _ => None end;
     of_to_json o := match o with Some _ => eq_refl | None => eq_refl end |}.

(** Arrays: the cast of each element. *)
Lemma mapM_of_to_json `{Codec T} (l : list T) : mapM of_json (map to_json l) = Some l.
Proof. induction l as [|x l IH]; [done|]. simpl. by rewrite of_to_json, IH. Qed.

Definition list_of_json `{Codec T} (v : json) : option (list T) :=
  match v with JArr l => mapM of_json l | _ => None end.

#[export] Instance codec_list `{Codec T} : Codec (list T) :=
  {| to_json l := JArr (map to_json l); of_json := list_of_json;
     of_to_json := mapM_of_to_json |}.
