(* ===== verification/Model.v ===== *)
(** * The data exchanged with the backend

    [src/utils/types.ts], [src/utils/constants.ts] and [src/utils/fetch.ts]
    are not part of the sources given; the types below follow the spec
    (sections 3 and 6): employees, transactions (opaque to the core
    beyond identity), the paginated response, the three registered
    endpoints and the request parameters, each with its JSON codec. *)

From stdpp Require Import base list strings.
From Stdlib Require Import ZArith.
From S2P Require Import Prelude Json.

Record Employee := {
  emp_id : string;
  firstName : string;
  lastName : string
}.

(** The core treats a transaction as an opaque record; these are the
    fields the spec names. *)
Record Transaction := {
  txn_id : string;
  amount : Z;
  employee : Employee
}.

(** [PaginatedResponse<T> = { data: T, nextPage: number | null }]. *)
Record PaginatedResponse (A : Type) := {
  data : A;
  nextPage : option Z
}.
Arguments data {A}.
Arguments nextPage {A}.
Arguments Build_PaginatedResponse {A}.

Definition Paginated : Type := PaginatedResponse (list Transaction).

(** The "no filter" entry of the employee select: a reserved id. *)
Definition EMPTY_EMPLOYEE : Employee :=
  {| emp_id := ""; firstName := "All"; lastName := "Employees" |}.

#[export] Instance Employee_eq_dec : EqDecision Employee.
Proof. solve_decision. Defined.

Inductive RegisteredEndpoint :=
| Employees
| PaginatedTransactions
| Transactions.

#[export] Instance RegisteredEndpoint_eq_dec : EqDecision RegisteredEndpoint.
Proof. solve_decision. Defined.

Definition endpoint_name (e : RegisteredEndpoint) : string :=
  match e with
  | Employees => "employees"
  | PaginatedTransactions => "paginatedTransactions"
  | Transactions => "transactions"
  end.

(** A parameter object: its members in insertion order. *)
Definition Params : Type := list (string * json).

(** [PaginatedRequestParams] and [RequestByEmployeeParams]. *)
Definition page_params (page : option Z) : Params := [("page", to_json page)].
Definition employee_params (employeeId : string) : Params := [("employeeId", JStr employeeId)].

(** ** Codecs *)

Definition employee_of_json (v : json) : option Employee :=
  o ← as_object v;
  i ← field "id" o ≫= of_json; f ← field "firstName" o ≫= of_json;
  l ← field "lastName" o ≫= of_json;
  Some {| emp_id := i; firstName := f; lastName := l |}.

#[export] Instance codec_Employee : Codec Employee :=
  {| to_json e := JObj [("id", JStr (emp_id e)); ("firstName", JStr (firstName e));
                        ("lastName", JStr (lastName e))];
     of_json := employee_of_json;
     of_to_json e := match e with Build_Employee _ _ _ => eq_refl end |}.

Definition transaction_of_json (v : json) : option Transaction :=
  o ← as_object v;
  i ← field "id" o ≫= of_json; a ← field "amount" o ≫= of_json;
  e ← field "employee" o ≫= of_json;
  Some {| txn_id := i; amount := a; employee := e |}.

Lemma transaction_of_to_json t :
  transaction_of_json (JObj [("id", JStr (txn_id t)); ("amount", JNum (amount t));
                             ("employee", to_json (employee t))]) = Some t.
Proof. destruct t as [i a [e f l]]. reflexivity. Qed.

#[export] Instance codec_Transaction : Codec Transaction :=
  {| to_json t := JObj [("id", JStr (txn_id t)); ("amount", JNum (amount t));
                        ("employee", to_json (employee t))];
     of_json := transaction_of_json;
     of_to_json := transaction_of_to_json |}.

Definition paginated_of_json `{Codec A} (v : json) : option (PaginatedResponse A) :=
  o ← as_object v;
  d ← field "data" o ≫= of_json; n ← field "nextPage" o ≫= of_json;
  Some {| data := d; nextPage := n |}.

Lemma paginated_of_to_json `{Codec A} (r : PaginatedResponse A) :
  paginated_of_json (JObj [("data", to_json (data r)); ("nextPage", to_json (nextPage r))]) = Some r.
Proof.
  destruct r as [d n]. unfold paginated_of_json. simpl.
  rewrite of_to_json. simpl. by destruct n.
Qed.

#[export] Instance codec_Paginated `{Codec A} : Codec (PaginatedResponse A) :=
  {| to_json r := JObj [("data", to_json (data r)); ("nextPage", to_json (nextPage r))];
     of_json := paginated_of_json;
     of_to_json := paginated_of_to_json |}.

(** ** Fixtures for the concrete runs *)

Definition demo_employee : Employee :=
  {| emp_id := "e1"; firstName := "Ada"; lastName := "Lovelace" |}.

Definition demo_txn (n : Z) : Transaction :=
  {| txn_id := "t"; amount := n; employee := demo_employee |}.
