(* ===== verification/Cache.v ===== *)
(** * RequestCache: the cache of [src/src/hooks/useCustomFetch.ts]

    The cache is a [Map<string, string>] held in a ref of the React
    context ([cache?.current]); it may be absent, which the code guards
    with [?.] and [=== undefined].  Here a store is anything with the
    operations of a [Map] and their laws ([KVStore], [KVStoreLaws]), the
    ref is an [option] of a store.  Two stores implement the interface:
    [gmap string string], and [JsMap], an insertion-ordered association
    list that behaves as a JavaScript [Map] ([set] keeps a present key in
    place, [keys()] in insertion order).  [getCacheKey], [clearCache] and
    [clearCacheByEndpoint] are translated from the source; [cache_equiv]
    (same entries) is a setoid that every operation respects. *)

From stdpp Require Import base list strings gmap.
From Stdlib Require Import Ascii.
From S2P Require Import Prelude Json Model.

(** ** The store interface *)

Class KVStore (M : Type) := {
  kv_empty : M;
  kv_get : string -> M -> option string;
  kv_set : string -> string -> M -> M;
  kv_delete : string -> M -> M;
  kv_keys : M -> list string
}.

Class KVStoreLaws (M : Type) `{KVStore M} := {
  kv_get_empty k : kv_get k kv_empty = None;
  kv_get_set_eq k v m : kv_get k (kv_set k v m) = Some v;
  kv_get_set_ne k k' v m : k <> k' -> kv_get k' (kv_set k v m) = kv_get k' m;
  kv_get_delete_eq k m : kv_get k (kv_delete k m) = None;
  kv_get_delete_ne k k' m : k <> k' -> kv_get k' (kv_delete k m) = kv_get k' m;
  kv_keys_spec k m : k ∈ kv_keys m <-> is_Some (kv_get k m)
}.

#[export] Instance gmap_KVStore : KVStore (gmap string string) := {|
  kv_empty := ∅;
  kv_get k m := m !! k;
  kv_set k v m := <[k := v]> m;
  kv_delete k m := delete k m;
  kv_keys m := (map_to_list m).*1
|}.

#[export] Instance gmap_KVStoreLaws : KVStoreLaws (gmap string string).
Proof.
  split; intros; simpl.
  - apply lookup_empty.
  - apply lookup_insert_eq.
  - by apply lookup_insert_ne.
  - apply lookup_delete_eq.
  - by apply lookup_delete_ne.
  - rewrite list_elem_of_fmap. split.
    + intros [[k' v] [-> Hin%elem_of_map_to_list]]. by exists v.
    + intros [v Hv]. exists (k, v). split; [done|]. by apply elem_of_map_to_list.
Qed.

(** A JavaScript [Map] itself: entries in insertion order; [set] on a
    present key keeps its position, [keys()] follows that order. *)
Definition JsMap : Type := list (string * string).

Fixpoint jm_get (k : string) (m : JsMap) : option string :=
  match m with
  | [] => None
  | (k', v) :: m' => if decide (k = k') then Some v else jm_get k m'
  end.

(** [set] on a present key: the value changes in place. *)
Definition jm_update (k v : string) (m : JsMap) : JsMap :=
  (fun kv => if decide (kv.1 = k) then (k, v) else kv) <$> m.

Definition jm_set (k v : string) (m : JsMap) : JsMap :=
  if decide (k ∈ m.*1) then jm_update k v m else m ++ [(k, v)].

Fixpoint jm_delete (k : string) (m : JsMap) : JsMap :=
  match m with
  | [] => []
  | (k', v) :: m' => if decide (k' = k) then jm_delete k m' else (k', v) :: jm_delete k m'
  end.

#[export] Instance JsMap_KVStore : KVStore JsMap := {|
  kv_empty := [];
  kv_get := jm_get;
  kv_set := jm_set;
  kv_delete := jm_delete;
  kv_keys m := m.*1
|}.

Lemma jm_get_app k m m' : jm_get k (m ++ m') = match jm_get k m with Some v => Some v | None => jm_get k m' end.
Proof. induction m as [|[k' v] m IH]; simpl; [done|]. by case_decide. Qed.

Lemma jm_get_Some k m : is_Some (jm_get k m) <-> k ∈ m.*1.
Proof.
  induction m as [|[k' v] m IH]; simpl; [split; [by intros []|set_solver]|].
  case_decide; [subst; split; [set_solver | by eexists]|]. rewrite IH. set_solver.
Qed.

Lemma jm_update_ne k k' v m : k <> k' -> jm_get k' (jm_update k v m) = jm_get k' m.
Proof.
  intros Hne. induction m as [|[k'' v''] m IH]; [done|]. simpl.
  destruct (decide (k'' = k)) as [->|Hk]; simpl.
  - rewrite !decide_False by congruence. exact IH.
  - destruct (decide (k' = k'')); [done | exact IH].
Qed.

Lemma jm_update_eq k v m : k ∈ m.*1 -> jm_get k (jm_update k v m) = Some v.
Proof.
  induction m as [|[k'' v''] m IH]; simpl; [set_solver|]. intros Hin.
  destruct (decide (k'' = k)) as [->|Hk]; simpl; [by rewrite decide_True|].
  rewrite decide_False by congruence. apply IH. set_solver.
Qed.

Lemma jm_get_set_ne k k' v m : k <> k' -> jm_get k' (jm_set k v m) = jm_get k' m.
Proof.
  intros Hne. unfold jm_set. case_decide; [by apply jm_update_ne|].
  rewrite jm_get_app. destruct (jm_get k' m); [done|]. simpl. by rewrite decide_False.
Qed.

#[export] Instance JsMap_KVStoreLaws : KVStoreLaws JsMap.
Proof.
  split; simpl.
  - done.
  - intros k v m. unfold jm_set. case_decide as Hin; [by apply jm_update_eq|].
    rewrite jm_get_app. destruct (jm_get k m) eqn:E.
    + exfalso. apply Hin, jm_get_Some. by rewrite E.
    + simpl. by rewrite decide_True.
  - apply jm_get_set_ne.
  - intros k m. induction m as [|[k' v] m IH]; [done|]. simpl.
    case_decide as Hk; [exact IH|]. simpl. rewrite decide_False by congruence. exact IH.
  - intros k k' m Hne. induction m as [|[k'' v] m IH]; [done|]. simpl.
    case_decide as Hk; simpl.
    + subst. rewrite decide_False by congruence. exact IH.
    + destruct (decide (k' = k'')); [done | exact IH].
  - intros k m. by rewrite jm_get_Some.
Qed.

Section RequestCache.
Context `{KVStoreLaws M}.

(** [cache?.current.get(key)] *)
Definition cache_get (key : string) (cache : option M) : option string :=
  cache ≫= kv_get key.

(** [cache?.current.set(key, value)] *)
Definition cache_set (key value : string) (cache : option M) : option M :=
  kv_set key value <$> cache.

(** [getCacheKey]: the endpoint, then [@] and the serialised parameter
    object when there is one (an object is always truthy). *)
Definition getCacheKey (endpoint : RegisteredEndpoint) (params : option Params) : string :=
  endpoint_name endpoint +:+
    match params with Some p => String "@"%char (stringify (JObj p)) | None => "" end.

(** [clearCache]: a fresh [Map] replaces the current one. *)
Definition clearCache (cache : option M) : option M :=
  match cache with
  | None => None
  | Some _ => Some kv_empty
  end.

(** [endpointsToClear.some((endpoint) => key.startsWith(endpoint))] *)
Definition key_matches (endpointsToClear : list RegisteredEndpoint) (key : string) : bool :=
  existsb (fun e => String.prefix (endpoint_name e) key) endpointsToClear.

(** One iteration of the loop over the snapshot of the keys. *)
Definition clear_key (endpointsToClear : list RegisteredEndpoint) (m : M) (key : string) : M :=
  if key_matches endpointsToClear key then kv_delete key m else m.

(** [clearCacheByEndpoint]: the keys are copied ([Array.from]) before
    the loop deletes from the map. *)
Definition clearCacheByEndpoint (endpointsToClear : list RegisteredEndpoint)
    (cache : option M) : option M :=
  match cache with
  | None => None
  | Some m => Some (fold_left (clear_key endpointsToClear) (kv_keys m) m)
  end.
End RequestCache.

Section RequestCacheLemmas.
Context `{KVStoreLaws M}.

Lemma cache_get_set_eq k v (c : option M) :
  is_Some c -> cache_get k (cache_set k v c) = Some v.
Proof. intros [m ->]. apply kv_get_set_eq. Qed.

Lemma cache_get_set_ne k k' v (c : option M) :
  k <> k' -> cache_get k' (cache_set k v c) = cache_get k' c.
Proof. intros Hne. destruct c; [by apply kv_get_set_ne | done]. Qed.

Lemma fold_clear_key_get eps (ks : list string) (m : M) k :
  kv_get k (fold_left (clear_key eps) ks m) =
  if bool_decide (k ∈ ks) && key_matches eps k then None else kv_get k m.
Proof.
  revert m. induction ks as [|k' ks IH]; intros m; [done|]. simpl. rewrite IH.
  unfold clear_key. destruct (decide (k = k')) as [<-|Hne].
  - rewrite (bool_decide_true (k ∈ k :: ks)) by set_solver.
    destruct (key_matches eps k), (bool_decide (k ∈ ks)); simpl; rewrite ?kv_get_delete_eq; done.
  - assert (bool_decide (k ∈ k' :: ks) = bool_decide (k ∈ ks)) as ->.
    { apply bool_decide_ext. set_solver. }
    destruct (key_matches eps k'); [| done].
    by rewrite kv_get_delete_ne by congruence.
Qed.

(** The name of an endpoint starts exactly the keys of that endpoint:
    no registered name is a prefix of another. *)
Lemma prefix_endpoint_key e e' p :
  String.prefix (endpoint_name e) (getCacheKey e' p) = bool_decide (e = e').
Proof. destruct e, e', p; reflexivity. Qed.

Lemma key_matches_cache_key eps e p :
  key_matches eps (getCacheKey e p) = bool_decide (e ∈ eps).
Proof.
  unfold key_matches. induction eps as [|e' eps IH]; [done|]. simpl.
  rewrite prefix_endpoint_key, IH, <- bool_decide_or. apply bool_decide_ext. set_solver.
Qed.

(** The loop over the map's own keys: every key of the map is visited. *)
Lemma fold_clear_keys_get eps (m : M) k :
  kv_get k (fold_left (clear_key eps) (kv_keys m) m) =
  if key_matches eps k then None else kv_get k m.
Proof.
  rewrite fold_clear_key_get.
  destruct (key_matches eps k); [| by rewrite andb_false_r].
  case_bool_decide as Hin; [done|]. simpl.
  destruct (kv_get k m) eqn:E; [| done]. exfalso. apply Hin, kv_keys_spec. by eexists.
Qed.

Lemma getCacheKey_endpoint_inj e1 e2 p1 p2 :
  getCacheKey e1 p1 = getCacheKey e2 p2 -> e1 = e2.
Proof.
  intros Hk. pose proof (prefix_endpoint_key e1 e2 p2) as Hp.
  rewrite <- Hk, prefix_endpoint_key, (bool_decide_true (e1 = e1)) in Hp by done.
  symmetry in Hp. by apply bool_decide_eq_true in Hp.
Qed.

Lemma getCacheKey_params_inj e p1 p2 :
  getCacheKey e p1 = getCacheKey e p2 -> p1 = p2.
Proof.
  intros Hk. apply sapp_inv_l in Hk.
  destruct p1 as [p1|], p2 as [p2|]; try discriminate; [| done].
  pose proof (f_equal (fun s => match s with String _ t => t | "" => "" end) Hk) as Hs.
  cbv beta iota in Hs. apply stringify_inj in Hs. congruence.
Qed.

Lemma getCacheKey_ne e e' p p' :
  (e, p) <> (e', p') -> getCacheKey e p <> getCacheKey e' p'.
Proof.
  intros Hne Hk. apply Hne.
  pose proof (getCacheKey_endpoint_inj _ _ _ _ Hk) as <-.
  by rewrite (getCacheKey_params_inj _ _ _ Hk).
Qed.
End RequestCacheLemmas.

(** ** Caches with the same contents

    A JavaScript [Map] iterates its keys in insertion order; the store
    interface leaves the order of [kv_keys] open.  Two caches are
    equivalent when they are both absent or hold the same entries; the
    operations of the code respect this equivalence, so what they do
    depends on the entries only. *)

Section CacheEquiv.
Context `{KVStoreLaws M}.

Definition cache_equiv (c c' : option M) : Prop :=
  match c, c' with
  | Some m, Some m' => forall k, kv_get k m = kv_get k m'
  | None, None => True
  | _, _ => False
  end.

#[export] Instance cache_equiv_equivalence : Equivalence cache_equiv.
Proof.
  split.
  - intros [m|]; simpl; done.
  - intros [m|] [m'|]; simpl; try done; intros Hm k; by rewrite Hm.
  - intros [m|] [m'|] [m''|]; simpl; try done; intros H1 H2 k; by rewrite H1, H2.
Qed.

#[export] Instance cache_get_proper k : Proper (cache_equiv ==> eq) (cache_get k).
Proof. intros [m|] [m'|] Hc; simpl in *; done. Qed.

#[export] Instance cache_set_proper k v : Proper (cache_equiv ==> cache_equiv) (cache_set k v).
Proof.
  intros [m|] [m'|] Hc; simpl in *; try done; intros k'.
  destruct (decide (k = k')) as [<-|Hne]; [by rewrite !kv_get_set_eq | by rewrite !kv_get_set_ne].
Qed.

#[export] Instance clearCache_proper : Proper (cache_equiv ==> cache_equiv) clearCache.
Proof. intros [m|] [m'|] Hc; simpl in *; done. Qed.

#[export] Instance clearCacheByEndpoint_proper eps :
  Proper (cache_equiv ==> cache_equiv) (clearCacheByEndpoint eps).
Proof.
  intros [m|] [m'|] Hc; simpl in *; try done; intros k.
  by rewrite !fold_clear_keys_get, Hc.
Qed.
End CacheEquiv.

Section RequestCacheProperties.
Context `{KVStoreLaws M}.

(** C10: [clearCacheByEndpoint] deletes exactly the entries whose key
    starts with the name of one of the given endpoints, and keeps every
    other entry unchanged. *)
Theorem clearCacheByEndpoint_get eps (m : M) k :
  cache_get k (clearCacheByEndpoint eps (Some m)) =
  if key_matches eps k then None else kv_get k m.
Proof. apply fold_clear_keys_get. Qed.

(** C11: on the keys the program builds, clearing by endpoint removes the
    entries of the listed endpoints and no other. *)
Corollary clearCacheByEndpoint_cache_key eps (m : M) e p :
  cache_get (getCacheKey e p) (clearCacheByEndpoint eps (Some m)) =
  if bool_decide (e ∈ eps) then None else kv_get (getCacheKey e p) m.
Proof. simpl. by rewrite fold_clear_keys_get, key_matches_cache_key. Qed.

(** C9: two requests share a cache key only when they have the same
    endpoint and the same parameter object. *)
Theorem getCacheKey_inj e1 e2 p1 p2 :
  getCacheKey e1 p1 = getCacheKey e2 p2 -> e1 = e2 /\ p1 = p2.
Proof.
  intros Hk. pose proof (getCacheKey_endpoint_inj _ _ _ _ Hk) as <-.
  split; [done | by apply (getCacheKey_params_inj e1)].
Qed.

End RequestCacheProperties.

(** The key of the first page of transactions (spec, section 8):
    [paginatedTransactions@{"page":0}]. *)
Example getCacheKey_page0 :
  getCacheKey PaginatedTransactions (Some (page_params (Some 0%Z))) =
  "paginatedTransactions@{" +:+ quote "page" +:+ ":0}".
Proof. reflexivity. Qed.

Lemma getCacheKey_inj_witness :
  getCacheKey Transactions (Some (employee_params "e1")) =
    getCacheKey Transactions (Some (employee_params "e1")) /\
  Transactions = Transactions /\ Some (employee_params "e1") = Some (employee_params "e1").
Proof. split; [reflexivity | apply (getCacheKey_inj _ _ _ _ eq_refl)]. Defined.

(** A cache holding page 0 and the transactions of [e1]. *)
Definition demo_cache : gmap string string :=
  <[getCacheKey PaginatedTransactions (Some (page_params (Some 0%Z))) := "p0"]>
    (<[getCacheKey Transactions (Some (employee_params "e1")) := "t1"]> ∅).

Lemma clearCacheByEndpoint_get_witness :
  cache_get (getCacheKey PaginatedTransactions (Some (page_params (Some 0%Z))))
    (clearCacheByEndpoint [PaginatedTransactions] (Some demo_cache)) = None.
Proof.
  rewrite (clearCacheByEndpoint_get [PaginatedTransactions] demo_cache). reflexivity.
Defined.

Lemma clearCacheByEndpoint_cache_key_witness :
  cache_get (getCacheKey Transactions (Some (employee_params "e1")))
    (clearCacheByEndpoint [PaginatedTransactions] (Some demo_cache)) = Some "t1".
Proof.
  rewrite (clearCacheByEndpoint_cache_key [PaginatedTransactions] demo_cache). reflexivity.
Defined.
