(* ===== verification/Fetcher.v ===== *)
(** * CachedFetcher and RequestExecutor

    [fetchWithCache], [fetchWithoutCache], [clearCache] and
    [clearCacheByEndpoint] of [src/src/hooks/useCustomFetch.ts], over the
    request executor [useWrappedRequest] (not among the sources: modelled
    from the spec, section 4.2, as the hook the repository ships: loading
    set before the request, reset in [finally], errors caught and turned
    into [null]).

    A fetch runs on a [FetchState]: the cache ref shared through the
    context, the log of network calls made so far, and the loading flag of
    the calling hook's executor.  The backend [fakeFetch] at one endpoint
    is a function [fake] from the parameters to the response, [None]
    when the promise rejects. *)

From stdpp Require Import base list strings gmap.
From S2P Require Import Prelude Json Model Cache.

(** A network request: endpoint and parameter object. *)
Definition Call : Type := RegisteredEndpoint * option Params.

Record FetchState (M : Type) := mkFetchState {
  fs_cache : option M;
  fs_log : list Call;
  fs_loading : bool
}.
Arguments mkFetchState {M}.
Arguments fs_cache {M}.
Arguments fs_log {M}.
Arguments fs_loading {M}.

Definition set_loading {M} (b : bool) (fs : FetchState M) : FetchState M :=
  mkFetchState (fs_cache fs) (fs_log fs) b.
Definition set_cache {M} (c : option M) (fs : FetchState M) : FetchState M :=
  mkFetchState c (fs_log fs) (fs_loading fs).
Definition log_call {M} (c : Call) (fs : FetchState M) : FetchState M :=
  mkFetchState (fs_cache fs) (fs_log fs ++ [c]) (fs_loading fs).

Local Open Scope hook_scope.

Section Fetcher.
Context `{KVStoreLaws M}.

(** [useWrappedRequest]: [setLoading(true)], await the operation,
    [return null] from [catch], [setLoading(false)] in [finally]. *)
Definition wrappedRequest {A} (op : St (FetchState M) (option A)) : St (FetchState M) (option A) :=
  st_modify (set_loading true) ;;;
  r <- op ;;
  st_modify (set_loading false) ;;;
  st_ret r.

(** [await fakeFetch<TData>(endpoint, params)]. *)
Definition fakeFetch {T} (fake : option Params -> option T) (endpoint : RegisteredEndpoint)
    (params : option Params) : St (FetchState M) (option T) :=
  fun fs => (fake params, log_call (endpoint, params) fs).

Definition cache_lookup (key : string) : St (FetchState M) (option string) :=
  fun fs => (cache_get key (fs_cache fs), fs).

Definition cache_store (key value : string) : St (FetchState M) unit :=
  st_modify (fun fs => set_cache (cache_set key value (fs_cache fs)) fs).

Context `{Codec T} (fake : option Params -> option T).

(** The miss path: fetch, then [cache?.current.set(cacheKey,
    JSON.stringify(result))]; a rejected fetch skips the write. *)
Definition fetch_and_store (endpoint : RegisteredEndpoint) (params : option Params)
    (key : string) : St (FetchState M) (option T) :=
  r <- fakeFetch fake endpoint params ;;
  match r with
  | None => st_ret None
  | Some x => cache_store key (stringify (to_json x)) ;;; st_ret (Some x)
  end.

(** [fetchWithCache]: a truthy (non-empty) cached string is parsed and
    returned; anything else goes to the network.  A parse error throws
    and is caught by the executor. *)
Definition fetchWithCache (endpoint : RegisteredEndpoint) (params : option Params) :
    St (FetchState M) (option T) :=
  wrappedRequest (
    let key := getCacheKey endpoint params in
    cached <- cache_lookup key ;;
    match cached with
    | Some s => if decide (s = "") then fetch_and_store endpoint params key
                else st_ret (parse s ≫= of_json)
    | None => fetch_and_store endpoint params key
    end).

Definition fetchWithoutCache (endpoint : RegisteredEndpoint) (params : option Params) :
    St (FetchState M) (option T) :=
  wrappedRequest (fakeFetch fake endpoint params).
End Fetcher.

Section Admin.
Context `{KVStoreLaws M}.

Definition fetcher_clearCache : St (FetchState M) unit :=
  st_modify (fun fs => set_cache (clearCache (fs_cache fs)) fs).

Definition fetcher_clearCacheByEndpoint (eps : list RegisteredEndpoint) : St (FetchState M) unit :=
  st_modify (fun fs => set_cache (clearCacheByEndpoint eps (fs_cache fs)) fs).
End Admin.

(** What [useCustomFetch] returns: its four operations and the flag of
    its executor.  The backend [fakeFetch] is a parameter of the two
    fetches, as everywhere in the model. *)
Record CustomFetchResult (M : Type) := {
  cf_fetchWithCache : forall (T : Type) `{Codec T},
    (option Params -> option T) -> RegisteredEndpoint -> option Params -> St (FetchState M) (option T);
  cf_fetchWithoutCache : forall (T : Type),
    (option Params -> option T) -> RegisteredEndpoint -> option Params -> St (FetchState M) (option T);
  cf_clearCache : St (FetchState M) unit;
  cf_clearCacheByEndpoint : list RegisteredEndpoint -> St (FetchState M) unit;
  cf_loading : bool
}.
Arguments cf_fetchWithCache {M}. Arguments cf_fetchWithoutCache {M}.
Arguments cf_clearCache {M}. Arguments cf_clearCacheByEndpoint {M}. Arguments cf_loading {M}.

(** [useCustomFetch()] in a render whose fetcher state is [fs].  The
    cache of the context ([useContext(AppContext)]) is a ref: the
    operations read and write it when they run, so they act on the state
    they are run on; [loading] is the value of the render. *)
Definition useCustomFetch `{KVStoreLaws M} (fs : FetchState M) : CustomFetchResult M := {|
  cf_fetchWithCache T _ fake := fetchWithCache fake;
  cf_fetchWithoutCache T fake := fetchWithoutCache fake;
  cf_clearCache := fetcher_clearCache;
  cf_clearCacheByEndpoint := fetcher_clearCacheByEndpoint;
  cf_loading := fs_loading fs
|}.

Section FetcherLemmas.
Context `{KVStoreLaws M} `{Codec T}.
Implicit Types (fs : FetchState M) (fake : option Params -> option T).

Lemma set_loading_idem b b' fs : set_loading b (set_loading b' fs) = set_loading b fs.
Proof. by destruct fs. Qed.

(** The executor resets the loading flag whatever the operation did,
    and returns what the operation returned. *)
Lemma wrappedRequest_run {A} (op : St (FetchState M) (option A)) fs :
  wrappedRequest op fs = ((op (set_loading true fs)).1, set_loading false (op (set_loading true fs)).2).
Proof. unfold wrappedRequest. st_unfold. by destruct (op (set_loading true fs)). Qed.

Lemma wrappedRequest_loading {A} (op : St (FetchState M) (option A)) fs :
  fs_loading (wrappedRequest op fs).2 = false.
Proof. by rewrite wrappedRequest_run. Qed.

(** A miss: one network call, logged; the answer is stored only when the
    call succeeded. *)
Lemma fetchWithCache_miss fake e p fs :
  (forall s, cache_get (getCacheKey e p) (fs_cache fs) = Some s -> s = "") ->
  fetchWithCache fake e p fs =
    (fake p, mkFetchState
               (match fake p with
                | Some x => cache_set (getCacheKey e p) (stringify (to_json x)) (fs_cache fs)
                | None => fs_cache fs
                end)
               (fs_log fs ++ [(e, p)]) false).
Proof.
  intros Hc. unfold fetchWithCache. rewrite wrappedRequest_run.
  unfold cache_lookup, fetch_and_store, fakeFetch, cache_store. st_unfold.
  destruct (cache_get (getCacheKey e p) (fs_cache fs)) as [s|] eqn:E.
  - rewrite (Hc s eq_refl). simpl. destruct (fake p); reflexivity.
  - destruct (fake p); reflexivity.
Qed.

(** A hit: the cached text is parsed and cast; no network call. *)
Lemma fetchWithCache_hit_text fake e p fs s :
  cache_get (getCacheKey e p) (fs_cache fs) = Some s -> s <> "" ->
  fetchWithCache fake e p fs = (parse s ≫= of_json, set_loading false fs).
Proof.
  intros Hc Hs. unfold fetchWithCache. rewrite wrappedRequest_run.
  unfold cache_lookup. st_unfold. rewrite Hc, decide_False by done. simpl.
  by rewrite set_loading_idem.
Qed.

(** A hit on a value the fetcher stored: no network call, the value
    comes back as it was. *)
Lemma fetchWithCache_hit fake e p fs (x : T) :
  cache_get (getCacheKey e p) (fs_cache fs) = Some (stringify (to_json x)) ->
  fetchWithCache fake e p fs = (Some x, set_loading false fs).
Proof.
  intros Hc. rewrite (fetchWithCache_hit_text _ _ _ _ _ Hc) by apply stringify_nonempty.
  rewrite parse_stringify. simpl. by rewrite of_to_json.
Qed.

Lemma fetchWithoutCache_run fake e p fs :
  fetchWithoutCache fake e p fs = (fake p, set_loading false (log_call (e, p) fs)).
Proof. reflexivity. Qed.
End FetcherLemmas.

(** A fetch appends to the log its own call, or nothing. *)
Lemma fetchWithCache_log `{KVStoreLaws M} `{Codec T} (fake : option Params -> option T) e p
    (fs : FetchState M) :
  fs_log (fetchWithCache fake e p fs).2 = fs_log fs \/
  fs_log (fetchWithCache fake e p fs).2 = fs_log fs ++ [(e, p)].
Proof.
  destruct (cache_get (getCacheKey e p) (fs_cache fs)) as [s|] eqn:E;
    [destruct (decide (s = "")) as [->|Hs]|].
  1,3: rewrite fetchWithCache_miss by (intros ? Hs; rewrite E in Hs; congruence); by right.
  rewrite (fetchWithCache_hit_text _ _ _ _ _ E Hs). by left.
Qed.

Section FetcherProperties.
Context `{KVStoreLaws M} `{Codec T}.
Implicit Types (fs : FetchState M) (fake : option Params -> option T).

(** C8: once [fetchWithCache] has answered a request with a value while
    the cache is present, the same request is answered with the same
    value and leaves the state unchanged: no network call, whatever the
    backend would answer now. *)
Theorem fetchWithCache_idempotent fake fake' e p fs fs1 (v : T) :
  is_Some (fs_cache fs) ->
  fetchWithCache fake e p fs = (Some v, fs1) ->
  fetchWithCache fake' e p fs1 = (Some v, fs1).
Proof.
  intros Hc Hrun.
  destruct (cache_get (getCacheKey e p) (fs_cache fs)) as [s|] eqn:E;
    [destruct (decide (s = "")) as [->|Hs]|].
  1,3: rewrite fetchWithCache_miss in Hrun by (intros ? Hs; rewrite E in Hs; congruence);
    injection Hrun as Hv <-; rewrite Hv;
    apply fetchWithCache_hit; simpl; by apply cache_get_set_eq.
  rewrite (fetchWithCache_hit_text _ _ _ _ _ E Hs) in Hrun. injection Hrun as Hv <-.
  rewrite (fetchWithCache_hit_text _ _ _ (set_loading false fs) _ E Hs), Hv.
  by rewrite set_loading_idem.
Qed.

(** C12: the error path of the spec (section 7): a rejected request
    returns [null], leaves the cache as it was and caches nothing for
    its key, so the same request later goes to the network again and
    answers what the backend answers then. *)
Theorem fetchWithCache_failure_retries fake fake' e p fs :
  fake p = None ->
  (forall s, cache_get (getCacheKey e p) (fs_cache fs) = Some s -> s = "") ->
  (fetchWithCache fake e p fs).1 = None /\
  fs_cache (fetchWithCache fake e p fs).2 = fs_cache fs /\
  (fetchWithCache fake' e p (fetchWithCache fake e p fs).2).1 = fake' p /\
  fs_log (fetchWithCache fake' e p (fetchWithCache fake e p fs).2).2 =
    fs_log fs ++ [(e, p); (e, p)].
Proof.
  intros Hf Hc. rewrite (fetchWithCache_miss fake) by exact Hc. rewrite Hf. cbn [fst snd fs_cache].
  rewrite fetchWithCache_miss by exact Hc. cbn. by rewrite <- app_assoc.
Qed.

(** C14: without a cache in the context, [fetchWithCache] is
    [fetchWithoutCache]. *)
Theorem fetchWithCache_no_cache fake e p fs :
  fs_cache fs = None -> fetchWithCache fake e p fs = fetchWithoutCache fake e p fs.
Proof.
  intros Hc. rewrite fetchWithCache_miss by (rewrite Hc; discriminate).
  rewrite fetchWithoutCache_run. destruct fs; simpl in *; subst. by destruct (fake p).
Qed.

(** C24: a cache entry is never overwritten: whatever request
    [fetchWithCache] serves, every non-empty entry of the cache is still
    there, unchanged, afterwards (a hit short-circuits the network and a
    miss writes only under its own, absent, key). *)
Theorem fetchWithCache_no_overwrite fake e p fs k s :
  cache_get k (fs_cache fs) = Some s -> s <> "" ->
  cache_get k (fs_cache (fetchWithCache fake e p fs).2) = Some s.
Proof.
  intros Hk Hs. destruct (cache_get (getCacheKey e p) (fs_cache fs)) as [s'|] eqn:E;
    [destruct (decide (s' = "")) as [->|Hs']|].
  1,3: rewrite fetchWithCache_miss by (intros ? Hx; rewrite E in Hx; congruence); simpl;
    destruct (fake p); [| done]; rewrite cache_get_set_ne; [done | intros Heq; subst k; congruence].
  by rewrite (fetchWithCache_hit_text _ _ _ _ _ E Hs').
Qed.

End FetcherProperties.

(** ** Refinement: the string cache is a memo table of JSON values

    The abstract fetcher keeps the answers themselves, as JSON values,
    in a finite map keyed by [getCacheKey]; it has no serialisation and
    no loading flag.  [fetchWithCache] implements it: related states give
    the same answer and related states. *)

Record AbsFetchState := mkAbsFetchState {
  afs_cache : option (gmap string json);
  afs_log : list Call
}.

Definition abs_fetchWithCache `{Codec T} (fake : option Params -> option T)
    (e : RegisteredEndpoint) (p : option Params) (a : AbsFetchState) : option T * AbsFetchState :=
  let key := getCacheKey e p in
  match afs_cache a ≫= lookup key with
  | Some v => (of_json v, a)
  | None =>
      (fake p, mkAbsFetchState
                 (match fake p with
                  | Some x => insert key (to_json x) <$> afs_cache a
                  | None => afs_cache a
                  end)
                 (afs_log a ++ [(e, p)]))
  end.

Section Refinement.
Context `{KVStoreLaws M} `{Codec T}.

(** Each stored text is the serialisation of the abstract value. *)
Definition cache_rel (c : option M) (ac : option (gmap string json)) : Prop :=
  match c, ac with
  | Some m, Some am => forall k, kv_get k m = stringify <$> am !! k
  | None, None => True
  | _, _ => False
  end.

Definition fetch_rel (fs : FetchState M) (a : AbsFetchState) : Prop :=
  cache_rel (fs_cache fs) (afs_cache a) /\ fs_log fs = afs_log a.

Lemma cache_rel_get c ac k :
  cache_rel c ac -> cache_get k c = stringify <$> (ac ≫= lookup k).
Proof. destruct c, ac; simpl; done. Qed.

Lemma cache_rel_set c ac k (v : json) :
  cache_rel c ac -> cache_rel (cache_set k (stringify v) c) (insert k v <$> ac).
Proof.
  destruct c as [m|], ac as [am|]; simpl; try done. intros Hr k'.
  destruct (decide (k = k')) as [<-|Hne].
  - by rewrite kv_get_set_eq, lookup_insert_eq.
  - by rewrite kv_get_set_ne, lookup_insert_ne.
Qed.

(** C7: [fetchWithCache] refines the abstract memo table. *)
Theorem fetchWithCache_refines (fake : option Params -> option T) e p fs a :
  fetch_rel fs a ->
  (fetchWithCache fake e p fs).1 = (abs_fetchWithCache fake e p a).1 /\
  fetch_rel (fetchWithCache fake e p fs).2 (abs_fetchWithCache fake e p a).2.
Proof.
  intros [Hc Hl]. unfold abs_fetchWithCache.
  pose proof (cache_rel_get _ _ (getCacheKey e p) Hc) as Hg.
  destruct (afs_cache a ≫= lookup (getCacheKey e p)) as [v|] eqn:E.
  - rewrite (fetchWithCache_hit_text _ _ _ _ (stringify v) Hg) by apply stringify_nonempty.
    rewrite parse_stringify. done.
  - rewrite fetchWithCache_miss by (rewrite Hg; discriminate).
    split; [done|]. split; [| simpl; by rewrite Hl].
    simpl. destruct (fake p); [by apply cache_rel_set | done].
Qed.
End Refinement.

(** ** A cache that agrees with the backend

    The cache entries of an endpoint are consistent with a backend when
    each one is the serialisation of the backend's answer to its
    parameters.  Against a deterministic backend, [fetchWithCache] then
    answers exactly what the backend answers, cached or not, and keeps
    the cache consistent, for its endpoint and for every other one. *)

Section Consistency.
Context `{KVStoreLaws M}.

Definition consistent_cache `{Codec T} (fake : option Params -> option T)
    (e : RegisteredEndpoint) (c : option M) : Prop :=
  forall p s, cache_get (getCacheKey e p) c = Some s ->
  exists x, fake p = Some x /\ s = stringify (to_json x).

Lemma consistent_cache_set_other `{Codec U} (fake' : option Params -> option U) e e' p v c :
  e <> e' -> consistent_cache fake' e' c ->
  consistent_cache fake' e' (cache_set (getCacheKey e p) v c).
Proof.
  intros Hne Hc p' s Hs. rewrite cache_get_set_ne in Hs; [by apply Hc|].
  apply getCacheKey_ne. naive_solver.
Qed.

Context `{Codec T} (fake : option Params -> option T).

Lemma consistent_cache_set e p (x : T) c :
  fake p = Some x -> consistent_cache fake e c ->
  consistent_cache fake e (cache_set (getCacheKey e p) (stringify (to_json x)) c).
Proof.
  intros Hx Hc p' s Hs. destruct (decide (p = p')) as [<-|Hne].
  - destruct c as [m|]; [| done]. simpl in Hs. rewrite kv_get_set_eq in Hs.
    injection Hs as <-. by exists x.
  - rewrite cache_get_set_ne in Hs; [by apply Hc|].
    apply getCacheKey_ne. naive_solver.
Qed.

(** What a consistent entry holds decodes, at the endpoint's type, as the
    backend's answer: the [as TData] of [fetchWithCache] is sound on it. *)
Lemma consistent_cache_decode e c p v :
  consistent_cache fake e c -> cache_get (getCacheKey e p) c = Some v ->
  exists x, parse v ≫= of_json = Some x /\ fake p = Some x.
Proof.
  intros Hc Hv. destruct (Hc p v Hv) as (x & Hx & ->). exists x. split; [| done].
  cbv [mbind option_bind]. by rewrite parse_stringify, of_to_json.
Qed.

Lemma consistent_cache_empty e : consistent_cache fake e (Some kv_empty).
Proof. intros p s Hs. simpl in Hs. by rewrite kv_get_empty in Hs. Qed.

(** Against a consistent cache, [fetchWithCache] answers what the
    backend answers and the cache stays consistent. *)
Theorem fetchWithCache_consistent e p fs :
  consistent_cache fake e (fs_cache fs) ->
  (fetchWithCache fake e p fs).1 = fake p /\
  consistent_cache fake e (fs_cache (fetchWithCache fake e p fs).2).
Proof.
  intros Hc. destruct (cache_get (getCacheKey e p) (fs_cache fs)) as [s|] eqn:E.
  - destruct (Hc p s E) as (x & Hx & ->).
    rewrite (fetchWithCache_hit _ _ _ _ x E). by rewrite Hx.
  - rewrite fetchWithCache_miss by (rewrite E; discriminate). split; [done|]. simpl.
    destruct (fake p) eqn:Hx; [by apply consistent_cache_set | done].
Qed.

(** A fetch at one endpoint leaves the consistency of another intact. *)
Lemma fetchWithCache_consistent_other `{Codec U} (fake' : option Params -> option U) e e' p fs :
  e <> e' -> consistent_cache fake' e' (fs_cache fs) ->
  consistent_cache fake' e' (fs_cache (fetchWithCache fake e p fs).2).
Proof.
  intros Hne Hc. destruct (cache_get (getCacheKey e p) (fs_cache fs)) as [s|] eqn:E;
    [destruct (decide (s = "")) as [->|Hs]|].
  1,3: rewrite fetchWithCache_miss by (intros ? Hs; rewrite E in Hs; congruence); simpl;
    destruct (fake p); [by apply consistent_cache_set_other | done].
  by rewrite (fetchWithCache_hit_text _ _ _ _ _ E Hs).
Qed.

(** C13: the cache stays a faithful record of the backend.  When the
    entries of two endpoints are what their backends answer, a fetch at
    the first answers what its backend answers, cached or not, and both
    endpoints' entries are still what their backends answer. *)
Theorem fetchWithCache_keeps_consistent `{Codec U} (fake' : option Params -> option U) e e' p fs :
  e <> e' -> consistent_cache fake e (fs_cache fs) -> consistent_cache fake' e' (fs_cache fs) ->
  (fetchWithCache fake e p fs).1 = fake p /\
  consistent_cache fake e (fs_cache (fetchWithCache fake e p fs).2) /\
  consistent_cache fake' e' (fs_cache (fetchWithCache fake e p fs).2).
Proof.
  intros Hne Hc Hc'. destruct (fetchWithCache_consistent e p fs Hc) as [Hr Hc1].
  split; [done | split; [done | by apply fetchWithCache_consistent_other]].
Qed.
End Consistency.

(** ** Clearing and refetching *)

Section Clearing.
Context `{KVStoreLaws M} `{Codec T}.
Implicit Types (fs : FetchState M) (fake : option Params -> option T).

Lemma clear_by_endpoint_key eps (c : option M) e p :
  cache_get (getCacheKey e p) (clearCacheByEndpoint eps c) =
  if bool_decide (e ∈ eps) then None else cache_get (getCacheKey e p) c.
Proof.
  destruct c as [m|]; simpl; [by rewrite fold_clear_keys_get, key_matches_cache_key|].
  by case_bool_decide.
Qed.

(** What [fetchWithCache] answers and sends depends on its own key's
    entry and nothing else of the cache. *)
Lemma fetchWithCache_key_agree fake e p fs fs' :
  cache_get (getCacheKey e p) (fs_cache fs) = cache_get (getCacheKey e p) (fs_cache fs') ->
  fs_log fs = fs_log fs' ->
  (fetchWithCache fake e p fs).1 = (fetchWithCache fake e p fs').1 /\
  fs_log (fetchWithCache fake e p fs).2 = fs_log (fetchWithCache fake e p fs').2.
Proof.
  intros Hg Hl. destruct (cache_get _ (fs_cache fs)) as [s|] eqn:E;
    [destruct (decide (s = "")) as [->|Hs]|].
  1,3: rewrite !fetchWithCache_miss by (intros ? Hx; congruence); simpl; by rewrite Hl.
  rewrite !(fetchWithCache_hit_text _ _ _ _ s) by congruence. split; [done|]. exact Hl.
Qed.

(** C31: the administrative clears of the spec (section 4.1): after
    [clearCache], and after [clearCacheByEndpoint] over a list naming the
    request's endpoint, a request goes to the network whatever was cached
    before and answers what the backend answers; clearing other
    endpoints leaves the request's answer and the network traffic as
    they would have been without the clear. *)
Theorem clear_then_fetch eps fake e p fs :
  ((fetcher_clearCache ;;; fetchWithCache fake e p) fs).1 = fake p /\
  fs_log ((fetcher_clearCache ;;; fetchWithCache fake e p) fs).2 = fs_log fs ++ [(e, p)] /\
  (e ∈ eps ->
   ((fetcher_clearCacheByEndpoint eps ;;; fetchWithCache fake e p) fs).1 = fake p /\
   fs_log ((fetcher_clearCacheByEndpoint eps ;;; fetchWithCache fake e p) fs).2 =
     fs_log fs ++ [(e, p)]) /\
  (e ∉ eps ->
   ((fetcher_clearCacheByEndpoint eps ;;; fetchWithCache fake e p) fs).1 =
     (fetchWithCache fake e p fs).1 /\
   fs_log ((fetcher_clearCacheByEndpoint eps ;;; fetchWithCache fake e p) fs).2 =
     fs_log (fetchWithCache fake e p fs).2).
Proof.
  unfold fetcher_clearCache, fetcher_clearCacheByEndpoint. cbv [st_bind st_modify].
  split_and!; [..| intros Hin | intros Hin].
  1,2: rewrite fetchWithCache_miss; [done|];
    intros s Hs; destruct (fs_cache fs); simpl in Hs; [rewrite kv_get_empty in Hs|]; discriminate.
  - rewrite fetchWithCache_miss; [done|].
    intros s Hs. cbn [fs_cache set_cache] in Hs.
    rewrite clear_by_endpoint_key, bool_decide_true in Hs by done. discriminate.
  - apply fetchWithCache_key_agree; [| done]. cbn [fs_cache set_cache].
    by rewrite clear_by_endpoint_key, bool_decide_false.
Qed.
End Clearing.

(** ** Concrete runs *)

Section Witnesses.
Definition demo_fs : FetchState (gmap string string) := mkFetchState (Some ∅) [] false.
Definition demo_fake (p : option Params) : option (list Transaction) := Some [demo_txn 7].
Definition failing_fake (p : option Params) : option (list Transaction) := None.
Definition demo_params : option Params := Some (employee_params "e1").

Lemma fetchWithCache_idempotent_witness :
  let r := fetchWithCache demo_fake Transactions demo_params demo_fs in
  is_Some (fs_cache demo_fs) /\ r = (Some [demo_txn 7], r.2) /\
  fetchWithCache failing_fake Transactions demo_params r.2 = (Some [demo_txn 7], r.2).
Proof.
  split; [by eexists | split; [vm_compute; reflexivity |]].
  apply (fetchWithCache_idempotent demo_fake failing_fake Transactions demo_params demo_fs _ _);
    [by eexists | vm_compute; reflexivity].
Defined.

Lemma fetchWithCache_failure_retries_witness :
  (fetchWithCache failing_fake Transactions demo_params demo_fs).1 = None /\
  fs_cache (fetchWithCache failing_fake Transactions demo_params demo_fs).2 = fs_cache demo_fs /\
  (fetchWithCache demo_fake Transactions demo_params
     (fetchWithCache failing_fake Transactions demo_params demo_fs).2).1 = demo_fake demo_params /\
  fs_log (fetchWithCache demo_fake Transactions demo_params
     (fetchWithCache failing_fake Transactions demo_params demo_fs).2).2 =
    fs_log demo_fs ++ [(Transactions, demo_params); (Transactions, demo_params)].
Proof.
  apply (fetchWithCache_failure_retries failing_fake demo_fake Transactions demo_params demo_fs).
  - reflexivity.
  - intros s Hs. vm_compute in Hs. discriminate.
Defined.

Lemma fetchWithCache_no_cache_witness :
  fs_cache (mkFetchState (M := gmap string string) None [] false) = None /\
  fetchWithCache demo_fake Transactions demo_params (mkFetchState (M := gmap string string) None [] false) =
  fetchWithoutCache demo_fake Transactions demo_params (mkFetchState None [] false).
Proof. split; [reflexivity | apply fetchWithCache_no_cache; reflexivity]. Defined.

Definition demo_employees_fake (p : option Params) : option (list Employee) :=
  Some [demo_employee].

Lemma fetchWithCache_keeps_consistent_witness :
  Transactions <> Employees /\
  consistent_cache demo_fake Transactions (fs_cache demo_fs) /\
  consistent_cache demo_employees_fake Employees (fs_cache demo_fs) /\
  (fetchWithCache demo_fake Transactions demo_params demo_fs).1 = demo_fake demo_params /\
  consistent_cache demo_fake Transactions
    (fs_cache (fetchWithCache demo_fake Transactions demo_params demo_fs).2) /\
  consistent_cache demo_employees_fake Employees
    (fs_cache (fetchWithCache demo_fake Transactions demo_params demo_fs).2).
Proof.
  split; [discriminate|].
  split; [exact (consistent_cache_empty demo_fake Transactions) |].
  split; [exact (consistent_cache_empty demo_employees_fake Employees) |].
  apply (fetchWithCache_keeps_consistent demo_fake demo_employees_fake); [discriminate | |].
  - exact (consistent_cache_empty demo_fake Transactions).
  - exact (consistent_cache_empty demo_employees_fake Employees).
Defined.

Lemma fetchWithCache_refines_witness :
  fetch_rel demo_fs (mkAbsFetchState (Some ∅) []) /\
  (fetchWithCache demo_fake Transactions demo_params demo_fs).1 =
    (abs_fetchWithCache demo_fake Transactions demo_params (mkAbsFetchState (Some ∅) [])).1 /\
  fetch_rel (fetchWithCache demo_fake Transactions demo_params demo_fs).2
    (abs_fetchWithCache demo_fake Transactions demo_params (mkAbsFetchState (Some ∅) [])).2.
Proof.
  assert (fetch_rel demo_fs (mkAbsFetchState (Some ∅) [])) as Hr.
  { split; [intros k; simpl; by rewrite !lookup_empty | reflexivity]. }
  split; [exact Hr | apply fetchWithCache_refines, Hr].
Defined.
Lemma fetchWithCache_no_overwrite_witness :
  let fs1 := (fetchWithCache demo_fake Transactions demo_params demo_fs).2 in
  cache_get (getCacheKey Transactions demo_params) (fs_cache fs1) =
    Some (stringify (to_json [demo_txn 7])) /\
  stringify (to_json [demo_txn 7]) <> "" /\
  cache_get (getCacheKey Transactions demo_params)
    (fs_cache (fetchWithCache demo_fake Transactions (Some (employee_params "e2")) fs1).2) =
    Some (stringify (to_json [demo_txn 7])).
Proof.
  assert (cache_get (getCacheKey Transactions demo_params)
            (fs_cache (fetchWithCache demo_fake Transactions demo_params demo_fs).2) =
          Some (stringify (to_json [demo_txn 7]))) as Hk by (vm_compute; reflexivity).
  split; [exact Hk | split; [apply stringify_nonempty |]].
  exact (fetchWithCache_no_overwrite demo_fake Transactions (Some (employee_params "e2")) _ _ _
           Hk (stringify_nonempty _)).
Defined.

(** The request is cached with an older answer than the backend's. *)
Definition cached_fs : FetchState (gmap string string) :=
  mkFetchState (Some {[ getCacheKey Transactions demo_params := stringify (to_json [demo_txn 1]) ]})
    [] false.

Lemma clear_then_fetch_witness :
  (fetchWithCache demo_fake Transactions demo_params cached_fs).1 = Some [demo_txn 1] /\
  ((fetcher_clearCacheByEndpoint [Transactions] ;;; fetchWithCache demo_fake Transactions demo_params)
     cached_fs).1 = Some [demo_txn 7] /\
  ((fetcher_clearCacheByEndpoint [Employees] ;;; fetchWithCache demo_fake Transactions demo_params)
     cached_fs).1 = Some [demo_txn 1].
Proof.
  pose proof (clear_then_fetch [Transactions] demo_fake Transactions demo_params cached_fs)
    as (_ & _ & H1 & _).
  pose proof (clear_then_fetch [Employees] demo_fake Transactions demo_params cached_fs)
    as (_ & _ & _ & H2).
  assert (Hc : (fetchWithCache demo_fake Transactions demo_params cached_fs).1 = Some [demo_txn 1])
    by (vm_compute; reflexivity).
  split; [exact Hc | split].
  - apply H1. apply (bool_decide_unpack _). by vm_compute.
  - rewrite <- Hc. apply H2. apply (bool_decide_unpack _). by vm_compute.
Defined.
End Witnesses.
