(* ===== verification/Pagination.v ===== *)
(** * PaginationAccumulator: [src/src/hooks/usePaginatedTransactions.ts]

    The hook keeps a [useState] cell [paginatedTransactions] holding a
    [PaginatedResponse<Transaction[]> | null] and uses its own
    [useCustomFetch] (its own executor, the shared cache).  [fetchAll]
    reads the cell of the render it closes over (the snapshot), exits
    when the snapshot's [nextPage] is the sentinel [-1], fetches the page
    the snapshot names, and then applies an updater to the latest value
    of the cell ([setPaginatedTransactions(previousResponse => ...)]).
    In this sequential model the snapshot is the current value; the
    interleaved model ([Interleaving.v]) separates them. *)

From stdpp Require Import base list strings relations gmap.
From Stdlib Require Import ZArith.
From S2P Require Import Prelude Json Model Cache Fetcher.

Record PagState (M : Type) := mkPagState {
  pg_net : FetchState M;
  pg_data : option Paginated
}.
Arguments mkPagState {M}.
Arguments pg_net {M}.
Arguments pg_data {M}.

(** [paginatedTransactions?.nextPage === -1] *)
Definition reached_end (snapshot : option Paginated) : bool :=
  match snapshot with
  | Some r => bool_decide (nextPage r = Some (-1)%Z)
  | None => false
  end.

(** [page: paginatedTransactions === null ? 0 : paginatedTransactions.nextPage] *)
Definition next_page_param (snapshot : option Paginated) : option Z :=
  match snapshot with
  | None => Some 0%Z
  | Some r => nextPage r
  end.

(** The updater passed to [setPaginatedTransactions]. *)
Definition merge_page (response previousResponse : option Paginated) : option Paginated :=
  match response, previousResponse with
  | None, _ | _, None => response
  | Some r, Some prev =>
      match nextPage r with
      | None => Some {| data := data prev ++ data r; nextPage := Some (-1)%Z |}
      | Some n => Some {| data := data prev ++ data r; nextPage := Some n |}
      end
  end.

Local Open Scope hook_scope.

Section Pagination.
Context `{KVStoreLaws M} (fake : option Params -> option Paginated).

(** The request [fetchAll] issues for a snapshot. *)
Definition fetchAll_request (snapshot : option Paginated) : St (FetchState M) (option Paginated) :=
  fetchWithCache fake PaginatedTransactions (Some (page_params (next_page_param snapshot))).

Definition fetchAll : St (PagState M) unit :=
  fun s =>
    let snapshot := pg_data s in
    if reached_end snapshot then (tt, s)
    else
      let '(response, net) := fetchAll_request snapshot (pg_net s) in
      (tt, mkPagState net (merge_page response (pg_data s))).

Definition invalidateData : St (PagState M) unit :=
  fun s => (tt, mkPagState (pg_net s) None).
End Pagination.

(** What [usePaginatedTransactions] returns ([PaginatedTransactionsResult]
    of [hooks/types.ts], not among the sources: [data], [loading],
    [fetchAll], [invalidateData]). *)
Record PaginatedTransactionsResult (M : Type) := {
  pt_data : option Paginated;
  pt_loading : bool;
  pt_fetchAll : (option Params -> option Paginated) -> St (PagState M) unit;
  pt_invalidateData : St (PagState M) unit
}.
Arguments pt_data {M}. Arguments pt_loading {M}.
Arguments pt_fetchAll {M}. Arguments pt_invalidateData {M}.

(** [usePaginatedTransactions()] in a render whose state is [s]: the
    cell, and the [loading] of the hook's own [useCustomFetch]. *)
Definition usePaginatedTransactions `{KVStoreLaws M} (s : PagState M) : PaginatedTransactionsResult M :=
  let cf := useCustomFetch (pg_net s) in
  {| pt_data := pg_data s;
     pt_loading := cf_loading cf;
     pt_fetchAll fake := fetchAll fake;
     pt_invalidateData := invalidateData |}.

(** ** The pages a backend serves from page 0

    [follows fake p rs]: [rs] are the backend's answers to page [p], then
    to the page each answer names next.  [cursor rs] is where the cell's
    cursor stands after accumulating [rs]: the first page is stored as
    received, later ones turn a [null] cursor into the sentinel [-1]. *)
Fixpoint follows (fake : option Params -> option Paginated) (p : option Z)
    (rs : list Paginated) : Prop :=
  match rs with
  | [] => True
  | r :: rs' => fake (Some (page_params p)) = Some r /\ follows fake (nextPage r) rs'
  end.

Definition cursor (rs : list Paginated) : option Z :=
  match rs with
  | [r] => nextPage r
  | _ => match last rs with Some r => Some (default (-1)%Z (nextPage r)) | None => None end
  end.

(** The cell holds the concatenation of a chain of pages from page 0. *)
Definition accumulated (fake : option Params -> option Paginated) (cell : option Paginated) : Prop :=
  match cell with
  | None => True
  | Some a => exists rs, rs <> [] /\ follows fake (Some 0%Z) rs /\
              data a = concat (map data rs) /\ nextPage a = cursor rs
  end.

(** What the accumulator may do between renders: load the next page or
    be invalidated. *)
Inductive pag_step `{KVStore M} (fake : option Params -> option Paginated) :
    PagState M -> PagState M -> Prop :=
| pag_fetch s : pag_step fake s (fetchAll fake s).2
| pag_invalidate s : pag_step fake s (invalidateData s).2.

(** The page a chain asks for next. *)
Definition chain_next (p : option Z) (rs : list Paginated) : option Z :=
  match last rs with Some r => nextPage r | None => p end.

Lemma chain_next_cons p r rs : chain_next p (r :: rs) = chain_next (nextPage r) rs.
Proof.
  destruct rs as [|r' rs]; [reflexivity|]. unfold chain_next. simpl.
  destruct (last (r' :: rs)) eqn:E; [done|]. by apply last_None in E.
Qed.

Lemma follows_snoc fake p rs r :
  follows fake p (rs ++ [r]) <-> follows fake p rs /\ fake (Some (page_params (chain_next p rs))) = Some r.
Proof.
  revert p. induction rs as [|r' rs IH]; intros p; simpl; [tauto|].
  rewrite IH, chain_next_cons. tauto.
Qed.

Lemma cursor_snoc rs r : rs <> [] -> cursor (rs ++ [r]) = Some (default (-1)%Z (nextPage r)).
Proof.
  intros Hne. unfold cursor. rewrite last_snoc.
  destruct rs as [|x [|y rs]]; done.
Qed.

(** Where the chain is not at its end, the cell's cursor is the page the
    chain asks for next. *)
Lemma cursor_chain_next p rs :
  rs <> [] -> cursor rs <> Some (-1)%Z -> cursor rs = chain_next p rs.
Proof.
  intros Hne Hc. destruct rs as [|r [|r' rs]]; [done | done |].
  unfold cursor, chain_next in *. destruct (last (r :: r' :: rs)) as [x|] eqn:E; [| by apply last_None in E].
  destruct (nextPage x); [done | by destruct Hc].
Qed.

Section PaginationLemmas.
Context `{KVStoreLaws M} (fake : option Params -> option Paginated).
Implicit Types (s : PagState M).

Definition pag_consistent s : Prop :=
  consistent_cache fake PaginatedTransactions (fs_cache (pg_net s)).

(** One [fetchAll] against a consistent cache: the cell receives the
    updater applied to the backend's answer for the snapshot's page. *)
Lemma fetchAll_step s :
  pag_consistent s -> reached_end (pg_data s) = false ->
  pg_data (fetchAll fake s).2 =
    merge_page (fake (Some (page_params (next_page_param (pg_data s))))) (pg_data s) /\
  pag_consistent (fetchAll fake s).2.
Proof.
  intros Hc He. unfold fetchAll, fetchAll_request. rewrite He.
  destruct (fetchWithCache_consistent fake PaginatedTransactions
              (Some (page_params (next_page_param (pg_data s)))) (pg_net s) Hc) as [Hr Hc'].
  destruct (fetchWithCache _ _ _ _) as [r net]. simpl in *. by subst.
Qed.

Lemma fetchAll_consistent s : pag_consistent s -> pag_consistent (fetchAll fake s).2.
Proof.
  intros Hc. destruct (reached_end (pg_data s)) eqn:He.
  - unfold fetchAll. by rewrite He.
  - by apply fetchAll_step.
Qed.

Lemma fetchAll_end s : reached_end (pg_data s) = true -> fetchAll fake s = (tt, s).
Proof. intros He. unfold fetchAll. by rewrite He. Qed.
End PaginationLemmas.

Section PaginationProperties.
Context `{KVStoreLaws M} (fake : option Params -> option Paginated).
Implicit Types (s : PagState M) (fs : FetchState M).

(** C4: the scenario of the spec (section 8).  Three pages P0 (next n1),
    P1 (next n2) and P2 (no next page): three [fetchAll] from the empty
    cell accumulate [P0.data ++ P1.data ++ P2.data] with the sentinel
    [-1]; a fourth [fetchAll] changes nothing (no fetch, same state). *)
Theorem fetchAll_three_pages fs d0 d1 d2 n1 n2 :
  consistent_cache fake PaginatedTransactions (fs_cache fs) ->
  fake (Some (page_params (Some 0%Z))) = Some {| data := d0; nextPage := Some n1 |} ->
  fake (Some (page_params (Some n1))) = Some {| data := d1; nextPage := Some n2 |} ->
  fake (Some (page_params (Some n2))) = Some {| data := d2; nextPage := None |} ->
  n1 <> (-1)%Z -> n2 <> (-1)%Z ->
  pg_data (st_iter 3 (fetchAll fake) (mkPagState fs None)).2 =
    Some {| data := d0 ++ d1 ++ d2; nextPage := Some (-1)%Z |} /\
  fetchAll fake (st_iter 3 (fetchAll fake) (mkPagState fs None)).2 =
    (tt, (st_iter 3 (fetchAll fake) (mkPagState fs None)).2).
Proof.
  intros Hc Hp0 Hp1 Hp2 Hn1 Hn2. rewrite !st_iter_S.
  destruct (fetchAll_step fake (mkPagState fs None)) as [E1 Hc1]; [done | done |].
  simpl in E1. rewrite Hp0 in E1.
  destruct (fetchAll_step fake (fetchAll fake (mkPagState fs None)).2) as [E2 Hc2];
    [done | rewrite E1; simpl; by case_bool_decide; simplify_eq |].
  rewrite E1 in E2. simpl in E2. rewrite Hp1 in E2.
  destruct (fetchAll_step fake (fetchAll fake (fetchAll fake (mkPagState fs None)).2).2) as [E3 _];
    [done | rewrite E2; simpl; by case_bool_decide; simplify_eq |].
  rewrite E2 in E3. simpl in E3. rewrite Hp2 in E3. simpl in E3. rewrite <- app_assoc in E3.
  simpl. split; [done|]. apply fetchAll_end. by rewrite E3.
Qed.

(** C5: a [fetchAll] on a loaded, unfinished cell appends the data of the
    page its cursor names and takes that page's cursor, [null] becoming
    the sentinel [-1]; when the fetch fails the cell is reset to [null],
    losing every page loaded so far. *)
Theorem fetchAll_appends s r :
  pag_consistent fake s -> pg_data s = Some r -> reached_end (Some r) = false ->
  pg_data (fetchAll fake s).2 =
    (fun resp => {| data := data r ++ data resp;
                    nextPage := Some (default (-1)%Z (nextPage resp)) |})
      <$> fake (Some (page_params (nextPage r))).
Proof.
  intros Hc Hr He.
  destruct (fetchAll_step fake s Hc) as [E _]; [by rewrite Hr|].
  rewrite E, Hr. simpl. destruct (fake (Some (page_params (nextPage r)))) as [[d [n|]]|]; reflexivity.
Qed.

Lemma accumulated_fetchAll s :
  pag_consistent fake s -> accumulated fake (pg_data s) ->
  accumulated fake (pg_data (fetchAll fake s).2).
Proof.
  intros Hc Ha. destruct (reached_end (pg_data s)) eqn:He; [by rewrite fetchAll_end|].
  destruct (fetchAll_step fake s Hc He) as [E _]. rewrite E.
  destruct (pg_data s) as [a|]; simpl.
  - cbn [accumulated] in Ha. destruct Ha as (rs & Hne & Hf & Hd & Hn). rewrite Hn.
    assert (cursor rs = chain_next (Some 0%Z) rs) as Hcn.
    { apply cursor_chain_next; [done|]. intros Hm. simpl in He. rewrite Hn, Hm in He.
      by rewrite bool_decide_true in He. }
    destruct (fake (Some (page_params (cursor rs)))) as [r|] eqn:Er; [| done].
    assert (follows fake (Some 0%Z) (rs ++ [r])) as Hf'.
    { apply follows_snoc. split; [done|]. by rewrite <- Hcn. }
    assert (concat (map data (rs ++ [r])) = data a ++ data r) as Hd'.
    { rewrite map_app, concat_app, Hd. simpl. by rewrite app_nil_r. }
    assert (rs ++ [r] <> []) as Hne' by (by destruct rs).
    destruct (nextPage r) as [n|] eqn:Enp; cbn [merge_page]; rewrite Enp; cbn [accumulated data Model.nextPage];
      exists (rs ++ [r]); rewrite cursor_snoc, Enp by done; auto.
  - destruct (fake (Some (page_params (Some 0%Z)))) as [r|] eqn:Er; [| done].
    cbn [accumulated]. exists [r]. simpl. by rewrite app_nil_r, Er.
Qed.

(** C3: in every state reachable from an empty cell by loading pages and
    invalidating, with the backend deterministic and the cache consistent
    with it, the cell is empty or holds the concatenation, in order, of
    the pages the backend serves from page 0 following each page's
    [nextPage]: no page is skipped, repeated or reordered. *)
Theorem pag_reachable_accumulated s0 s :
  pg_data s0 = None -> pag_consistent fake s0 -> rtc (pag_step fake) s0 s ->
  accumulated fake (pg_data s).
Proof.
  intros Hs0 Hc Hr.
  enough (accumulated fake (pg_data s) /\ pag_consistent fake s) as [? _] by done.
  apply (rtc_preserve (pag_step fake) (fun x => accumulated fake (pg_data x) /\ pag_consistent fake x) s0);
    [| by rewrite Hs0 | exact Hr].
  intros x y Hxy [Ha Hcx]. inversion Hxy; subst.
  - split; [by apply accumulated_fetchAll | by apply fetchAll_consistent].
  - done.
Qed.

(** C6: when page 0 is also the last page, the cell keeps its [null]
    cursor instead of the sentinel [-1], so the next [fetchAll] is not a
    no-op: it requests the page [null] and merges the answer into the
    cell. *)
Theorem fetchAll_first_page_last fs d :
  consistent_cache fake PaginatedTransactions (fs_cache fs) ->
  fake (Some (page_params (Some 0%Z))) = Some {| data := d; nextPage := None |} ->
  pg_data (fetchAll fake (mkPagState fs None)).2 = Some {| data := d; nextPage := None |} /\
  pg_data (st_iter 2 (fetchAll fake) (mkPagState fs None)).2 =
    merge_page (fake (Some (page_params None))) (Some {| data := d; nextPage := None |}).
Proof.
  intros Hc Hp0. rewrite !st_iter_S.
  destruct (fetchAll_step fake (mkPagState fs None)) as [E1 Hc1]; [done | done |].
  simpl in E1. rewrite Hp0 in E1. split; [done|].
  destruct (fetchAll_step fake (fetchAll fake (mkPagState fs None)).2) as [E2 _];
    [done | by rewrite E1 |].
  simpl. by rewrite E2, E1.
Qed.

(** C17: after [invalidateData], [fetchAll] asks for page 0 again, and a
    cached page 0 is served from the cache: no network call, cache
    unchanged. *)
Theorem invalidate_fetchAll_cached s r0 :
  cache_get (getCacheKey PaginatedTransactions (Some (page_params (Some 0%Z))))
    (fs_cache (pg_net s)) = Some (stringify (to_json r0)) ->
  pg_data (fetchAll fake (invalidateData s).2).2 = Some r0 /\
  fs_log (pg_net (fetchAll fake (invalidateData s).2).2) = fs_log (pg_net s) /\
  fs_cache (pg_net (fetchAll fake (invalidateData s).2).2) = fs_cache (pg_net s).
Proof.
  intros Hc. unfold fetchAll, invalidateData, fetchAll_request. simpl.
  by rewrite (fetchWithCache_hit fake _ _ (pg_net s) r0 Hc).
Qed.
End PaginationProperties.

(** ** The pages [fetchAll] requests

    JavaScript numbers are exact integers below [2^53]; the code does no
    arithmetic on page numbers, it only sends back the cursors the
    backend gave.  With [B] a bound on the backend's cursors ([2^53] for
    exactness), every page the accumulator requests is below [B]; the
    sentinel [-1] never leaves the client. *)

Section PaginationBounds.
Context `{KVStoreLaws M} (fake : option Params -> option Paginated) (B : Z).
Implicit Types (s : PagState M).

(** A page a request may carry: [null] (see [fetchAll_first_page_last])
    or a number in [[0, B)]. *)
Definition page_in_range (x : option Z) : Prop :=
  match x with None => True | Some n => (0 <= n < B)%Z end.

(** A cell's cursor: the sentinel, or a page a request may carry. *)
Definition cursor_in_range (cell : option Paginated) : Prop :=
  match cell with None => True | Some r => nextPage r = Some (-1)%Z \/ page_in_range (nextPage r) end.

Definition log_in_range (l : list Call) : Prop :=
  forall p, (PaginatedTransactions, p) ∈ l -> exists x, p = Some (page_params x) /\ page_in_range x.

Definition serves_in_range : Prop := forall p r, fake p = Some r -> page_in_range (nextPage r).

Lemma next_page_param_in_range cell :
  (0 < B)%Z -> cursor_in_range cell -> reached_end cell = false ->
  page_in_range (next_page_param cell).
Proof.
  intros HB Hc He. destruct cell as [r|]; simpl in *; [| lia].
  destruct Hc as [Hm|Hc]; [| done]. rewrite Hm in He. by rewrite bool_decide_true in He.
Qed.

Lemma merge_page_in_range resp prev :
  (forall r, resp = Some r -> page_in_range (nextPage r)) -> cursor_in_range (merge_page resp prev).
Proof.
  intros Hr. destruct resp as [r|]; [| done]. specialize (Hr r eq_refl).
  destruct prev as [q|]; simpl; [| by right].
  destruct (nextPage r) as [n|]; simpl; [by right | by left].
Qed.

Lemma fetchAll_log s :
  fs_log (pg_net (fetchAll fake s).2) = fs_log (pg_net s) \/
  fs_log (pg_net (fetchAll fake s).2) =
    fs_log (pg_net s) ++ [(PaginatedTransactions, Some (page_params (next_page_param (pg_data s))))].
Proof.
  unfold fetchAll, fetchAll_request. destruct (reached_end (pg_data s)); [by left|].
  pose proof (fetchWithCache_log fake PaginatedTransactions
                (Some (page_params (next_page_param (pg_data s)))) (pg_net s)) as Hl.
  destruct (fetchWithCache _ _ _ _) as [r net]. exact Hl.
Qed.

Lemma log_in_range_snoc l c :
  log_in_range l -> (c.1 = PaginatedTransactions -> exists x, c.2 = Some (page_params x) /\ page_in_range x) ->
  log_in_range (l ++ [c]).
Proof.
  intros Hl Hc p Hp. apply elem_of_app in Hp as [Hp|Hp]; [by apply Hl|].
  apply list_elem_of_singleton in Hp. subst c. by apply Hc.
Qed.

Lemma fetchAll_in_range s :
  (0 < B)%Z -> serves_in_range -> pag_consistent fake s ->
  cursor_in_range (pg_data s) -> log_in_range (fs_log (pg_net s)) ->
  cursor_in_range (pg_data (fetchAll fake s).2) /\ log_in_range (fs_log (pg_net (fetchAll fake s).2)).
Proof.
  intros HB Hserve Hc Hcur Hlog. destruct (reached_end (pg_data s)) eqn:He; [by rewrite fetchAll_end|].
  destruct (fetchAll_step fake s Hc He) as [E _]. rewrite E. split.
  - apply merge_page_in_range. intros r Hr. exact (Hserve _ r Hr).
  - destruct (fetchAll_log s) as [-> | ->]; [done|]. apply log_in_range_snoc; [done|].
    intros _. eexists. split; [reflexivity|]. by apply next_page_param_in_range.
Qed.

(** C26: in every state the accumulator reaches by [fetchAll] and
    [invalidateData], with a backend whose cursors lie in [[0, B)] and a
    cache consistent with it, every page requested so far is [null] or a
    number in [[0, B)] (never the sentinel [-1]), and the cell's cursor is
    the sentinel or such a page. *)
Theorem pag_requests_bounded s0 s :
  (0 < B)%Z -> serves_in_range -> pag_consistent fake s0 ->
  cursor_in_range (pg_data s0) -> log_in_range (fs_log (pg_net s0)) ->
  rtc (pag_step fake) s0 s ->
  log_in_range (fs_log (pg_net s)) /\ cursor_in_range (pg_data s).
Proof.
  intros HB Hserve Hc Hcur Hlog Hr.
  enough (pag_consistent fake s /\ cursor_in_range (pg_data s) /\ log_in_range (fs_log (pg_net s)))
    as (_ & ? & ?) by done.
  apply (rtc_preserve (pag_step fake)
           (fun x => pag_consistent fake x /\ cursor_in_range (pg_data x) /\ log_in_range (fs_log (pg_net x)))
           s0); [| done | exact Hr].
  intros x y Hxy (Hcx & Hcurx & Hlx). inversion Hxy; subst.
  - destruct (fetchAll_in_range x) as [? ?]; try done. split; [by apply fetchAll_consistent | done].
  - done.
Qed.
End PaginationBounds.

(** ** Concrete runs *)

Section Witnesses.
Definition demo_page (n : Z) (next : option Z) : Paginated :=
  {| data := [demo_txn n]; nextPage := next |}.

(** Three pages: 0 -> 1 -> 2 -> end. *)
Definition demo_pages (p : option Params) : option Paginated :=
  if decide (p = Some (page_params (Some 0%Z))) then Some (demo_page 10 (Some 1%Z))
  else if decide (p = Some (page_params (Some 1%Z))) then Some (demo_page 11 (Some 2%Z))
  else if decide (p = Some (page_params (Some 2%Z))) then Some (demo_page 12 None)
  else None.

(** A single page. *)
Definition single_page (p : option Params) : option Paginated :=
  if decide (p = Some (page_params (Some 0%Z))) then Some (demo_page 10 None) else None.

Definition demo_net : FetchState (gmap string string) := mkFetchState (Some ∅) [] false.
Definition failing_pages (p : option Params) : option Paginated := None.

Lemma demo_net_consistent (fake : option Params -> option Paginated) :
  consistent_cache fake PaginatedTransactions (fs_cache demo_net).
Proof. exact (consistent_cache_empty fake PaginatedTransactions). Qed.

Lemma fetchAll_three_pages_witness :
  demo_pages (Some (page_params (Some 0%Z))) = Some {| data := [demo_txn 10]; nextPage := Some 1%Z |} /\
  pg_data (st_iter 3 (fetchAll demo_pages) (mkPagState demo_net None)).2 =
    Some {| data := [demo_txn 10] ++ [demo_txn 11] ++ [demo_txn 12]; nextPage := Some (-1)%Z |} /\
  fetchAll demo_pages (st_iter 3 (fetchAll demo_pages) (mkPagState demo_net None)).2 =
    (tt, (st_iter 3 (fetchAll demo_pages) (mkPagState demo_net None)).2).
Proof.
  split; [vm_compute; reflexivity |].
  apply (fetchAll_three_pages demo_pages demo_net _ _ _ 1%Z 2%Z);
    [apply demo_net_consistent | vm_compute; reflexivity .. | lia | lia].
Defined.

Lemma fetchAll_appends_witness :
  reached_end (Some (demo_page 10 (Some 1%Z))) = false /\
  pg_data (fetchAll demo_pages (mkPagState demo_net (Some (demo_page 10 (Some 1%Z))))).2 =
    (fun resp => {| data := data (demo_page 10 (Some 1%Z)) ++ data resp;
                    nextPage := Some (default (-1)%Z (nextPage resp)) |})
      <$> demo_pages (Some (page_params (nextPage (demo_page 10 (Some 1%Z))))).
Proof.
  split; [reflexivity |].
  apply (fetchAll_appends demo_pages); [apply demo_net_consistent | reflexivity | reflexivity].
Defined.

Lemma fetchAll_first_page_last_witness :
  single_page (Some (page_params (Some 0%Z))) = Some {| data := [demo_txn 10]; nextPage := None |} /\
  pg_data (fetchAll single_page (mkPagState demo_net None)).2 =
    Some {| data := [demo_txn 10]; nextPage := None |} /\
  pg_data (st_iter 2 (fetchAll single_page) (mkPagState demo_net None)).2 =
    merge_page (single_page (Some (page_params None))) (Some {| data := [demo_txn 10]; nextPage := None |}).
Proof.
  split; [vm_compute; reflexivity |].
  apply fetchAll_first_page_last; [apply demo_net_consistent | vm_compute; reflexivity].
Defined.

Lemma pag_reachable_accumulated_witness :
  rtc (pag_step demo_pages) (mkPagState demo_net None)
      (fetchAll demo_pages (mkPagState demo_net None)).2 /\
  accumulated demo_pages (pg_data (fetchAll demo_pages (mkPagState demo_net None)).2).
Proof.
  assert (rtc (pag_step demo_pages) (mkPagState demo_net None)
            (fetchAll demo_pages (mkPagState demo_net None)).2) as Hr
    by (apply rtc_once; constructor).
  split; [exact Hr |].
  apply (pag_reachable_accumulated demo_pages (mkPagState demo_net None)); [reflexivity | apply demo_net_consistent | exact Hr].
Defined.

Definition cached_net : FetchState (gmap string string) :=
  mkFetchState (Some {[ getCacheKey PaginatedTransactions (Some (page_params (Some 0%Z)))
                        := stringify (to_json (demo_page 10 (Some 1%Z))) ]}) [] false.

Lemma invalidate_fetchAll_cached_witness :
  cache_get (getCacheKey PaginatedTransactions (Some (page_params (Some 0%Z)))) (fs_cache cached_net) =
    Some (stringify (to_json (demo_page 10 (Some 1%Z)))) /\
  pg_data (fetchAll failing_pages (invalidateData (mkPagState cached_net (Some (demo_page 11 None)))).2).2 =
    Some (demo_page 10 (Some 1%Z)) /\
  fs_log (pg_net (fetchAll failing_pages (invalidateData (mkPagState cached_net (Some (demo_page 11 None)))).2).2) =
    fs_log cached_net /\
  fs_cache (pg_net (fetchAll failing_pages (invalidateData (mkPagState cached_net (Some (demo_page 11 None)))).2).2) =
    fs_cache cached_net.
Proof.
  split; [vm_compute; reflexivity |].
  apply (invalidate_fetchAll_cached failing_pages (mkPagState cached_net (Some (demo_page 11 None)))).
  vm_compute. reflexivity.
Defined.
(** The demo backend's cursors are pages below [2^53]. *)
Lemma demo_pages_in_range : serves_in_range demo_pages (2 ^ 53)%Z.
Proof. intros p r. unfold demo_pages. repeat case_decide; intros Hp; simplify_eq; cbn; done || lia. Qed.

Lemma pag_requests_bounded_witness :
  let s2 := (fetchAll demo_pages (fetchAll demo_pages (mkPagState demo_net None)).2).2 in
  rtc (pag_step demo_pages) (mkPagState demo_net None) s2 /\
  log_in_range (2 ^ 53)%Z (fs_log (pg_net s2)) /\ cursor_in_range (2 ^ 53)%Z (pg_data s2).
Proof.
  assert (rtc (pag_step demo_pages) (mkPagState demo_net None)
            (fetchAll demo_pages (fetchAll demo_pages (mkPagState demo_net None)).2).2) as Hr.
  { eapply rtc_l; [apply pag_fetch|]. eapply rtc_l; [apply pag_fetch|]. apply rtc_refl. }
  split; [exact Hr|].
  apply (pag_requests_bounded demo_pages (2 ^ 53)%Z (mkPagState demo_net None)).
  - lia.
  - exact demo_pages_in_range.
  - apply demo_net_consistent.
  - done.
  - intros p Hp. simpl in Hp. set_solver.
  - exact Hr.
Defined.
End Witnesses.
