(* ===== verification/App.v ===== *)
(** * DataSourceCoordinator: [src/src/App.tsx]

    The component [App] composes three hooks, each with its own
    [useCustomFetch] (its own executor flag) over the one cache of the
    context: [useEmployees] (not among the sources; per the spec a single
    uncached fetch of the employee list), [usePaginatedTransactions]
    ([Pagination.v]) and [useTransactionsByEmployee] (not among the
    sources; per the spec one fetch of the employee's whole list,
    replacing the previous one).  [App] itself keeps [isLoading] and
    [currentEmployee].

    A [World] holds all of it; each hook runs on its projection.  The
    handlers are translated from [App.tsx]: [loadAllTransactions],
    [loadTransactionsByEmployee], the mount effect, the select's
    [onChange] and the "View More" button.  Each handler runs to
    completion here (one user action at a time); [Interleaving.v] splits
    them at their [await]s. *)

From stdpp Require Import base list strings relations gmap.
From Stdlib Require Import ZArith.
From S2P Require Import Prelude Json Model Cache Fetcher Pagination.

(** The backend at each endpoint ([fakeFetch]). *)
Record Backend := {
  be_employees : option Params -> option (list Employee);
  be_paginated : option Params -> option Paginated;
  be_transactions : option Params -> option (list Transaction)
}.

Record World (M : Type) := mkWorld {
  w_cache : option M;
  w_log : list Call;
  w_emp_loading : bool;
  w_pag_loading : bool;
  w_byemp_loading : bool;
  w_employees : option (list Employee);
  w_paginated : option Paginated;
  w_byEmployee : option (list Transaction);
  w_isLoading : bool;
  w_currentEmployee : option Employee
}.
Arguments mkWorld {M}.
Arguments w_cache {M}. Arguments w_log {M}.
Arguments w_emp_loading {M}. Arguments w_pag_loading {M}. Arguments w_byemp_loading {M}.
Arguments w_employees {M}. Arguments w_paginated {M}. Arguments w_byEmployee {M}.
Arguments w_isLoading {M}. Arguments w_currentEmployee {M}.

(** The three hook instances of [App]. *)
Inductive Hook := HEmployees | HPaginated | HByEmployee.

Section World.
Context {M : Type}.
Implicit Types (w : World M).

Definition hook_loading (h : Hook) w : bool :=
  match h with
  | HEmployees => w_emp_loading w
  | HPaginated => w_pag_loading w
  | HByEmployee => w_byemp_loading w
  end.

(** What the hook's [useCustomFetch] sees: the shared cache and log, its
    own executor flag. *)
Definition hook_fs (h : Hook) w : FetchState M :=
  mkFetchState (w_cache w) (w_log w) (hook_loading h w).

Definition put_hook_fs (h : Hook) (fs : FetchState M) w : World M :=
  let l := fs_loading fs in
  mkWorld (fs_cache fs) (fs_log fs)
    (if h is HEmployees then l else w_emp_loading w)
    (if h is HPaginated then l else w_pag_loading w)
    (if h is HByEmployee then l else w_byemp_loading w)
    (w_employees w) (w_paginated w) (w_byEmployee w) (w_isLoading w) (w_currentEmployee w).

Definition set_employees (v : option (list Employee)) w : World M :=
  mkWorld (w_cache w) (w_log w) (w_emp_loading w) (w_pag_loading w) (w_byemp_loading w)
    v (w_paginated w) (w_byEmployee w) (w_isLoading w) (w_currentEmployee w).
Definition set_paginated (v : option Paginated) w : World M :=
  mkWorld (w_cache w) (w_log w) (w_emp_loading w) (w_pag_loading w) (w_byemp_loading w)
    (w_employees w) v (w_byEmployee w) (w_isLoading w) (w_currentEmployee w).
Definition set_byEmployee (v : option (list Transaction)) w : World M :=
  mkWorld (w_cache w) (w_log w) (w_emp_loading w) (w_pag_loading w) (w_byemp_loading w)
    (w_employees w) (w_paginated w) v (w_isLoading w) (w_currentEmployee w).
Definition set_isLoading (b : bool) w : World M :=
  mkWorld (w_cache w) (w_log w) (w_emp_loading w) (w_pag_loading w) (w_byemp_loading w)
    (w_employees w) (w_paginated w) (w_byEmployee w) b (w_currentEmployee w).
Definition set_currentEmployee (e : option Employee) w : World M :=
  mkWorld (w_cache w) (w_log w) (w_emp_loading w) (w_pag_loading w) (w_byemp_loading w)
    (w_employees w) (w_paginated w) (w_byEmployee w) (w_isLoading w) e.

(** Run an operation of a hook's fetcher on the world. *)
Definition run_fetch {A} (h : Hook) (op : St (FetchState M) A) : St (World M) A :=
  fun w => let '(a, fs) := op (hook_fs h w) in (a, put_hook_fs h fs w).

(** Run an operation of [usePaginatedTransactions] on the world. *)
Definition run_pag {A} (op : St (PagState M) A) : St (World M) A :=
  fun w => let '(a, s) := op (mkPagState (hook_fs HPaginated w) (w_paginated w)) in
           (a, set_paginated (pg_data s) (put_hook_fs HPaginated (pg_net s) w)).

(** [transactions = paginatedTransactions?.data ?? transactionsByEmployee ?? null] *)
Definition transactions w : option (list Transaction) :=
  match w_paginated w with
  | Some p => Some (data p)
  | None => w_byEmployee w
  end.

(** The items of the employee select. *)
Definition select_items w : list Employee :=
  match w_employees w with
  | None => []
  | Some es => EMPTY_EMPLOYEE :: es
  end.

(** The mount effect's condition: [employees === null && !employeeUtils.loading]. *)
Definition effect_enabled w : bool :=
  if w_employees w is None then negb (w_emp_loading w) else false.
End World.

(** [const { data: paginatedTransactions, ...paginatedTransactionsUtils } =
    usePaginatedTransactions()]: the hook's record in the render of [w]. *)
Definition paginatedTransactionsUtils `{KVStoreLaws M} (w : World M) : PaginatedTransactionsResult M :=
  usePaginatedTransactions (mkPagState (hook_fs HPaginated w) (w_paginated w)).

Local Open Scope hook_scope.

Section Handlers.
Context `{KVStoreLaws M} (be : Backend).

(** [useEmployees().fetchAll]: [setEmployees(await fetchWithoutCache("employees"))]. *)
Definition employees_fetchAll : St (World M) unit :=
  r <- run_fetch HEmployees (fetchWithoutCache (be_employees be) Employees None) ;;
  st_modify (set_employees r).

(** [useTransactionsByEmployee().fetchById(employeeId)]. *)
Definition byEmployee_fetchById (employeeId : string) : St (World M) unit :=
  r <- run_fetch HByEmployee
         (fetchWithCache (be_transactions be) Transactions (Some (employee_params employeeId))) ;;
  st_modify (set_byEmployee r).

Definition byEmployee_invalidateData : St (World M) unit :=
  st_modify (set_byEmployee None).

Definition paginated_fetchAll : St (World M) unit := run_pag (fetchAll (be_paginated be)).

Definition paginated_invalidateData : St (World M) unit := run_pag invalidateData.

(** [loadAllTransactions] *)
Definition loadAllTransactions : St (World M) unit :=
  st_modify (set_isLoading true) ;;;
  byEmployee_invalidateData ;;;
  employees_fetchAll ;;;
  st_modify (set_isLoading false) ;;;
  paginated_fetchAll.

(** [loadTransactionsByEmployee(employeeId)] *)
Definition loadTransactionsByEmployee (employeeId : string) : St (World M) unit :=
  paginated_invalidateData ;;;
  byEmployee_fetchById employeeId.

(** The mount effect: load everything while there is no employee list and
    the employee fetch is not in flight. *)
Definition mountEffect : St (World M) unit :=
  fun w => if effect_enabled w then loadAllTransactions w else (tt, w).

(** The [onChange] of the employee select. *)
Definition onChange (newValue : option Employee) : St (World M) unit :=
  match newValue with
  | None => st_ret tt
  | Some v =>
      if decide (emp_id v = emp_id EMPTY_EMPLOYEE) then
        st_modify (set_currentEmployee None) ;;; loadAllTransactions
      else
        st_modify (set_currentEmployee (Some v)) ;;; loadTransactionsByEmployee (emp_id v)
  end.

(** The [onClick] of "View More". *)
Definition viewMore : St (World M) unit :=
  fun w => match w_currentEmployee w with
           | None => loadAllTransactions w
           | Some e => loadTransactionsByEmployee (emp_id e) w
           end.

(** What the user and React may do: the effect fires when its condition
    holds; the user picks an item of the select; the user clicks "View
    More", which is shown only with transactions on screen and enabled
    only while the paginated hook is not loading.  [InputSelect] is not
    among the sources: any listed item may be picked at any time, a
    superset of what its [isLoading] display allows. *)
Inductive ui_step : World M -> World M -> Prop :=
| ui_mount w : effect_enabled w = true -> ui_step w (loadAllTransactions w).2
| ui_select w v : v ∈ select_items w -> ui_step w (onChange (Some v) w).2
| ui_view_more w : is_Some (transactions w) -> w_pag_loading w = false ->
    ui_step w (viewMore w).2.
End Handlers.

(** The first render: the context's cache is an empty [Map], every cell
    is [null], nothing is loading. *)
Definition initial_world `{KVStore M} : World M :=
  mkWorld (Some kv_empty) [] false false false None None None false None.

(** ** What each handler leaves in the world *)

Section HandlerLemmas.
Context `{KVStoreLaws M} (be : Backend).
Implicit Types (w : World M).

(** Every executor flag and [isLoading] are down: the world between two
    user actions. *)
Definition at_rest w : Prop :=
  w_emp_loading w = false /\ w_pag_loading w = false /\
  w_byemp_loading w = false /\ w_isLoading w = false.

Lemma loadAllTransactions_facts w :
  let w' := (loadAllTransactions be w).2 in
  w_byEmployee w' = None /\ w_currentEmployee w' = w_currentEmployee w /\
  w_employees w' = be_employees be None /\ w_isLoading w' = false /\
  w_emp_loading w' = false /\ w_byemp_loading w' = w_byemp_loading w /\
  (w_pag_loading w = false -> w_pag_loading w' = false).
Proof.
  unfold loadAllTransactions, employees_fetchAll, byEmployee_invalidateData,
    paginated_fetchAll, run_fetch, run_pag. st_unfold. st_split.
  unfold fetchAll, fetchAll_request in *. destruct (reached_end _); [simplify_eq; simpl; tauto|].
  st_split. simplify_eq. simpl. repeat split; try done.
  intros _.
  match goal with E : fetchWithCache _ _ _ _ = (_, ?s) |- _ =>
    pose proof (f_equal (fun x => fs_loading x.2) E) as HL end.
  simpl in HL. unfold fetchWithCache in HL. rewrite wrappedRequest_loading in HL. by rewrite HL.
Qed.
Lemma loadTransactionsByEmployee_facts w id :
  let w' := (loadTransactionsByEmployee be id w).2 in
  w_paginated w' = None /\
  w_byEmployee w' = (fetchWithCache (be_transactions be) Transactions
                       (Some (employee_params id)) (hook_fs HByEmployee w)).1 /\
  w_currentEmployee w' = w_currentEmployee w /\ w_employees w' = w_employees w /\
  w_isLoading w' = w_isLoading w /\ w_emp_loading w' = w_emp_loading w /\
  w_pag_loading w' = w_pag_loading w /\ w_byemp_loading w' = false.
Proof.
  unfold loadTransactionsByEmployee, paginated_invalidateData, byEmployee_fetchById,
    run_fetch, run_pag, invalidateData. st_unfold. st_split. simplify_eq.
  unfold hook_fs in *. simpl in *.
  match goal with E : fetchWithCache _ _ _ _ = (_, ?s) |- _ =>
    pose proof (f_equal (fun x => fs_loading x.2) E) as HL; rewrite E end.
  simpl in HL. unfold fetchWithCache in HL. rewrite wrappedRequest_loading in HL. by rewrite HL.
Qed.
End HandlerLemmas.

Section CoordinatorInvariant.
Context `{KVStoreLaws M} (be : Backend).
Implicit Types (w : World M).

(** The active source follows the filter: with no employee selected the
    by-employee list is empty; with one selected the paginated list is
    empty and the employee list is loaded. *)
Definition coord_inv w : Prop :=
  (w_currentEmployee w = None -> w_byEmployee w = None) /\
  (forall e, w_currentEmployee w = Some e -> w_paginated w = None /\ is_Some (w_employees w)).

Lemma at_rest_loadAll w : at_rest w -> at_rest (loadAllTransactions be w).2.
Proof.
  intros (He & Hp & Hb & Hi). destruct (loadAllTransactions_facts be w) as (_&_&_&?&?&?&Hp').
  repeat split; try congruence. by apply Hp'.
Qed.

Lemma at_rest_loadByEmployee w id : at_rest w -> at_rest (loadTransactionsByEmployee be id w).2.
Proof.
  intros (He & Hp & Hb & Hi). destruct (loadTransactionsByEmployee_facts be w id) as (_&_&_&_&?&?&?&?).
  repeat split; congruence.
Qed.

Lemma ui_step_preserves w w' :
  ui_step be w w' -> coord_inv w -> at_rest w -> coord_inv w' /\ at_rest w'.
Proof.
  intros Hstep [Hnone Hsome] Hrest. unfold coord_inv.
  destruct Hstep as [w Hen|w v Hv|w Hview _].
  - destruct (loadAllTransactions_facts be w) as (Hb & Hc & _).
    split; [| by apply at_rest_loadAll]. rewrite Hc. split; [done|].
    intros e He. destruct (Hsome e He) as [_ Hemp].
    unfold effect_enabled in Hen. destruct (w_employees w); [done | by destruct Hemp].
  - unfold onChange. st_unfold. case_decide.
    + destruct (loadAllTransactions_facts be (set_currentEmployee None w)) as (Hb & Hc & _).
      split; [| apply at_rest_loadAll; destruct Hrest as (?&?&?&?); by repeat split].
      rewrite Hc. by split.
    + destruct (loadTransactionsByEmployee_facts be (set_currentEmployee (Some v) w) (emp_id v))
        as (Hp & _ & Hc & Hemp & _).
      split; [| apply at_rest_loadByEmployee; destruct Hrest as (?&?&?&?); by repeat split].
      rewrite Hc, Hp, Hemp. simpl. split; [done|]. intros e _. split; [done|].
      unfold select_items in Hv. destruct (w_employees w); [done | set_solver].
  - unfold viewMore. destruct (w_currentEmployee w) as [e|] eqn:Ecur.
    + destruct (loadTransactionsByEmployee_facts be w (emp_id e)) as (Hp & _ & Hc & Hemp & _).
      split; [| by apply at_rest_loadByEmployee]. rewrite Hc, Hp, Hemp, Ecur.
      split; [done|]. intros e' _. split; [done|]. by apply (Hsome e).
    + destruct (loadAllTransactions_facts be w) as (Hb & Hc & _).
      split; [| by apply at_rest_loadAll]. rewrite Hc, Ecur. by split.
Qed.

Lemma ui_reachable_inv w :
  rtc (ui_step be) initial_world w -> coord_inv w /\ at_rest w.
Proof.
  intros Hr. apply (rtc_preserve (ui_step be) (fun x => coord_inv x /\ at_rest x) initial_world);
    [| | exact Hr].
  - intros x y Hxy [Hi Hx]. by apply (ui_step_preserves x y).
  - split; [split; [done | intros ? [=]] | by repeat split].
Qed.

(** C1: in every state reachable by user actions and the mount effect,
    the two sources are never both loaded, and the list on screen is the
    one the filter selects: the paginated list under "All Employees",
    the employee's list under an employee. *)
Theorem ui_reachable_exclusive w :
  rtc (ui_step be) initial_world w ->
  ~ (is_Some (w_paginated w) /\ is_Some (w_byEmployee w)) /\
  transactions w = match w_currentEmployee w with
                   | None => data <$> w_paginated w
                   | Some _ => w_byEmployee w
                   end.
Proof.
  intros Hr. destruct (ui_reachable_inv w Hr) as [[Hnone Hsome] _].
  unfold transactions. destruct (w_currentEmployee w) as [e|] eqn:Ec.
  - destruct (Hsome e eq_refl) as [Hp _]. rewrite Hp. split; [intros [[] _]; discriminate | done].
  - rewrite (Hnone eq_refl). split; [intros [_ []]; discriminate | by destruct (w_paginated w)].
Qed.
End CoordinatorInvariant.

(** ** Calls to the employee endpoint *)

Definition employee_calls (l : list Call) : nat :=
  length (filter (fun c : Call => c.1 = Employees) l).

Lemma employee_calls_app l l' : employee_calls (l ++ l') = employee_calls l + employee_calls l'.
Proof. unfold employee_calls. by rewrite filter_app, length_app. Qed.

Lemma employee_calls_one e p :
  employee_calls [(e, p)] = if e is Employees then 1 else 0.
Proof. by destruct e. Qed.

Section Retry.
Context `{KVStoreLaws M} (be : Backend).
Implicit Types (w : World M).

(** [loadAllTransactions] fetches the employee list exactly once. *)
Lemma loadAll_employee_calls w :
  employee_calls (w_log (loadAllTransactions be w).2) = S (employee_calls (w_log w)).
Proof.
  unfold loadAllTransactions, employees_fetchAll, byEmployee_invalidateData,
    paginated_fetchAll, run_fetch, run_pag. st_unfold. st_split.
  unfold fetchAll, fetchAll_request in *. destruct (reached_end _).
  - simplify_eq. simpl. rewrite employee_calls_app, employee_calls_one. lia.
  - st_split. simplify_eq. simpl.
    match goal with E : fetchWithCache ?f ?e ?p ?fs = (_, ?s) |- _ =>
      destruct (fetchWithCache_log f e p fs) as [HL|HL]; rewrite E in HL; simpl in HL; rewrite HL end;
      rewrite ?employee_calls_app, ?employee_calls_one; lia.
Qed.

(** C15: when the employee fetch fails, the mount effect never stops: after
    any number [n] of firings its condition holds again, and each firing
    has called the employee endpoint once more.  The spec says nothing is
    retried automatically. *)
Theorem mountEffect_retries w n :
  be_employees be None = None -> w_employees w = None -> at_rest w ->
  effect_enabled (st_iter n (mountEffect be) w).2 = true /\
  employee_calls (w_log (st_iter n (mountEffect be) w).2) = n + employee_calls (w_log w).
Proof.
  intros Hfail. revert w. induction n as [|n IH]; intros w Hemp Hrest.
  - simpl. unfold effect_enabled. rewrite Hemp. destruct Hrest as [-> _]. done.
  - rewrite st_iter_S.
    assert (mountEffect be w = loadAllTransactions be w) as ->.
    { unfold mountEffect, effect_enabled. rewrite Hemp. by destruct Hrest as [-> _]. }
    destruct (loadAllTransactions_facts be w) as (_ & _ & He & _).
    destruct (IH (loadAllTransactions be w).2) as [IHe IHc];
      [by rewrite He | by apply at_rest_loadAll |].
    split; [done|]. rewrite IHc, loadAll_employee_calls. lia.
Qed.

(** C16: "View More" under "All Employees" runs [loadAllTransactions]: it
    fetches the employee list again, and replaces it, on every click,
    besides loading the next page (the spec's [loadMore] only advances
    the paginated source). *)
Theorem viewMore_all_refetches_employees w :
  w_currentEmployee w = None ->
  employee_calls (w_log (viewMore be w).2) = S (employee_calls (w_log w)) /\
  w_employees (viewMore be w).2 = be_employees be None /\
  w_byEmployee (viewMore be w).2 = None.
Proof.
  intros Hc. unfold viewMore. rewrite Hc.
  destruct (loadAllTransactions_facts be w) as (Hb & _ & He & _).
  by rewrite loadAll_employee_calls.
Qed.

(** Once the employee list has loaded, every later step keeps it loaded
    (the backend answers the same list again). *)
Lemma ui_step_employees w w' es :
  be_employees be None = Some es ->
  ui_step be w w' -> w = initial_world \/ w_employees w = Some es -> w_employees w' = Some es.
Proof.
  intros Hes Hstep Hw. destruct Hstep as [w Hen|w v Hv|w Hview _].
  - by destruct (loadAllTransactions_facts be w) as (_ & _ & -> & _).
  - unfold onChange. st_unfold. case_decide.
    + by destruct (loadAllTransactions_facts be (set_currentEmployee None w)) as (_ & _ & -> & _).
    + destruct (loadTransactionsByEmployee_facts be (set_currentEmployee (Some v) w) (emp_id v))
        as (_ & _ & _ & -> & _).
      destruct Hw as [->|Hw]; [unfold select_items in Hv; simpl in Hv; set_solver | done].
  - unfold viewMore. destruct (w_currentEmployee w) as [e|] eqn:Ec.
    + destruct (loadTransactionsByEmployee_facts be w (emp_id e)) as (_ & _ & _ & -> & _).
      destruct Hw as [->|Hw]; [by destruct Hview | done].
    + by destruct (loadAllTransactions_facts be w) as (_ & _ & -> & _).
Qed.

(** C25: when the employee fetch succeeds, the mount effect runs exactly
    once: in every state reachable from the first render, other than the
    first render itself, its condition is false. *)
Theorem mountEffect_once w es :
  be_employees be None = Some es ->
  rtc (ui_step be) initial_world w -> effect_enabled w = true -> w = initial_world.
Proof.
  intros Hes Hr Hen.
  destruct (rtc_preserve _ (fun x => x = initial_world \/ w_employees x = Some es) _ _
              (fun x y Hxy Hx => or_intror (ui_step_employees x y es Hes Hxy Hx))
              (or_introl eq_refl) Hr) as [->|Hw]; [done|].
  unfold effect_enabled in Hen. by rewrite Hw in Hen.
Qed.
End Retry.

(** ** The handlers step by step *)

Section RunLemmas.
Context `{KVStoreLaws M} (be : Backend).
Implicit Types (w : World M).

Definition page_key (snapshot : option Paginated) : string :=
  getCacheKey PaginatedTransactions (Some (page_params (next_page_param snapshot))).

Lemma loadAllTransactions_run w :
  (loadAllTransactions be w).2 =
  (paginated_fetchAll be
     (mkWorld (w_cache w) (w_log w ++ [(Employees, None)]) false (w_pag_loading w)
        (w_byemp_loading w) (be_employees be None) (w_paginated w) None false
        (w_currentEmployee w))).2.
Proof. reflexivity. Qed.

(** The next page is not cached: one call, stored when it succeeds. *)
Lemma paginated_fetchAll_miss w :
  reached_end (w_paginated w) = false ->
  cache_get (page_key (w_paginated w)) (w_cache w) = None ->
  let p := Some (page_params (next_page_param (w_paginated w))) in
  (paginated_fetchAll be w).2 =
  mkWorld (match be_paginated be p with
           | Some x => cache_set (page_key (w_paginated w)) (stringify (to_json x)) (w_cache w)
           | None => w_cache w
           end)
    (w_log w ++ [(PaginatedTransactions, p)]) (w_emp_loading w) false (w_byemp_loading w)
    (w_employees w) (merge_page (be_paginated be p) (w_paginated w)) (w_byEmployee w)
    (w_isLoading w) (w_currentEmployee w).
Proof.
  intros He Hc. unfold paginated_fetchAll, run_pag, fetchAll, fetchAll_request. simpl.
  rewrite He, fetchWithCache_miss by (unfold page_key in Hc; simpl; rewrite Hc; discriminate).
  reflexivity.
Qed.

(** The next page is cached: no call. *)
Lemma paginated_fetchAll_hit w x :
  reached_end (w_paginated w) = false ->
  cache_get (page_key (w_paginated w)) (w_cache w) = Some (stringify (to_json x)) ->
  (paginated_fetchAll be w).2 =
  mkWorld (w_cache w) (w_log w) (w_emp_loading w) false (w_byemp_loading w)
    (w_employees w) (merge_page (Some x) (w_paginated w)) (w_byEmployee w)
    (w_isLoading w) (w_currentEmployee w).
Proof.
  intros He Hc. unfold paginated_fetchAll, run_pag, fetchAll, fetchAll_request. simpl.
  rewrite He, (fetchWithCache_hit _ PaginatedTransactions
    (Some (page_params (next_page_param (w_paginated w)))) (hook_fs HPaginated w) x Hc).
  reflexivity.
Qed.

Lemma loadTransactionsByEmployee_miss w id :
  cache_get (getCacheKey Transactions (Some (employee_params id))) (w_cache w) = None ->
  let p := Some (employee_params id) in
  (loadTransactionsByEmployee be id w).2 =
  mkWorld (match be_transactions be p with
           | Some x => cache_set (getCacheKey Transactions p) (stringify (to_json x)) (w_cache w)
           | None => w_cache w
           end)
    (w_log w ++ [(Transactions, p)]) (w_emp_loading w) (w_pag_loading w) false
    (w_employees w) None (be_transactions be p) (w_isLoading w) (w_currentEmployee w).
Proof.
  intros Hc. unfold loadTransactionsByEmployee, paginated_invalidateData, byEmployee_fetchById,
    run_fetch, run_pag, invalidateData, st_bind, st_modify. cbv beta iota.
  rewrite fetchWithCache_miss by (simpl; rewrite Hc; discriminate). reflexivity.
Qed.

Lemma loadTransactionsByEmployee_hit w id (T : list Transaction) :
  cache_get (getCacheKey Transactions (Some (employee_params id))) (w_cache w) =
    Some (stringify (to_json T)) ->
  (loadTransactionsByEmployee be id w).2 =
  mkWorld (w_cache w) (w_log w) (w_emp_loading w) (w_pag_loading w) false
    (w_employees w) None (Some T) (w_isLoading w) (w_currentEmployee w).
Proof.
  intros Hc. unfold loadTransactionsByEmployee, paginated_invalidateData, byEmployee_fetchById,
    run_fetch, run_pag, invalidateData, st_bind, st_modify. cbv beta iota.
  rewrite (fetchWithCache_hit _ _ _ _ T) by exact Hc. reflexivity.
Qed.
End RunLemmas.

Section Scenario.
Context `{KVStoreLaws M} (be : Backend).

Lemma page_key_ne_employee_key snap id :
  page_key snap <> getCacheKey Transactions (Some (employee_params id)).
Proof. intros Hk. by apply getCacheKey_endpoint_inj in Hk. Qed.

(** C2: the end-to-end scenario of the spec (section 8).  From the first
    render with an empty cache: the mount effect fetches the employees
    (uncached) and page 0 (cached under its key); selecting employee [e1]
    empties the paginated source and fetches [e1]'s transactions;
    selecting "All Employees" again empties the by-employee source and
    shows page 0 again, served from the cache: the network saw exactly
    employees, page 0, [e1]'s transactions, employees. *)
Theorem end_to_end_scenario emps P0 T1 e1 :
  be_employees be None = Some emps ->
  be_paginated be (Some (page_params (Some 0%Z))) = Some P0 ->
  be_transactions be (Some (employee_params (emp_id e1))) = Some T1 ->
  emp_id e1 <> emp_id EMPTY_EMPLOYEE ->
  let w1 := (mountEffect be (initial_world (M := M))).2 in
  let w2 := (onChange be (Some e1) w1).2 in
  let w3 := (onChange be (Some EMPTY_EMPLOYEE) w2).2 in
  w_employees w1 = Some emps /\ w_paginated w1 = Some P0 /\
  w_paginated w2 = None /\ w_byEmployee w2 = Some T1 /\
  w_paginated w3 = Some P0 /\ w_byEmployee w3 = None /\
  w_log w3 = [(Employees, None); (PaginatedTransactions, Some (page_params (Some 0%Z)));
              (Transactions, Some (employee_params (emp_id e1))); (Employees, None)].
Proof.
  intros He Hp Ht Hid w1 w2 w3.
  set (k0 := page_key None). set (k1 := getCacheKey Transactions (Some (employee_params (emp_id e1)))).
  assert (w1 = mkWorld (cache_set k0 (stringify (to_json P0)) (Some kv_empty))
                 [(Employees, None); (PaginatedTransactions, Some (page_params (Some 0%Z)))]
                 false false false (Some emps) (Some P0) None false None) as E1.
  { subst w1. unfold mountEffect. simpl. rewrite loadAllTransactions_run, He.
    rewrite paginated_fetchAll_miss by (done || apply kv_get_empty). unfold initial_world. cbn [w_log w_paginated w_cache next_page_param]. by rewrite Hp. }
  assert (w2 = mkWorld (cache_set k1 (stringify (to_json T1))
                          (cache_set k0 (stringify (to_json P0)) (Some kv_empty)))
                 (w_log w1 ++ [(Transactions, Some (employee_params (emp_id e1)))])
                 false false false (Some emps) None (Some T1) false (Some e1)) as E2.
  { subst w2. rewrite E1. unfold onChange. rewrite decide_False by done.
    unfold st_bind, st_modify. cbv beta iota.
    rewrite loadTransactionsByEmployee_miss.
    - cbn [w_log w_cache w_employees set_currentEmployee]. by rewrite Ht.
    - cbn [w_cache set_currentEmployee]. rewrite cache_get_set_ne by apply page_key_ne_employee_key. apply kv_get_empty. }
  assert (cache_get k0 (w_cache w2) = Some (stringify (to_json P0))) as Hk0.
  { rewrite E2. cbn [w_cache]. rewrite cache_get_set_ne by (intros Hk; symmetry in Hk; by eapply page_key_ne_employee_key).
    by apply cache_get_set_eq. }
  assert (w3 = mkWorld (w_cache w2) (w_log w2 ++ [(Employees, None)]) false false false
                 (Some emps) (Some P0) None false None) as E3.
  { subst w3. unfold onChange. rewrite decide_True by done.
    unfold st_bind, st_modify. cbv beta iota. rewrite loadAllTransactions_run, He.
    rewrite E2 in Hk0 |- *. rewrite (paginated_fetchAll_hit be _ P0) by done. reflexivity. }
  rewrite E3, E2, E1. by repeat split.
Qed.
End Scenario.

Section ViewMoreEmployee.
Context `{KVStoreLaws M} (be : Backend).

(** C18: "View More" under a selected employee whose list is in the
    cache sends no request: [loadTransactionsByEmployee] goes through
    [fetchWithCache], which answers from the cache, so the click only
    re-reads the cached list (the spec, section 4.5, says the click
    re-issues the by-employee fetch). *)
Theorem viewMore_employee_cached (w : World M) e (T : list Transaction) :
  w_currentEmployee w = Some e ->
  cache_get (getCacheKey Transactions (Some (employee_params (emp_id e)))) (w_cache w) =
    Some (stringify (to_json T)) ->
  w_log (viewMore be w).2 = w_log w /\ w_cache (viewMore be w).2 = w_cache w /\
  w_paginated (viewMore be w).2 = None /\ transactions (viewMore be w).2 = Some T.
Proof.
  intros Hc Hk. unfold viewMore. cbv beta. rewrite Hc, (loadTransactionsByEmployee_hit be w _ T Hk).
  by repeat split.
Qed.
End ViewMoreEmployee.

(** ** Concrete runs *)

Section Witnesses.
Definition demo_backend : Backend := {|
  be_employees p := Some [demo_employee];
  be_paginated := demo_pages;
  be_transactions p := Some [demo_txn 42]
|}.

(** The employee endpoint is down. *)
Definition employees_down : Backend := {|
  be_employees p := None;
  be_paginated := demo_pages;
  be_transactions p := Some [demo_txn 42]
|}.

Definition W0 : World (gmap string string) := initial_world.

Lemma ui_reachable_exclusive_witness :
  rtc (ui_step demo_backend) W0 (loadAllTransactions demo_backend W0).2 /\
  ~ (is_Some (w_paginated (loadAllTransactions demo_backend W0).2) /\
     is_Some (w_byEmployee (loadAllTransactions demo_backend W0).2)) /\
  transactions (loadAllTransactions demo_backend W0).2 =
    match w_currentEmployee (loadAllTransactions demo_backend W0).2 with
    | None => data <$> w_paginated (loadAllTransactions demo_backend W0).2
    | Some _ => w_byEmployee (loadAllTransactions demo_backend W0).2
    end.
Proof.
  assert (rtc (ui_step demo_backend) W0 (loadAllTransactions demo_backend W0).2) as Hr
    by (apply rtc_once; constructor; reflexivity).
  split; [exact Hr | exact (ui_reachable_exclusive demo_backend _ Hr)].
Defined.

Lemma end_to_end_scenario_witness :
  be_employees demo_backend None = Some [demo_employee] /\
  be_paginated demo_backend (Some (page_params (Some 0%Z))) = Some (demo_page 10 (Some 1%Z)) /\
  be_transactions demo_backend (Some (employee_params (emp_id demo_employee))) = Some [demo_txn 42] /\
  emp_id demo_employee <> emp_id EMPTY_EMPLOYEE /\
  (let w1 := (mountEffect demo_backend W0).2 in
   let w2 := (onChange demo_backend (Some demo_employee) w1).2 in
   let w3 := (onChange demo_backend (Some EMPTY_EMPLOYEE) w2).2 in
   w_employees w1 = Some [demo_employee] /\ w_paginated w1 = Some (demo_page 10 (Some 1%Z)) /\
   w_paginated w2 = None /\ w_byEmployee w2 = Some [demo_txn 42] /\
   w_paginated w3 = Some (demo_page 10 (Some 1%Z)) /\ w_byEmployee w3 = None /\
   w_log w3 = [(Employees, None); (PaginatedTransactions, Some (page_params (Some 0%Z)));
               (Transactions, Some (employee_params (emp_id demo_employee))); (Employees, None)]).
Proof.
  split; [reflexivity | split; [vm_compute; reflexivity | split; [reflexivity | split; [discriminate |]]]].
  apply (end_to_end_scenario demo_backend);
    [reflexivity | vm_compute; reflexivity | reflexivity | discriminate].
Defined.

Lemma mountEffect_retries_witness :
  be_employees employees_down None = None /\
  effect_enabled (st_iter 3 (mountEffect employees_down) W0).2 = true /\
  employee_calls (w_log (st_iter 3 (mountEffect employees_down) W0).2) = 3 + employee_calls (w_log W0).
Proof.
  split; [reflexivity |].
  apply mountEffect_retries; [reflexivity | reflexivity | by repeat split].
Defined.

Lemma viewMore_all_refetches_employees_witness :
  w_currentEmployee W0 = None /\
  employee_calls (w_log (viewMore demo_backend W0).2) = S (employee_calls (w_log W0)) /\
  w_employees (viewMore demo_backend W0).2 = be_employees demo_backend None /\
  w_byEmployee (viewMore demo_backend W0).2 = None.
Proof. split; [reflexivity | apply viewMore_all_refetches_employees; reflexivity]. Defined.
Lemma mountEffect_once_witness :
  be_employees demo_backend None = Some [demo_employee] /\
  rtc (ui_step demo_backend) initial_world W0 /\ effect_enabled W0 = true /\ W0 = initial_world.
Proof.
  split; [reflexivity | split; [apply rtc_refl | split; [reflexivity |]]].
  exact (mountEffect_once demo_backend W0 [demo_employee] eq_refl (rtc_refl _ _) eq_refl).
Defined.
(** Employee [e1] selected, its list cached. *)
Definition employee_world : World (gmap string string) :=
  mkWorld (Some {[ getCacheKey Transactions (Some (employee_params "e1")) :=
                     stringify (to_json [demo_txn 42]) ]})
    [] false false false (Some [demo_employee]) None (Some [demo_txn 42]) false (Some demo_employee).

Lemma viewMore_employee_cached_witness :
  w_log (viewMore demo_backend employee_world).2 = w_log employee_world /\
  w_cache (viewMore demo_backend employee_world).2 = w_cache employee_world /\
  w_paginated (viewMore demo_backend employee_world).2 = None /\
  transactions (viewMore demo_backend employee_world).2 = Some [demo_txn 42].
Proof.
  apply (viewMore_employee_cached demo_backend employee_world demo_employee [demo_txn 42]).
  - reflexivity.
  - vm_compute. reflexivity.
Defined.
End Witnesses.
