(* ===== verification/Interleaving.v ===== *)
(** * The handlers of [App] as interleaved tasks

    JavaScript runs one task at a time; a handler gives way only at an
    [await] that waits for the network ([await fakeFetch(...)] inside
    [fetchWithCache] and [fetchWithoutCache]).  Everything between two
    such points (cache reads and writes, [setState] calls, updaters) runs
    without interruption.  Here each handler of [App.tsx] is cut at those
    points: starting it runs its first segment and leaves a pending
    [Task]; resolving a pending task runs the next segment with the
    backend's answer, and may leave a new pending task.  A [Task] keeps
    what the rest of the handler closes over: [loadAllTransactions]
    calls [paginatedTransactionsUtils.fetchAll] of the render in which
    the user clicked, so the paginated snapshot travels with the task.

    [istep] lets the user act and lets any pending request resolve, in
    any order.  The atomic semantics of [App.v] is the special case where
    every handler finishes before the next action ([loadAll_sequential],
    [loadByEmployee_sequential]); the other orders are where the races of
    the spec (sections 5 and 9) live. *)

From stdpp Require Import base list strings relations gmap.
From Stdlib Require Import ZArith.
From S2P Require Import Prelude Json Model Cache Fetcher Pagination App.

Local Open Scope hook_scope.

(** ** [fetchWithCache] and [fetchWithoutCache] cut at [await fakeFetch] *)

(** What the first segment of a fetch leaves: an answer (a cache hit,
    no suspension) or a request in flight. *)
Inductive Outcome (T : Type) := Answered (r : option T) | Waiting.
Arguments Answered {T}.
Arguments Waiting {T}.

Section FetchSplit.
Context `{KVStoreLaws M} `{Codec T}.

(** Up to the [await]: [setLoading(true)], the cache lookup, and on a
    miss the request leaves (it is logged). *)
Definition fetch_begin (endpoint : RegisteredEndpoint) (params : option Params) :
    St (FetchState M) (Outcome T) :=
  st_modify (set_loading true) ;;;
  cached <- cache_lookup (getCacheKey endpoint params) ;;
  match cached with
  | Some s =>
      if decide (s = "") then st_modify (log_call (endpoint, params)) ;;; st_ret Waiting
      else st_modify (set_loading false) ;;; st_ret (Answered (parse s ≫= of_json))
  | None => st_modify (log_call (endpoint, params)) ;;; st_ret Waiting
  end.

(** After the [await]: the answer is stored when there is one, then
    [setLoading(false)]. *)
Definition fetch_finish (fake : option Params -> option T) (endpoint : RegisteredEndpoint)
    (params : option Params) : St (FetchState M) (option T) :=
  (match fake params with
   | None => st_ret tt
   | Some x => cache_store (getCacheKey endpoint params) (stringify (to_json x))
   end) ;;;
  st_modify (set_loading false) ;;;
  st_ret (fake params).

Definition fetch_begin_nc (endpoint : RegisteredEndpoint) (params : option Params) :
    St (FetchState M) unit :=
  st_modify (set_loading true) ;;; st_modify (log_call (endpoint, params)).

Definition fetch_finish_nc (fake : option Params -> option T) (params : option Params) :
    St (FetchState M) (option T) :=
  fun fs => (fake params, set_loading false fs).

(** The two segments, run back to back, are the whole fetch. *)
Lemma fetchWithCache_split fake e p fs :
  fetchWithCache fake e p fs =
  match fetch_begin e p fs with
  | (Answered r, fs1) => (r, fs1)
  | (Waiting, fs1) => fetch_finish fake e p fs1
  end.
Proof.
  unfold fetchWithCache, fetch_begin, fetch_finish. rewrite wrappedRequest_run.
  unfold cache_lookup, fetch_and_store, fakeFetch, cache_store. st_unfold.
  destruct (cache_get (getCacheKey e p) (fs_cache fs)) as [s|];
    [destruct (decide (s = ""))|]; destruct (fake p); reflexivity.
Qed.

Lemma fetchWithoutCache_split fake e p fs :
  fetchWithoutCache fake e p fs = fetch_finish_nc fake p (fetch_begin_nc e p fs).2.
Proof. reflexivity. Qed.
End FetchSplit.

(** ** Pending tasks and the interleaved handlers *)

Inductive Task :=
| TEmployees (snapshot : option Paginated)
    (** [loadAllTransactions] waiting for the employees; then it runs the
        [fetchAll] of its render, with that render's cell *)
| TPage (params : option Params)
    (** [fetchAll] waiting for a page *)
| TByEmployee (params : option Params).
    (** [fetchById] waiting for an employee's transactions *)

Definition Sys (M : Type) : Type := World M * list Task.

Section Interleaved.
Context `{KVStoreLaws M} (be : Backend).

(** The [fetchAll] of a render whose cell was [snapshot], up to its
    [await]; the updater runs on the latest cell. *)
Definition fetchAll_start (snapshot : option Paginated) : St (World M) (list Task) :=
  if reached_end snapshot then st_ret []
  else
    let params := Some (page_params (next_page_param snapshot)) in
    o <- run_fetch HPaginated (fetch_begin (T := Paginated) PaginatedTransactions params) ;;
    match o with
    | Answered r => st_modify (fun w => set_paginated (merge_page r (w_paginated w)) w) ;;; st_ret []
    | Waiting => st_ret [TPage params]
    end.

Definition loadAll_start : St (World M) (list Task) :=
  fun w =>
    (st_modify (set_isLoading true) ;;;
     byEmployee_invalidateData ;;;
     run_fetch HEmployees (fetch_begin_nc Employees None) ;;;
     st_ret [TEmployees (w_paginated w)]) w.

Definition loadByEmployee_start (employeeId : string) : St (World M) (list Task) :=
  let params := Some (employee_params employeeId) in
  paginated_invalidateData ;;;
  o <- run_fetch HByEmployee (fetch_begin (T := list Transaction) Transactions params) ;;
  match o with
  | Answered r => st_modify (set_byEmployee r) ;;; st_ret []
  | Waiting => st_ret [TByEmployee params]
  end.

(** The segment a resolved request runs. *)
Definition resume (t : Task) : St (World M) (list Task) :=
  match t with
  | TEmployees snapshot =>
      r <- run_fetch HEmployees (fetch_finish_nc (be_employees be) None) ;;
      st_modify (set_employees r) ;;;
      st_modify (set_isLoading false) ;;;
      fetchAll_start snapshot
  | TPage params =>
      r <- run_fetch HPaginated (fetch_finish (be_paginated be) PaginatedTransactions params) ;;
      st_modify (fun w => set_paginated (merge_page r (w_paginated w)) w) ;;;
      st_ret []
  | TByEmployee params =>
      r <- run_fetch HByEmployee (fetch_finish (be_transactions be) Transactions params) ;;
      st_modify (set_byEmployee r) ;;;
      st_ret []
  end.

Definition onChange_start (newValue : option Employee) : St (World M) (list Task) :=
  match newValue with
  | None => st_ret []
  | Some v =>
      if decide (emp_id v = emp_id EMPTY_EMPLOYEE) then
        st_modify (set_currentEmployee None) ;;; loadAll_start
      else
        st_modify (set_currentEmployee (Some v)) ;;; loadByEmployee_start (emp_id v)
  end.

Definition viewMore_start : St (World M) (list Task) :=
  fun w => match w_currentEmployee w with
           | None => loadAll_start w
           | Some e => loadByEmployee_start (emp_id e) w
           end.

(** Run a segment: its new pending tasks join the others. *)
Definition spawn (c : St (World M) (list Task)) (w : World M) (ts : list Task) : Sys M :=
  let '(n, w') := c w in (w', ts ++ n).

(** The user and React act on the current render; any pending request
    may resolve next. *)
Inductive istep : Sys M -> Sys M -> Prop :=
| is_mount w ts : effect_enabled w = true -> istep (w, ts) (spawn loadAll_start w ts)
| is_select w ts v : v ∈ select_items w -> istep (w, ts) (spawn (onChange_start (Some v)) w ts)
| is_view_more w ts : is_Some (transactions w) -> w_pag_loading w = false ->
    istep (w, ts) (spawn viewMore_start w ts)
| is_resolve w ts1 t ts2 : istep (w, ts1 ++ t :: ts2) (spawn (resume t) w (ts1 ++ ts2)).
End Interleaved.

(** ** Handlers run to completion are the handlers of [App.v] *)

Section Sequential.
Context `{KVStoreLaws M} (be : Backend).

(** Resolve the oldest pending request, [n] times. *)
Fixpoint drain (n : nat) (s : Sys M) : Sys M :=
  match n with
  | O => s
  | S n' =>
      match s.2 with
      | [] => s
      | t :: ts => drain n' (spawn (resume be t) s.1 ts)
      end
  end.

Lemma drain_rtc n s : rtc (istep be) s (drain n s).
Proof.
  revert s. induction n as [|n IH]; intros [w ts]; [done|]. simpl.
  destruct ts as [|t ts]; [done|].
  eapply rtc_l; [apply (is_resolve be w [] t ts) | apply IH].
Qed.

Lemma fetchAll_start_run w :
  drain 1 (spawn (fetchAll_start (w_paginated w)) w []) =
  ((run_pag (fetchAll (be_paginated be)) w).2, []).
Proof.
  destruct w. unfold fetchAll_start, run_pag, fetchAll, fetchAll_request. simpl.
  destruct (reached_end _); [reflexivity|].
  rewrite fetchWithCache_split.
  unfold run_fetch, spawn. st_unfold.
  destruct (fetch_begin _ _ _) as [[r|] [c l b]]; simpl; [reflexivity|].
  unfold resume, run_fetch. st_unfold. destruct (fetch_finish _ _ _ _); reflexivity.
Qed.

Lemma loadAll_sequential w :
  drain 2 (spawn loadAll_start w []) = ((loadAllTransactions be w).2, []).
Proof.
  rewrite loadAllTransactions_run. unfold paginated_fetchAll. rewrite <- fetchAll_start_run.
  destruct w. reflexivity.
Qed.

Lemma loadByEmployee_sequential w id :
  drain 1 (spawn (loadByEmployee_start id) w []) = ((loadTransactionsByEmployee be id w).2, []).
Proof.
  destruct w. unfold loadByEmployee_start, loadTransactionsByEmployee, byEmployee_fetchById,
    paginated_invalidateData, run_pag, invalidateData, run_fetch, spawn. st_unfold.
  rewrite fetchWithCache_split.
  destruct (fetch_begin _ _ _) as [[r|] [c l b]]; simpl; [reflexivity|].
  unfold resume, run_fetch, spawn. st_unfold. destruct (fetch_finish _ _ _ _); reflexivity.
Qed.

End Sequential.

(** ** What each segment does *)

Section Segments.
Context `{KVStoreLaws M} (be : Backend).
Implicit Types (w : World M).

Definition page_call (snapshot : option Paginated) : option Params :=
  Some (page_params (next_page_param snapshot)).

Lemma loadAll_start_run w :
  loadAll_start w =
  ([TEmployees (w_paginated w)],
   mkWorld (w_cache w) (w_log w ++ [(Employees, None)]) true (w_pag_loading w) (w_byemp_loading w)
     (w_employees w) (w_paginated w) None true (w_currentEmployee w)).
Proof. by destruct w. Qed.

Lemma resume_employees snap w :
  resume be (TEmployees snap) w =
  fetchAll_start snap
    (mkWorld (w_cache w) (w_log w) false (w_pag_loading w) (w_byemp_loading w)
       (be_employees be None) (w_paginated w) (w_byEmployee w) false (w_currentEmployee w)).
Proof. by destruct w. Qed.

Lemma fetchAll_start_miss snap w :
  reached_end snap = false ->
  cache_get (getCacheKey PaginatedTransactions (page_call snap)) (w_cache w) = None ->
  fetchAll_start snap w =
  ([TPage (page_call snap)],
   mkWorld (w_cache w) (w_log w ++ [(PaginatedTransactions, page_call snap)])
     (w_emp_loading w) true (w_byemp_loading w) (w_employees w) (w_paginated w)
     (w_byEmployee w) (w_isLoading w) (w_currentEmployee w)).
Proof.
  intros He Hc. destruct w. unfold fetchAll_start. rewrite He.
  unfold run_fetch, fetch_begin, cache_lookup, page_call in *. st_unfold. rewrite Hc. reflexivity.
Qed.

Lemma fetchAll_start_hit snap w (x : Paginated) :
  reached_end snap = false ->
  cache_get (getCacheKey PaginatedTransactions (page_call snap)) (w_cache w) =
    Some (stringify (to_json x)) ->
  fetchAll_start snap w =
  ([], mkWorld (w_cache w) (w_log w) (w_emp_loading w) false (w_byemp_loading w)
         (w_employees w) (merge_page (Some x) (w_paginated w)) (w_byEmployee w)
         (w_isLoading w) (w_currentEmployee w)).
Proof.
  intros He Hc. remember (stringify (to_json x)) as sx eqn:Hsx.
  assert (sx <> "") as Hne by (subst; apply stringify_nonempty).
  assert (parse sx ≫= of_json = Some x) as Hp by (subst; rewrite parse_stringify; apply of_to_json).
  clear Hsx. destruct w. unfold fetchAll_start. rewrite He.
  unfold run_fetch, fetch_begin, cache_lookup, page_call in *. st_unfold. rewrite Hc.
  rewrite decide_False by exact Hne. by rewrite Hp.
Qed.

Lemma resume_page p w :
  resume be (TPage p) w =
  ([], mkWorld (match be_paginated be p with
                | Some x => cache_set (getCacheKey PaginatedTransactions p) (stringify (to_json x)) (w_cache w)
                | None => w_cache w
                end)
         (w_log w) (w_emp_loading w) false (w_byemp_loading w) (w_employees w)
         (merge_page (be_paginated be p) (w_paginated w)) (w_byEmployee w)
         (w_isLoading w) (w_currentEmployee w)).
Proof.
  destruct w. unfold resume, run_fetch, fetch_finish, cache_store. st_unfold.
  destruct (be_paginated be p); reflexivity.
Qed.

Lemma loadByEmployee_start_miss id w :
  cache_get (getCacheKey Transactions (Some (employee_params id))) (w_cache w) = None ->
  loadByEmployee_start id w =
  ([TByEmployee (Some (employee_params id))],
   mkWorld (w_cache w) (w_log w ++ [(Transactions, Some (employee_params id))])
     (w_emp_loading w) (w_pag_loading w) true (w_employees w) None (w_byEmployee w)
     (w_isLoading w) (w_currentEmployee w)).
Proof.
  intros Hc. destruct w. unfold loadByEmployee_start, paginated_invalidateData, run_pag,
    invalidateData, run_fetch, fetch_begin, cache_lookup in *. st_unfold. rewrite Hc. reflexivity.
Qed.

Lemma resume_byEmployee p w :
  resume be (TByEmployee p) w =
  ([], mkWorld (match be_transactions be p with
                | Some x => cache_set (getCacheKey Transactions p) (stringify (to_json x)) (w_cache w)
                | None => w_cache w
                end)
         (w_log w) (w_emp_loading w) (w_pag_loading w) false (w_employees w)
         (w_paginated w) (be_transactions be p) (w_isLoading w) (w_currentEmployee w)).
Proof.
  destruct w. unfold resume, run_fetch, fetch_finish, cache_store. st_unfold.
  destruct (be_transactions be p); reflexivity.
Qed.
End Segments.

Section Races.
Context `{KVStoreLaws M} (be : Backend).
Implicit Types (w : World M).

Lemma viewMore_start_all w : w_currentEmployee w = None -> viewMore_start w = loadAll_start w.
Proof. unfold viewMore_start. by intros ->. Qed.

Lemma reached_end_next r n : nextPage r = Some n -> n <> (-1)%Z -> reached_end (Some r) = false.
Proof. intros Hn Hn1. simpl. rewrite Hn. apply bool_decide_eq_false. congruence. Qed.

(** Two clicks on "View More" in the same render, both employee fetches
    answered: the same page is requested twice. *)
Lemma double_view_more_prefix w r n :
  at_rest w -> w_currentEmployee w = None -> w_paginated w = Some r ->
  nextPage r = Some n -> n <> (-1)%Z ->
  cache_get (getCacheKey PaginatedTransactions (Some (page_params (Some n)))) (w_cache w) = None ->
  exists w1, rtc (istep be) (w, [])
                 (w1, [TPage (Some (page_params (Some n))); TPage (Some (page_params (Some n)))]) /\
    w_paginated w1 = Some r /\ w_currentEmployee w1 = None /\
    w_log w1 = w_log w ++ [(Employees, None); (Employees, None);
                           (PaginatedTransactions, Some (page_params (Some n)));
                           (PaginatedTransactions, Some (page_params (Some n)))].
Proof.
  intros (He & Hpl & Hb & Hi) Hc Hr Hn Hn1 Hmiss.
  pose proof (reached_end_next r n Hn Hn1) as Hend.
  assert (page_call (Some r) = Some (page_params (Some n))) as Hpc by (unfold page_call; simpl; by rewrite Hn).
  destruct w as [c l el pl bl es pg be' il ce]; simpl in *; subst.
  eexists. split.
  - eapply rtc_l; [apply is_view_more; [by eexists | done] |].
    unfold spawn. rewrite viewMore_start_all, loadAll_start_run by done. simpl.
    eapply rtc_l; [apply is_view_more; [by eexists | done] |].
    unfold spawn. rewrite viewMore_start_all, loadAll_start_run by done. simpl.
    eapply rtc_l; [apply (is_resolve be _ [] (TEmployees (Some r)) [TEmployees (Some r)]) |].
    unfold spawn. rewrite resume_employees, fetchAll_start_miss
      by (exact Hend || (cbn [w_cache]; rewrite Hpc; exact Hmiss)). simpl.
    eapply rtc_l; [apply (is_resolve be _ [] (TEmployees (Some r)) [TPage (page_call (Some r))]) |].
    unfold spawn. rewrite resume_employees, fetchAll_start_miss
      by (exact Hend || (cbn [w_cache]; rewrite Hpc; exact Hmiss)). simpl.
    rewrite Hpc. apply rtc_refl.
  - split; [reflexivity | split; [reflexivity|]].
    cbn [w_log]. by rewrite <- !app_assoc.
Qed.

(** A pending request for a page resolves: the page is merged into the
    latest cell. *)
Lemma resolve_page_step w ts1 ts2 p :
  rtc (istep be) (w, ts1 ++ TPage p :: ts2) (snd (resume be (TPage p) w), ts1 ++ ts2).
Proof.
  eapply rtc_l; [apply is_resolve|]. unfold spawn. rewrite resume_page. simpl.
  rewrite app_nil_r. apply rtc_refl.
Qed.

(** C19: "View More" stays enabled while [loadAllTransactions] waits for
    the employees (only the employee hook is loading), so two clicks in
    the same render are possible.  Both run the [fetchAll] of that
    render, with the same cell: page [n] is requested twice and appended
    twice, after the pages already loaded. *)
Theorem double_view_more_duplicates_page w r n P :
  at_rest w -> w_currentEmployee w = None -> w_paginated w = Some r ->
  nextPage r = Some n -> n <> (-1)%Z ->
  cache_get (getCacheKey PaginatedTransactions (Some (page_params (Some n)))) (w_cache w) = None ->
  be_paginated be (Some (page_params (Some n))) = Some P ->
  exists w', rtc (istep be) (w, []) (w', []) /\ w_currentEmployee w' = None /\
    w_paginated w' = Some {| data := data r ++ data P ++ data P;
                             nextPage := Some (default (-1)%Z (nextPage P)) |} /\
    w_log w' = w_log w ++ [(Employees, None); (Employees, None);
                           (PaginatedTransactions, Some (page_params (Some n)));
                           (PaginatedTransactions, Some (page_params (Some n)))].
Proof.
  intros Hrest Hc Hr Hn Hn1 Hmiss HP.
  destruct (double_view_more_prefix w r n Hrest Hc Hr Hn Hn1 Hmiss) as (w1 & Hrun & Hr1 & Hc1 & Hl1).
  eexists. split.
  - etrans; [exact Hrun|].
    etrans; [apply (resolve_page_step _ [] [_])|]. apply (resolve_page_step _ [] []).
  - rewrite !resume_page. cbn [snd w_currentEmployee w_paginated w_log].
    split; [done | split; [| done]]. rewrite HP, Hr1.
    destruct P as [d [z|]]; simpl; by rewrite <- app_assoc.
Qed.

(** C23: the loading flag of the paginated hook is one boolean for all its
    requests: after the double click, when the first page request
    answers, the flag is down and "View More" is enabled again while
    the second request for the same page is still in flight. *)
Theorem loading_flag_drops_while_pending w r n :
  at_rest w -> w_currentEmployee w = None -> w_paginated w = Some r ->
  nextPage r = Some n -> n <> (-1)%Z ->
  cache_get (getCacheKey PaginatedTransactions (Some (page_params (Some n)))) (w_cache w) = None ->
  is_Some (be_paginated be (Some (page_params (Some n)))) ->
  exists w' ts, rtc (istep be) (w, []) (w', ts) /\
    TPage (Some (page_params (Some n))) ∈ ts /\
    w_pag_loading w' = false /\ is_Some (transactions w').
Proof.
  intros Hrest Hc Hr Hn Hn1 Hmiss [P HP].
  destruct (double_view_more_prefix w r n Hrest Hc Hr Hn Hn1 Hmiss) as (w1 & Hrun & Hr1 & _).
  eexists _, _. split; [etrans; [exact Hrun | apply (resolve_page_step _ [] [_])] |].
  rewrite resume_page. cbn [snd w_pag_loading]. split; [set_solver | split; [done|]].
  unfold transactions. cbn [w_paginated]. rewrite Hr1.
  rewrite HP. destruct P as [d [z|]]; simpl; by eexists.
Qed.

Lemma onChange_start_employee v w :
  emp_id v <> emp_id EMPTY_EMPLOYEE ->
  onChange_start (Some v) w = loadByEmployee_start (emp_id v) (set_currentEmployee (Some v) w).
Proof. intros Hv. unfold onChange_start. by rewrite decide_False. Qed.

(** The first half of the races below: "View More" under "All
    Employees" sends a page request, and before it answers the user
    switches to an employee, whose list comes in.  The page request is
    still in flight, the paginated cell is empty. *)
Lemma switch_with_page_in_flight w r n es e T :
  at_rest w -> w_currentEmployee w = None -> w_paginated w = Some r ->
  nextPage r = Some n -> n <> (-1)%Z ->
  cache_get (getCacheKey PaginatedTransactions (Some (page_params (Some n)))) (w_cache w) = None ->
  be_employees be None = Some es -> e ∈ es -> emp_id e <> emp_id EMPTY_EMPLOYEE ->
  cache_get (getCacheKey Transactions (Some (employee_params (emp_id e)))) (w_cache w) = None ->
  be_transactions be (Some (employee_params (emp_id e))) = Some T ->
  exists w1, rtc (istep be) (w, []) (w1, [TPage (Some (page_params (Some n)))]) /\
    w_currentEmployee w1 = Some e /\ w_paginated w1 = None /\ w_byEmployee w1 = Some T /\
    w_employees w1 = Some es /\
    w_cache w1 = cache_set (getCacheKey Transactions (Some (employee_params (emp_id e))))
                   (stringify (to_json T)) (w_cache w).
Proof.
  intros (He & Hpl & Hb & Hi) Hc Hr Hn Hn1 Hmiss Hes Hin Hid Hmiss' HT.
  pose proof (reached_end_next r n Hn Hn1) as Hend.
  assert (page_call (Some r) = Some (page_params (Some n))) as Hpc by (unfold page_call; simpl; by rewrite Hn).
  destruct w as [c l el pl bl es0 pg be' il ce]; simpl in *; subst.
  eexists. split.
  - eapply rtc_l; [apply is_view_more; [by eexists | done] |].
    unfold spawn. rewrite viewMore_start_all, loadAll_start_run by done. simpl.
    eapply rtc_l; [apply (is_resolve be _ [] (TEmployees (Some r)) []) |].
    unfold spawn. rewrite resume_employees, fetchAll_start_miss
      by (exact Hend || (cbn [w_cache]; rewrite Hpc; exact Hmiss)). simpl.
    eapply rtc_l; [apply (is_select be _ _ e); unfold select_items; simpl; rewrite Hes; set_solver |].
    unfold spawn. rewrite onChange_start_employee, loadByEmployee_start_miss by done. simpl.
    eapply rtc_l; [apply (is_resolve be _ [TPage (page_call (Some r))] (TByEmployee _) []) |].
    unfold spawn. rewrite resume_byEmployee, Hpc. simpl. apply rtc_refl.
  - simpl. rewrite HT, Hes. by repeat split.
Qed.

(** C20: a page request that answers after the user switched to an
    employee still lands in the paginated cell: the updater sees the
    [null] left by [invalidateData] and returns the page as is.  Both
    sources are then loaded, and under the employee's filter the screen
    shows that page of all transactions. *)
Theorem stale_page_after_switch w r n P es e T :
  at_rest w -> w_currentEmployee w = None -> w_paginated w = Some r ->
  nextPage r = Some n -> n <> (-1)%Z ->
  cache_get (getCacheKey PaginatedTransactions (Some (page_params (Some n)))) (w_cache w) = None ->
  be_paginated be (Some (page_params (Some n))) = Some P ->
  be_employees be None = Some es -> e ∈ es -> emp_id e <> emp_id EMPTY_EMPLOYEE ->
  cache_get (getCacheKey Transactions (Some (employee_params (emp_id e)))) (w_cache w) = None ->
  be_transactions be (Some (employee_params (emp_id e))) = Some T ->
  exists w', rtc (istep be) (w, []) (w', []) /\
    w_currentEmployee w' = Some e /\ w_paginated w' = Some P /\ w_byEmployee w' = Some T /\
    transactions w' = Some (data P).
Proof.
  intros Hrest Hc Hr Hn Hn1 Hmiss HP Hes Hin Hid Hmiss' HT.
  destruct (switch_with_page_in_flight w r n es e T Hrest Hc Hr Hn Hn1 Hmiss Hes Hin Hid Hmiss' HT)
    as (w1 & Hrun & Hc1 & Hp1 & Hb1 & _).
  eexists. split.
  - etrans; [exact Hrun|].
    eapply rtc_l; [apply (is_resolve be _ [] (TPage _) []) |].
    unfold spawn. rewrite resume_page. apply rtc_refl.
  - cbn [w_currentEmployee w_paginated w_byEmployee]. rewrite HP, Hp1.
    unfold transactions. cbn [w_paginated]. by repeat split.
Qed.

(** C30: the pages of "All Employees" can come out of order.  The page
    request of a "View More" is still in flight when the user switches to
    an employee and back: the second load's first render saw an empty
    cell, so it asks for page 0 (served from the cache), but the stale
    page answers first into the empty cell and page 0's updater appends
    to it.  Under "All Employees" the list shows page [n] before page 0,
    against the spec's invariant that pages are accumulated in page order
    (section 3). *)
Theorem pages_out_of_order w r n P P0 es e T :
  at_rest w -> w_currentEmployee w = None -> w_paginated w = Some r ->
  nextPage r = Some n -> n <> (-1)%Z -> n <> 0%Z ->
  cache_get (getCacheKey PaginatedTransactions (Some (page_params (Some n)))) (w_cache w) = None ->
  cache_get (getCacheKey PaginatedTransactions (Some (page_params (Some 0%Z)))) (w_cache w) =
    Some (stringify (to_json P0)) ->
  be_paginated be (Some (page_params (Some n))) = Some P ->
  be_employees be None = Some es -> e ∈ es -> emp_id e <> emp_id EMPTY_EMPLOYEE ->
  cache_get (getCacheKey Transactions (Some (employee_params (emp_id e)))) (w_cache w) = None ->
  be_transactions be (Some (employee_params (emp_id e))) = Some T ->
  exists w', rtc (istep be) (w, []) (w', []) /\
    w_currentEmployee w' = None /\ w_byEmployee w' = None /\
    w_paginated w' = merge_page (Some P0) (Some P) /\
    transactions w' = Some (data P ++ data P0).
Proof.
  intros Hrest Hc Hr Hn Hn1 Hn0 Hmiss Hhit HP Hes Hin Hid Hmiss' HT.
  destruct (switch_with_page_in_flight w r n es e T Hrest Hc Hr Hn Hn1 Hmiss Hes Hin Hid Hmiss' HT)
    as (w1 & Hrun & Hc1 & Hp1 & Hb1 & Hemp1 & Hcache1).
  assert (Hk0 : cache_get (getCacheKey PaginatedTransactions (page_call None))
    (cache_set (getCacheKey PaginatedTransactions (Some (page_params (Some n)))) (stringify (to_json P))
       (w_cache w1)) = Some (stringify (to_json P0))).
  { rewrite cache_get_set_ne
      by (intros Hk; apply getCacheKey_params_inj in Hk; unfold page_call in Hk; simpl in Hk;
          simplify_eq; done).
    rewrite Hcache1, cache_get_set_ne by (intros Hk; by apply getCacheKey_endpoint_inj in Hk).
    exact Hhit. }
  destruct w1 as [c1 l1 el1 pl1 bl1 es1 pg1 be1 il1 ce1]; cbn in Hc1, Hp1, Hb1, Hemp1, Hk0; subst.
  eexists. split.
  - etrans; [exact Hrun|].
    eapply rtc_l; [apply (is_select be _ _ EMPTY_EMPLOYEE); unfold select_items; cbn; set_solver |].
    unfold spawn, onChange_start. rewrite decide_True by done. cbv [st_bind st_modify].
    rewrite loadAll_start_run. cbn.
    eapply rtc_l; [apply (is_resolve be _ [] (TPage _) [TEmployees None]) |].
    unfold spawn. rewrite resume_page, HP. cbn.
    eapply rtc_l; [apply (is_resolve be _ [] (TEmployees None) []) |].
    unfold spawn. rewrite resume_employees, (fetchAll_start_hit None _ P0) by (done || exact Hk0).
    apply rtc_refl.
  - cbn. split_and!; [done | done | done |].
    unfold transactions. cbn. destruct (nextPage P0); done.
Qed.
End Races.

(** ** Invariants of every interleaving *)

Section InterleavedInvariants.
Context `{KVStoreLaws M} (be : Backend).
Implicit Types (w : World M) (ts : list Task).

(** Each raised flag has a request of its hook in flight. *)
Definition flags_inv (s : Sys M) : Prop :=
  let '(w, ts) := s in
  (w_emp_loading w = true -> exists snap, TEmployees snap ∈ ts) /\
  (w_isLoading w = true -> exists snap, TEmployees snap ∈ ts) /\
  (w_pag_loading w = true -> exists p, TPage p ∈ ts) /\
  (w_byemp_loading w = true -> exists p, TByEmployee p ∈ ts).

Lemma fetch_begin_loading `{Codec T} e p (fs : FetchState M) :
  fs_loading (fetch_begin (T := T) e p fs).2 =
    match (fetch_begin (T := T) e p fs).1 with Answered _ => false | Waiting => true end.
Proof.
  unfold fetch_begin, cache_lookup. st_unfold.
  destruct (cache_get _ _); [case_decide|]; reflexivity.
Qed.

Lemma fetchAll_start_shape snap w :
  let '(n, w') := fetchAll_start snap w in
  w_emp_loading w' = w_emp_loading w /\ w_byemp_loading w' = w_byemp_loading w /\
  w_isLoading w' = w_isLoading w /\
  ((n = [] /\ (w_pag_loading w' = true -> w_pag_loading w = true)) \/ exists p, n = [TPage p]).
Proof.
  unfold fetchAll_start. destruct (reached_end snap); [simpl; naive_solver|].
  unfold run_fetch. st_unfold.
  pose proof (fetch_begin_loading (T := Paginated) PaginatedTransactions
                (Some (page_params (next_page_param snap))) (hook_fs HPaginated w)) as HL.
  destruct (fetch_begin _ _ _) as [[r|] fs']; simpl in *; rewrite ?HL; naive_solver.
Qed.

Lemma loadByEmployee_start_shape id w :
  let '(n, w') := loadByEmployee_start id w in
  w_emp_loading w' = w_emp_loading w /\ w_pag_loading w' = w_pag_loading w /\
  w_isLoading w' = w_isLoading w /\
  ((n = [] /\ w_byemp_loading w' = false) \/ exists p, n = [TByEmployee p]).
Proof.
  unfold loadByEmployee_start, paginated_invalidateData, run_pag, invalidateData, run_fetch. st_unfold.
  pose proof (fetch_begin_loading (T := list Transaction) Transactions
                (Some (employee_params id)) (hook_fs HByEmployee (set_paginated None
                  (put_hook_fs HPaginated (hook_fs HPaginated w) w)))) as HL.
  destruct (fetch_begin _ _ _) as [[r|] fs']; simpl in *; rewrite ?HL; naive_solver.
Qed.

Lemma ex_elem_app_l {A} (f : A -> Task) ts n : (exists a, f a ∈ ts) -> exists a, f a ∈ ts ++ n.
Proof. intros [a Ha]. exists a. set_solver. Qed.

Lemma ex_elem_app_r {A} (f : A -> Task) ts n : (exists a, f a ∈ n) -> exists a, f a ∈ ts ++ n.
Proof. intros [a Ha]. exists a. set_solver. Qed.

(** A request in flight other than the resolved one is still in flight. *)
Lemma ex_elem_remove {A} (f : A -> Task) t ts1 ts2 :
  (forall a, f a <> t) -> (exists a, f a ∈ ts1 ++ t :: ts2) -> exists a, f a ∈ ts1 ++ ts2.
Proof.
  intros Hne [a Ha]. exists a. apply elem_of_app in Ha as [Ha|Ha]; [set_solver|].
  apply elem_of_cons in Ha as [Ha|Ha]; [by destruct (Hne a) | set_solver].
Qed.

#[local] Hint Resolve ex_elem_app_l ex_elem_app_r : ramp.

Lemma loadAll_start_flags w ts : flags_inv (w, ts) -> flags_inv (spawn loadAll_start w ts).
Proof.
  unfold spawn. rewrite loadAll_start_run. cbn.
  intros (H1 & H2 & H3 & H4). repeat split; intros Hx; eauto with ramp.
  all: apply ex_elem_app_r; eexists; by apply list_elem_of_singleton.
Qed.

Lemma loadByEmployee_start_flags id w ts :
  flags_inv (w, ts) -> flags_inv (spawn (loadByEmployee_start id) w ts).
Proof.
  unfold spawn. pose proof (loadByEmployee_start_shape id w) as Hs.
  destruct (loadByEmployee_start id w) as [n w'].
  destruct Hs as (E1 & E2 & E3 & [[-> E4] | [p ->]]); intros (H1 & H2 & H3 & H4); cbn.
  all: rewrite E1, E2, E3; repeat split; intros Hx; try congruence; eauto with ramp.
  apply ex_elem_app_r. eexists. by apply list_elem_of_singleton.
Qed.

Lemma fetchAll_start_flags snap w ts :
  flags_inv (w, ts) -> flags_inv (spawn (fetchAll_start snap) w ts).
Proof.
  unfold spawn. pose proof (fetchAll_start_shape snap w) as Hs.
  destruct (fetchAll_start snap w) as [n w'].
  destruct Hs as (E1 & E2 & E3 & [[-> E4] | [p ->]]); intros (H1 & H2 & H3 & H4); cbn.
  all: rewrite E1, E2, E3; repeat split; intros Hx; eauto with ramp.
  apply ex_elem_app_r. eexists. by apply list_elem_of_singleton.
Qed.

Ltac still_in_flight H := intros Hx; eapply ex_elem_remove; [| apply H, Hx]; intros ? [=].

Lemma resume_flags t w ts1 ts2 :
  flags_inv (w, ts1 ++ t :: ts2) -> flags_inv (spawn (resume be t) w (ts1 ++ ts2)).
Proof.
  intros (H1 & H2 & H3 & H4). destruct t as [snap|p|p].
  - unfold spawn. rewrite resume_employees. apply fetchAll_start_flags. cbn.
    repeat split; [done | done | still_in_flight H3 | still_in_flight H4].
  - unfold spawn. rewrite resume_page. cbn. rewrite app_nil_r.
    repeat split; [still_in_flight H1 | still_in_flight H2 | done | still_in_flight H4].
  - unfold spawn. rewrite resume_byEmployee. cbn. rewrite app_nil_r.
    repeat split; [still_in_flight H1 | still_in_flight H2 | still_in_flight H3 | done].
Qed.

Lemma set_currentEmployee_flags e w ts :
  flags_inv (w, ts) -> flags_inv (set_currentEmployee e w, ts).
Proof. by destruct w. Qed.

Lemma istep_flags s s' : istep be s s' -> flags_inv s -> flags_inv s'.
Proof.
  destruct 1 as [w ts Hen|w ts v Hv|w ts Hv Hp|w ts1 t ts2]; intros Hf.
  - by apply loadAll_start_flags.
  - unfold onChange_start. case_decide.
    + change (flags_inv (spawn loadAll_start (set_currentEmployee None w) ts)).
      by apply loadAll_start_flags, set_currentEmployee_flags.
    + change (flags_inv (spawn (loadByEmployee_start (emp_id v)) (set_currentEmployee (Some v) w) ts)).
      by apply loadByEmployee_start_flags, set_currentEmployee_flags.
  - unfold spawn, viewMore_start. destruct (w_currentEmployee w).
    + by apply loadByEmployee_start_flags.
    + by apply loadAll_start_flags.
  - by apply resume_flags.
Qed.

Lemma reachable_flags s : rtc (istep be) (initial_world, []) s -> flags_inv s.
Proof. apply (rtc_preserve (istep be) flags_inv _ s istep_flags). by repeat split. Qed.

Lemma flags_quiescent w : flags_inv (w, []) -> at_rest w.
Proof.
  intros (H1 & H2 & H3 & H4).
  repeat split; apply not_true_is_false; intros Hx;
    [destruct (H1 Hx) as [? Hin] | destruct (H3 Hx) as [? Hin] | destruct (H4 Hx) as [? Hin]
    | destruct (H2 Hx) as [? Hin]]; set_solver.
Qed.

(** C22: whatever the interleaving, once no request is in flight every
    loading flag and [isLoading] are down. *)
Theorem quiescent_at_rest w :
  rtc (istep be) (initial_world, []) (w, []) -> at_rest w.
Proof. intros Hr. by apply flags_quiescent, reachable_flags. Qed.

(** The cache holds, at every key the program builds, what the backend
    answers for that request. *)
Definition cache_faithful w : Prop :=
  consistent_cache (be_paginated be) PaginatedTransactions (w_cache w) /\
  consistent_cache (be_transactions be) Transactions (w_cache w) /\
  consistent_cache (be_employees be) Employees (w_cache w).

Lemma fetch_begin_cache `{Codec T} e p (fs : FetchState M) :
  fs_cache (fetch_begin (T := T) e p fs).2 = fs_cache fs.
Proof.
  unfold fetch_begin, cache_lookup. st_unfold.
  destruct (cache_get _ _); [case_decide|]; reflexivity.
Qed.

Lemma fetchAll_start_cache snap w : w_cache (fetchAll_start snap w).2 = w_cache w.
Proof.
  unfold fetchAll_start. destruct (reached_end snap); [done|]. unfold run_fetch. st_unfold.
  pose proof (fetch_begin_cache (T := Paginated) PaginatedTransactions
                (Some (page_params (next_page_param snap))) (hook_fs HPaginated w)) as HC.
  destruct (fetch_begin _ _ _) as [[r|] fs']; simpl in *; by rewrite HC.
Qed.

Lemma loadByEmployee_start_cache id w : w_cache (loadByEmployee_start id w).2 = w_cache w.
Proof.
  unfold loadByEmployee_start, paginated_invalidateData, run_pag, invalidateData, run_fetch. st_unfold.
  pose proof (fetch_begin_cache (T := list Transaction) Transactions
                (Some (employee_params id)) (hook_fs HByEmployee (set_paginated None
                  (put_hook_fs HPaginated (hook_fs HPaginated w) w)))) as HC.
  destruct (fetch_begin _ _ _) as [[r|] fs']; simpl in *; by rewrite HC.
Qed.

Lemma cache_faithful_same w w' : w_cache w' = w_cache w -> cache_faithful w -> cache_faithful w'.
Proof. unfold cache_faithful. by intros ->. Qed.

Lemma spawn_fst c w ts : (spawn c w ts).1 = (c w).2.
Proof. unfold spawn. by destruct (c w). Qed.

Lemma resume_cache_faithful t w : cache_faithful w -> cache_faithful (resume be t w).2.
Proof.
  intros Hf. destruct t as [snap|p|p].
  - rewrite resume_employees. eapply cache_faithful_same; [apply fetchAll_start_cache | exact Hf].
  - rewrite resume_page. destruct Hf as (Hp & Ht & He). unfold cache_faithful. cbn [snd w_cache].
    destruct (be_paginated be p) eqn:E; [| done].
    split; [by apply consistent_cache_set|].
    split; apply consistent_cache_set_other; done.
  - rewrite resume_byEmployee. destruct Hf as (Hp & Ht & He). unfold cache_faithful. cbn [snd w_cache].
    destruct (be_transactions be p) eqn:E; [| done].
    split; [by apply consistent_cache_set_other|].
    split; [by apply consistent_cache_set | by apply consistent_cache_set_other].
Qed.

(** Only an answered request writes to the cache; a user action leaves
    it as it is. *)
Lemma istep_cache s s' :
  istep be s s' -> w_cache s'.1 = w_cache s.1 \/ exists t, w_cache s'.1 = w_cache (resume be t s.1).2.
Proof.
  destruct 1 as [w ts Hen|w ts v Hv|w ts Hv Hp|w ts1 t ts2]; rewrite spawn_fst; cbn [fst].
  - left. by rewrite loadAll_start_run.
  - left. unfold onChange_start. case_decide; cbv [st_bind st_modify].
    + rewrite loadAll_start_run. by destruct w.
    + rewrite loadByEmployee_start_cache. by destruct w.
  - left. unfold viewMore_start.
    destruct (w_currentEmployee w); [apply loadByEmployee_start_cache | by rewrite loadAll_start_run].
  - right. by exists t.
Qed.

Lemma istep_cache_faithful s s' : istep be s s' -> cache_faithful s.1 -> cache_faithful s'.1.
Proof.
  intros Hs Hf. destruct (istep_cache s s' Hs) as [Hc | [t Hc]];
    eapply cache_faithful_same; [exact Hc | exact Hf | exact Hc | by apply resume_cache_faithful].
Qed.

(** A faithful entry is rewritten, if at all, with the text it holds. *)
Lemma resume_cache_keeps t w k v :
  cache_faithful w -> cache_get k (w_cache w) = Some v -> cache_get k (w_cache (resume be t w).2) = Some v.
Proof.
  intros (Hp & Ht & _) Hk. destruct t as [snap|p|p].
  - by rewrite resume_employees, fetchAll_start_cache.
  - rewrite resume_page. cbn [snd w_cache]. destruct (be_paginated be p) as [x|] eqn:E; [| done].
    destruct (decide (getCacheKey PaginatedTransactions p = k)) as [<-|Hne].
    + destruct (Hp p v Hk) as (x' & Hx' & ->). rewrite E in Hx'. injection Hx' as ->.
      apply cache_get_set_eq. by destruct (w_cache w).
    + by rewrite cache_get_set_ne.
  - rewrite resume_byEmployee. cbn [snd w_cache]. destruct (be_transactions be p) as [x|] eqn:E; [| done].
    destruct (decide (getCacheKey Transactions p = k)) as [<-|Hne].
    + destruct (Ht p v Hk) as (x' & Hx' & ->). rewrite E in Hx'. injection Hx' as ->.
      apply cache_get_set_eq. by destruct (w_cache w).
    + by rewrite cache_get_set_ne.
Qed.

(** C21: whatever the interleaving, the cache stays faithful: starting
    from a cache whose entries are the backend's answers, every
    reachable cache holds, at each request's key, the backend's answer
    to that request.  Races corrupt the cells, never the cache. *)
Theorem interleaved_cache_faithful s s' :
  rtc (istep be) s s' -> cache_faithful s.1 -> cache_faithful s'.1.
Proof. intros Hr Hf. exact (rtc_preserve _ (fun s => cache_faithful s.1) _ _ istep_cache_faithful Hf Hr). Qed.

(** C27: whatever the interleaving, a cache entry never changes: two
    requests for the same page may both miss and both write, but the
    second writes the text the first wrote (the spec's "overwritten
    never", in effect). *)
Theorem cache_entries_stable s s' k v :
  rtc (istep be) s s' -> cache_faithful s.1 ->
  cache_get k (w_cache s.1) = Some v -> cache_get k (w_cache s'.1) = Some v.
Proof.
  intros Hr Hf Hk.
  enough (cache_faithful s'.1 /\ cache_get k (w_cache s'.1) = Some v) as [_ ?] by done.
  apply (rtc_preserve (istep be) (fun x => cache_faithful x.1 /\ cache_get k (w_cache x.1) = Some v) s);
    [| done | exact Hr].
  intros x y Hxy [Hfx Hkx]. split; [by apply (istep_cache_faithful x y)|].
  destruct (istep_cache x y Hxy) as [-> | [t ->]]; [done | by apply resume_cache_keeps].
Qed.

(** C28: the casts [as TData] are sound under every interleaving: in
    every reachable state, an entry under the key of a page request
    decodes as a [PaginatedResponse<Transaction[]>], and one under the key
    of an employee's request as a [Transaction[]], in both cases the
    backend's answer to that request. *)
Theorem cache_entries_typed s s' p v :
  rtc (istep be) s s' -> cache_faithful s.1 ->
  (cache_get (getCacheKey PaginatedTransactions p) (w_cache s'.1) = Some v ->
   exists x : Paginated, parse v ≫= of_json = Some x /\ be_paginated be p = Some x) /\
  (cache_get (getCacheKey Transactions p) (w_cache s'.1) = Some v ->
   exists x : list Transaction, parse v ≫= of_json = Some x /\ be_transactions be p = Some x).
Proof.
  intros Hr Hf.
  destruct (rtc_preserve (istep be) (fun x => cache_faithful x.1) s s' istep_cache_faithful Hf Hr)
    as (Hp & Ht & _).
  split; intros Hv; by eapply consistent_cache_decode.
Qed.
End InterleavedInvariants.

(** ** Every set of requests in flight drains *)

Section Termination.
Context `{KVStoreLaws M} (be : Backend).

(** A waiting [loadAllTransactions] still has its page request ahead. *)
Definition task_weight (t : Task) : nat :=
  match t with TEmployees _ => 2 | TPage _ => 1 | TByEmployee _ => 1 end.

Definition weight (ts : list Task) : nat := list_sum (map task_weight ts).

Lemma weight_app ts ts' : weight (ts ++ ts') = weight ts + weight ts'.
Proof. unfold weight. by rewrite map_app, list_sum_app. Qed.

Lemma fetchAll_start_weight snap (w : World M) : weight (fetchAll_start snap w).1 <= 1.
Proof.
  pose proof (fetchAll_start_shape snap w) as Hs. destruct (fetchAll_start snap w) as [n w'].
  destruct Hs as (_ & _ & _ & [[-> _] | [p ->]]); unfold weight; simpl; lia.
Qed.

(** Answering a request leaves less work in flight than it had. *)
Lemma resume_weight t (w : World M) : weight (resume be t w).1 < task_weight t.
Proof.
  destruct t as [snap|p|p].
  - rewrite resume_employees. pose proof (fetchAll_start_weight snap
      (mkWorld (w_cache w) (w_log w) false (w_pag_loading w) (w_byemp_loading w)
         (be_employees be None) (w_paginated w) (w_byEmployee w) false (w_currentEmployee w))).
    simpl. lia.
  - rewrite resume_page. unfold weight. simpl. lia.
  - rewrite resume_byEmployee. unfold weight. simpl. lia.
Qed.

Lemma drain_done n (s : Sys M) : weight s.2 <= n -> (drain be n s).2 = [].
Proof.
  revert s. induction n as [|n IH]; intros [w ts] Hn.
  - destruct ts as [|t ts]; [done|]. simpl in Hn. unfold weight in Hn. simpl in Hn.
    destruct t; simpl in Hn; lia.
  - destruct ts as [|t ts]; [done|]. simpl. apply IH.
    unfold spawn. pose proof (resume_weight t w) as Hr.
    destruct (resume be t w) as [new w']. simpl in *. rewrite weight_app.
    unfold weight in Hn |- *. simpl in Hn. unfold weight in Hr. lia.
Qed.

End Termination.

(** ** Concrete runs *)

Section Witnesses.
(** Page 0 on screen, its cursor naming page 1, nothing cached. *)
Definition page0_world : World (gmap string string) :=
  mkWorld (Some ∅) [] false false false (Some [demo_employee])
    (Some (demo_page 10 (Some 1%Z))) None false None.

Lemma double_view_more_duplicates_page_witness :
  exists w', rtc (istep demo_backend) (page0_world, []) (w', []) /\ w_currentEmployee w' = None /\
    w_paginated w' = Some {| data := [demo_txn 10; demo_txn 11; demo_txn 11];
                             nextPage := Some 2%Z |} /\
    w_log w' = [(Employees, None); (Employees, None);
                (PaginatedTransactions, Some (page_params (Some 1%Z)));
                (PaginatedTransactions, Some (page_params (Some 1%Z)))].
Proof.
  apply (double_view_more_duplicates_page demo_backend page0_world (demo_page 10 (Some 1%Z)) 1%Z
           (demo_page 11 (Some 2%Z))).
  - by repeat split.
  - reflexivity.
  - reflexivity.
  - reflexivity.
  - lia.
  - reflexivity.
  - vm_compute. reflexivity.
Defined.

Lemma loading_flag_drops_while_pending_witness :
  exists w' ts, rtc (istep demo_backend) (page0_world, []) (w', ts) /\
    TPage (Some (page_params (Some 1%Z))) ∈ ts /\
    w_pag_loading w' = false /\ is_Some (transactions w').
Proof.
  apply (loading_flag_drops_while_pending demo_backend page0_world (demo_page 10 (Some 1%Z)) 1%Z).
  - by repeat split.
  - reflexivity.
  - reflexivity.
  - reflexivity.
  - lia.
  - reflexivity.
  - vm_compute. by eexists.
Defined.

Lemma stale_page_after_switch_witness :
  exists w', rtc (istep demo_backend) (page0_world, []) (w', []) /\
    w_currentEmployee w' = Some demo_employee /\
    w_paginated w' = Some (demo_page 11 (Some 2%Z)) /\ w_byEmployee w' = Some [demo_txn 42] /\
    transactions w' = Some [demo_txn 11].
Proof.
  apply (stale_page_after_switch demo_backend page0_world (demo_page 10 (Some 1%Z)) 1%Z
           (demo_page 11 (Some 2%Z)) [demo_employee] demo_employee [demo_txn 42]).
  - by repeat split.
  - reflexivity.
  - reflexivity.
  - reflexivity.
  - lia.
  - reflexivity.
  - vm_compute. reflexivity.
  - reflexivity.
  - set_solver.
  - discriminate.
  - reflexivity.
  - reflexivity.
Defined.

(** The world after the mount effect's load has completed. *)
Definition wA : World (gmap string string) := (loadAllTransactions demo_backend W0).2.

Lemma wA_reachable : rtc (istep demo_backend) (W0, []) (wA, []).
Proof. eapply rtc_l; [by apply is_mount|]. unfold wA. rewrite <- loadAll_sequential. apply drain_rtc. Qed.

Lemma W0_faithful : cache_faithful demo_backend W0.
Proof. split; [| split]; apply consistent_cache_empty. Qed.

Lemma quiescent_at_rest_witness :
  rtc (istep demo_backend) (W0, []) (wA, []) /\ at_rest wA.
Proof. split; [exact wA_reachable | exact (quiescent_at_rest demo_backend _ wA_reachable)]. Defined.

Lemma interleaved_cache_faithful_witness :
  rtc (istep demo_backend) (W0, []) (wA, []) /\
  cache_faithful demo_backend W0 /\ cache_faithful demo_backend wA.
Proof.
  split; [exact wA_reachable | split; [exact W0_faithful |]].
  exact (interleaved_cache_faithful demo_backend _ _ wA_reachable W0_faithful).
Defined.

(** The key and the text the load stored for page 0. *)
Definition page0_key : string := getCacheKey PaginatedTransactions (Some (page_params (Some 0%Z))).
Definition page0_text : string := stringify (to_json (demo_page 10 (Some 1%Z))).

(** The systems of the runs below, nothing in flight.  The witnesses
    state their facts on these names so that no check has to run a load. *)
Definition s0 : Sys (gmap string string) := (W0, []).
Definition sA : Sys (gmap string string) := (wA, []).

Lemma sA_reachable : rtc (istep demo_backend) s0 sA.
Proof. exact wA_reachable. Qed.

Lemma sA_page0 : cache_get page0_key (w_cache sA.1) = Some page0_text.
Proof. vm_compute. reflexivity. Qed.

Lemma s0_faithful : cache_faithful demo_backend s0.1.
Proof. exact W0_faithful. Qed.

Lemma sA_faithful : cache_faithful demo_backend sA.1.
Proof.
  exact (rtc_preserve _ (fun x => cache_faithful demo_backend x.1) s0 sA
           (istep_cache_faithful demo_backend) s0_faithful sA_reachable).
Qed.

(** A second load, by "View More": page 1 comes in, page 0's entry stays. *)
Definition sB : Sys (gmap string string) := ((loadAllTransactions demo_backend wA).2, []).

Lemma sB_reachable : rtc (istep demo_backend) sA sB.
Proof.
  unfold sA, sB.
  eapply rtc_l; [apply is_view_more; [vm_compute; by eexists | reflexivity] |].
  unfold spawn. rewrite viewMore_start_all by reflexivity. fold (spawn loadAll_start wA []).
  rewrite <- loadAll_sequential. apply drain_rtc.
Qed.

Lemma cache_entries_stable_witness :
  rtc (istep demo_backend) sA sB /\ cache_faithful demo_backend sA.1 /\
  cache_get page0_key (w_cache sA.1) = Some page0_text /\
  cache_get page0_key (w_cache sB.1) = Some page0_text.
Proof.
  split; [exact sB_reachable | split; [exact sA_faithful | split; [exact sA_page0 |]]].
  exact (cache_entries_stable demo_backend sA sB page0_key page0_text
           sB_reachable sA_faithful sA_page0).
Defined.

Lemma cache_entries_typed_witness :
  rtc (istep demo_backend) s0 sA /\ cache_faithful demo_backend s0.1 /\
  cache_get (getCacheKey PaginatedTransactions (Some (page_params (Some 0%Z)))) (w_cache sA.1) =
    Some page0_text /\
  exists x : Paginated, parse page0_text ≫= of_json = Some x /\
    be_paginated demo_backend (Some (page_params (Some 0%Z))) = Some x.
Proof.
  split; [exact sA_reachable | split; [exact s0_faithful | split; [exact sA_page0 |]]].
  exact (proj1 (cache_entries_typed demo_backend s0 sA (Some (page_params (Some 0%Z))) page0_text
                  sA_reachable s0_faithful) sA_page0).
Defined.


(** Page 0 on screen and in the cache, its cursor naming page 1. *)
Definition page0_cached_world : World (gmap string string) :=
  mkWorld (Some {[ page0_key := page0_text ]}) [] false false false (Some [demo_employee])
    (Some (demo_page 10 (Some 1%Z))) None false None.

Lemma pages_out_of_order_witness :
  exists w', rtc (istep demo_backend) (page0_cached_world, []) (w', []) /\
    w_currentEmployee w' = None /\ w_byEmployee w' = None /\
    w_paginated w' = merge_page (Some (demo_page 10 (Some 1%Z))) (Some (demo_page 11 (Some 2%Z))) /\
    transactions w' = Some (data (demo_page 11 (Some 2%Z)) ++ data (demo_page 10 (Some 1%Z))).
Proof.
  apply (pages_out_of_order demo_backend page0_cached_world (demo_page 10 (Some 1%Z)) 1%Z
           (demo_page 11 (Some 2%Z)) (demo_page 10 (Some 1%Z)) [demo_employee] demo_employee
           [demo_txn 42]).
  - by repeat split.
  - reflexivity.
  - reflexivity.
  - reflexivity.
  - lia.
  - lia.
  - vm_compute. reflexivity.
  - vm_compute. reflexivity.
  - reflexivity.
  - reflexivity.
  - set_solver.
  - discriminate.
  - vm_compute. reflexivity.
  - reflexivity.
Defined.
End Witnesses.
