(* ===== verification/InterleavedBounds.v ===== *)
(** * Page requests stay in range under every interleaving

    [Pagination.v] bounds the pages [fetchAll] requests when it runs
    alone ([pag_requests_bounded]).  Here the same bound is carried
    through the interleaved semantics of [Interleaving.v], where the page
    a request carries comes from the snapshot of the render that started
    it, the updater merges into the latest cell, and the cache may answer
    instead of the network.  The invariant [bounds_inv] holds the cache's
    faithfulness, the cell's cursor, the network log, and what every
    request in flight carries: the snapshot of a pending load, the page
    of a pending page request. *)

From stdpp Require Import base list strings relations gmap.
From Stdlib Require Import ZArith.
From S2P Require Import Prelude Json Model Cache Fetcher Pagination App Interleaving.

Local Open Scope hook_scope.

Section InterleavedBounds.
Context `{KVStoreLaws M} (be : Backend) (B : Z).
Hypothesis HB : (0 < B)%Z.
Hypothesis Hserve : serves_in_range (be_paginated be) B.
Implicit Types (w : World M) (ts : list Task).

(** What a request in flight carries is in range. *)
Definition task_in_range (t : Task) : Prop :=
  match t with
  | TEmployees snapshot => cursor_in_range B snapshot
  | TPage params => exists x, params = Some (page_params x) /\ page_in_range B x
  | TByEmployee _ => True
  end.

Definition bounds_inv (s : Sys M) : Prop :=
  cache_faithful be s.1 /\ cursor_in_range B (w_paginated s.1) /\ log_in_range B (w_log s.1) /\
  Forall task_in_range s.2.

(** What a segment must leave for [spawn] to keep the bounds. *)
Definition segment_in_range (r : list Task * World M) : Prop :=
  cursor_in_range B (w_paginated r.2) /\ log_in_range B (w_log r.2) /\ Forall task_in_range r.1.

Lemma spawn_in_range c w ts :
  Forall task_in_range ts -> segment_in_range (c w) ->
  cursor_in_range B (w_paginated (spawn c w ts).1) /\ log_in_range B (w_log (spawn c w ts).1) /\
  Forall task_in_range (spawn c w ts).2.
Proof.
  unfold spawn, segment_in_range. destruct (c w) as [n w']. cbn.
  intros Hts (? & ? & ?). split_and!; [done | done | by apply Forall_app].
Qed.

Lemma log_in_range_other l c :
  log_in_range B l -> c.1 <> PaginatedTransactions -> log_in_range B (l ++ [c]).
Proof. intros Hl Hc. apply log_in_range_snoc; [done | intros Hx; contradiction]. Qed.

Lemma page_call_in_range snap :
  cursor_in_range B snap -> reached_end snap = false ->
  exists x, page_call snap = Some (page_params x) /\ page_in_range B x.
Proof. intros Hs He. eexists. split; [reflexivity | by apply next_page_param_in_range]. Qed.

Lemma fetchAll_start_in_range snap w :
  cache_faithful be w -> cursor_in_range B snap -> cursor_in_range B (w_paginated w) ->
  log_in_range B (w_log w) -> segment_in_range (fetchAll_start snap w).
Proof.
  intros [Hc _] Hsnap Hcur Hlog. unfold segment_in_range.
  destruct (reached_end snap) eqn:He.
  { unfold fetchAll_start. rewrite He. cbn. auto. }
  destruct (cache_get (getCacheKey PaginatedTransactions (page_call snap)) (w_cache w)) as [s|] eqn:E.
  - destruct (Hc _ _ E) as (x & Hx & ->).
    rewrite (fetchAll_start_hit snap w x He E). cbn [fst snd w_paginated w_log]. split_and!; [| done | constructor].
    apply merge_page_in_range. intros r [= <-]. exact (Hserve _ _ Hx).
  - rewrite (fetchAll_start_miss snap w He E). cbn.
    destruct (page_call_in_range snap Hsnap He) as (x & Hx & Hr).
    split_and!; [done | apply log_in_range_snoc; [done | by exists x] | repeat constructor].
    by exists x.
Qed.

Lemma loadAll_start_in_range w :
  cursor_in_range B (w_paginated w) -> log_in_range B (w_log w) -> segment_in_range (loadAll_start w).
Proof.
  intros Hcur Hlog. rewrite loadAll_start_run. unfold segment_in_range. cbn.
  split_and!; [done | by apply log_in_range_other | by repeat constructor].
Qed.

Lemma fetch_begin_log `{Codec T} e p (fs : FetchState M) :
  fs_log (fetch_begin (T := T) e p fs).2 = fs_log fs \/
  fs_log (fetch_begin (T := T) e p fs).2 = fs_log fs ++ [(e, p)].
Proof.
  unfold fetch_begin, cache_lookup. st_unfold.
  destruct (cache_get _ _); [case_decide|]; simpl; auto.
Qed.

Lemma loadByEmployee_start_in_range id w :
  log_in_range B (w_log w) -> segment_in_range (loadByEmployee_start id w).
Proof.
  intros Hlog. unfold segment_in_range, loadByEmployee_start, paginated_invalidateData, run_pag,
    invalidateData, run_fetch. st_unfold.
  pose proof (fetch_begin_log (T := list Transaction) Transactions
                (Some (employee_params id)) (hook_fs HByEmployee (set_paginated None
                  (put_hook_fs HPaginated (hook_fs HPaginated w) w)))) as HL.
  destruct (fetch_begin _ _ _) as [[r|] fs']; simpl in *;
    (split_and!; [done | destruct HL as [-> | ->]; [done | by apply log_in_range_other] |
                  by repeat constructor]).
Qed.

Lemma resume_in_range t w :
  cache_faithful be w -> task_in_range t -> cursor_in_range B (w_paginated w) ->
  log_in_range B (w_log w) -> segment_in_range (resume be t w).
Proof.
  intros Hf Ht Hcur Hlog. unfold segment_in_range. destruct t as [snap|p|p].
  - rewrite resume_employees. apply fetchAll_start_in_range; [| done | done | done].
    by apply (cache_faithful_same be w).
  - rewrite resume_page. cbn [fst snd w_paginated w_log]. split_and!; [| done | constructor].
    apply merge_page_in_range. intros r Hr. exact (Hserve _ _ Hr).
  - rewrite resume_byEmployee. cbn. split_and!; [done | done | constructor].
Qed.

Lemma istep_bounds s s' : istep be s s' -> bounds_inv s -> bounds_inv s'.
Proof.
  intros Hs Hinv. pose proof (istep_cache_faithful be s s' Hs (proj1 Hinv)) as Hf.
  split; [exact Hf|]. clear Hf.
  destruct Hs as [w ts Hen|w ts v Hv|w ts Ht Hp|w ts1 t ts2]; destruct Hinv as (Hc & Hcur & Hlog & Hts);
    cbn [fst snd] in *.
  - apply spawn_in_range; [done | by apply loadAll_start_in_range].
  - apply spawn_in_range; [done|]. unfold onChange_start. case_decide; cbv [st_bind st_modify].
    + by apply loadAll_start_in_range.
    + by apply loadByEmployee_start_in_range.
  - apply spawn_in_range; [done|]. unfold viewMore_start. destruct (w_currentEmployee w).
    + by apply loadByEmployee_start_in_range.
    + by apply loadAll_start_in_range.
  - apply Forall_app in Hts as [Hts1 Hts2]. apply Forall_cons in Hts2 as [Ht Hts2].
    apply spawn_in_range; [by apply Forall_app | by apply resume_in_range].
Qed.

Lemma bounds_inv_initial : bounds_inv (initial_world, []).
Proof.
  split_and!; [split; [| split]; apply consistent_cache_empty | done | | constructor].
  intros p Hp. cbn in Hp. set_solver.
Qed.

(** C32: under every interleaving from the first render, with a backend
    whose cursors lie in [[0, B)], every page request sent so far carried
    [null] or a page in [[0, B)] (never the sentinel [-1]), the cell's
    cursor is the sentinel or such a page, and every request in flight
    (a pending load's snapshot, a pending page request) is in range:
    the bound of [pag_requests_bounded] survives the races, the snapshots
    and the cache. *)
Theorem interleaved_requests_bounded s :
  rtc (istep be) (initial_world, []) s ->
  log_in_range B (w_log s.1) /\ cursor_in_range B (w_paginated s.1) /\ Forall task_in_range s.2.
Proof.
  intros Hr.
  by destruct (rtc_preserve _ bounds_inv _ _ istep_bounds bounds_inv_initial Hr) as (_ & ? & ? & ?).
Qed.
End InterleavedBounds.

(** ** Concrete runs *)

Section Witnesses.

Lemma interleaved_requests_bounded_witness :
  log_in_range (2 ^ 53)%Z (w_log sB.1) /\ cursor_in_range (2 ^ 53)%Z (w_paginated sB.1) /\
  Forall (task_in_range (2 ^ 53)%Z) sB.2.
Proof.
  apply (interleaved_requests_bounded demo_backend (2 ^ 53)%Z).
  - lia.
  - exact demo_pages_in_range.
  - exact (rtc_trans _ _ _ sA_reachable sB_reachable).
Defined.
End Witnesses.
