(* ===== verification/View.v ===== *)
(** * The page [App] renders: [src/src/App.tsx], lines 68-122

    [App] returns a tree whose only dynamic parts are three: the props of
    the employee [InputSelect] (its [isLoading], items, [parseItem] and
    the [onChange] closure), the list handed to [Transactions], and the
    "View More" button, rendered only when [transactions !== null],
    [disabled] while the paginated hook loads, whose [onClick] is a
    closure of the render.  [render] builds these props from a [World],
    given the two closures; [app_page_i] is the page whose closures are
    the cut handlers of [Interleaving.v].  [Instructions], the separators
    and the class names are static and not modelled.

    The theorem shows that whatever the interleaving, answering the
    requests in flight brings the page back to a settled display: the
    select out of its loading label and "View More", when shown,
    enabled. *)

From stdpp Require Import base list strings relations gmap.
From Stdlib Require Import ZArith.
From S2P Require Import Prelude Json Model Cache Fetcher Pagination App Interleaving.

Local Open Scope hook_scope.

(** An option of the select: what [parseItem] makes of an item. *)
Record SelectItem := {
  si_value : string;
  si_label : string
}.

(** The props [App] passes to [InputSelect<Employee>]. *)
Record InputSelectProps (H : Type) := {
  sel_isLoading : bool;
  sel_defaultValue : Employee;
  sel_items : list Employee;
  sel_label : string;
  sel_loadingLabel : string;
  sel_parseItem : Employee -> SelectItem;
  sel_onChange : option Employee -> H
}.

(** The "View More" button. *)
Record ViewMoreButton (H : Type) := {
  vm_disabled : bool;
  vm_onClick : H
}.

(** The dynamic part of the page. *)
Record Page (H : Type) := {
  page_select : InputSelectProps H;
  page_transactions : option (list Transaction);
  page_view_more : option (ViewMoreButton H)
}.

Arguments sel_isLoading {H}. Arguments sel_defaultValue {H}. Arguments sel_items {H}.
Arguments sel_label {H}. Arguments sel_loadingLabel {H}. Arguments sel_parseItem {H}.
Arguments sel_onChange {H}. Arguments vm_disabled {H}. Arguments vm_onClick {H}.
Arguments page_select {H}. Arguments page_transactions {H}. Arguments page_view_more {H}.

(** [parseItem={(item) => ({ value: item.id, label: `${item.firstName} ${item.lastName}` })}] *)
Definition parseItem (item : Employee) : SelectItem :=
  {| si_value := emp_id item; si_label := firstName item +:+ " " +:+ lastName item |}.

(** The [return] of [App], given the two closures it builds. *)
Definition render `{KVStoreLaws M} {Hd : Type} (onChange_h : option Employee -> Hd)
    (onClick_h : Hd) (w : World M) : Page Hd := {|
  page_select := {|
    sel_isLoading := w_isLoading w;
    sel_defaultValue := EMPTY_EMPLOYEE;
    sel_items := select_items w;
    sel_label := "Filter by employee";
    sel_loadingLabel := "Loading employees";
    sel_parseItem := parseItem;
    sel_onChange := onChange_h |};
  page_transactions := transactions w;
  page_view_more :=
    if transactions w is Some _
    then Some {| vm_disabled := pt_loading (paginatedTransactionsUtils w); vm_onClick := onClick_h |}
    else None |}.

(** The page of the interleaved handlers: its closures are the cut
    handlers of [Interleaving.v]. *)
Definition app_page_i `{KVStoreLaws M} (w : World M) : Page (St (World M) (list Task)) :=
  render onChange_start viewMore_start w.

(** ** The interleaved page *)

Section InterleavedPage.
Context `{KVStoreLaws M} (be : Backend).
Implicit Types (w : World M).

(** C29: whatever the interleaving, answering the requests in flight
    (oldest first, within [weight] answers) reaches a page where the
    select shows its items rather than its loading label and the "View
    More" button, when shown, is enabled: the page never stays stuck in
    a loading display. *)
Theorem page_settles s :
  rtc (istep be) (initial_world, []) s ->
  let s' := drain be (weight s.2) s in
  rtc (istep be) s s' /\ s'.2 = [] /\
  sel_isLoading (page_select (app_page_i s'.1)) = false /\
  (forall b, page_view_more (app_page_i s'.1) = Some b -> vm_disabled b = false).
Proof.
  intros Hr. cbv zeta.
  pose proof (drain_done be (weight s.2) s (le_n _)) as Hd.
  pose proof (drain_rtc be (weight s.2) s) as Hs.
  destruct (drain be (weight s.2) s) as [w' ts'] eqn:E. cbn in Hd. subst ts'.
  destruct (flags_quiescent w' (reachable_flags be _ (rtc_trans _ _ _ Hr Hs)))
    as (_ & Hp & _ & Hi).
  cbn. rewrite Hi. split_and!; [done..|].
  destruct (transactions w'); intros b; [intros [= <-]; done | done].
Qed.
End InterleavedPage.

(** ** Concrete runs *)

Section Witnesses.

(** The mount effect has fired; the employee request is in flight. *)
Definition sM : Sys (gmap string string) := spawn loadAll_start W0 [].

Lemma page_settles_witness :
  let s' := drain demo_backend (weight sM.2) sM in
  rtc (istep demo_backend) sM s' /\ s'.2 = [] /\
  sel_isLoading (page_select (app_page_i s'.1)) = false /\
  (forall b, page_view_more (app_page_i s'.1) = Some b -> vm_disabled b = false).
Proof.
  apply (page_settles demo_backend sM).
  apply rtc_once. unfold sM. apply is_mount. reflexivity.
Defined.
End Witnesses.
